(** * smyth.py: parallel HMM clustering after Smyth 1997

    A shallow embedding of [smyth.py] and the properties of its
    orchestration pipeline.

    Conventions of the embedding:
    - Python floats are rationals [Q] (an idealisation: no rounding, no
      infinities, no NaN); Python ints are [Z], lengths are [nat]. Where
      the finiteness of the distances is at stake, the distance stage is
      embedded a second time, over floats with infinities ([pyfloat]).
    - Exceptions are the [Err] results of an error monad; the orchestrator's
      methods run in a state-and-error monad over the object [self] and a
      [world] holding the CPU clock and the log of pool operations.
    - The third-party libraries (ghmm, sklearn, numpy, Pycluster) and the
      helper modules of the repository that [smyth.py] imports are the
      variables of the section [Smyth]. Printing is not modelled. *)

From Stdlib Require Import QArith Qabs Qminmax Lqa.
From stdpp Require Import base option list sorting gmap strings.

Local Open Scope Q_scope.

(** ** Exceptions and the error monad of the worker functions *)

Inductive exn : Set :=
  | AssertionError
  | ZeroDivisionError
  | ValueError
  | TypeError
  | KeyError
  | IndexError
  | UnboundLocalError.

Inductive result (A : Type) : Type :=
  | Ok (a : A)
  | Err (e : exn).
Arguments Ok {A} a.
Arguments Err {A} e.

#[global] Instance result_ret : MRet result := @Ok.
#[global] Instance result_bind : MBind result := λ A B f m,
  match m with
  | Ok a => f a
  | Err e => Err e
  end.
#[global] Instance result_fmap : FMap result := λ A B f m,
  match m with
  | Ok a => Ok (f a)
  | Err e => Err e
  end.

(** [assert c] *)
Definition py_assert (c : bool) : result unit :=
  if c then Ok tt else Err AssertionError.

(** ** Numbers *)

Definition Qlt_bool (x y : Q) : bool := negb (Qle_bool y x).

(** Python's two-argument [max(a, b)]: [b] only when [b > a]. *)
Definition py_max (a b : Q) : Q := if Qlt_bool a b then b else a.

(** Python's [min]/[max] of a list: [ValueError] on the empty list,
    otherwise the first least (greatest) element. *)
Definition py_min_list (l : list Q) : result Q :=
  match l with
  | [] => Err ValueError
  | x :: t => Ok (foldl (λ m y, if Qlt_bool y m then y else m) x t)
  end.
Definition py_max_list (l : list Q) : result Q :=
  match l with
  | [] => Err ValueError
  | x :: t => Ok (foldl (λ m y, if Qlt_bool m y then y else m) x t)
  end.

(** [x / y] for a float [x] and an int [y]. *)
Definition py_fdiv (x : Q) (y : Z) : result Q :=
  if decide (y = 0%Z) then Err ZeroDivisionError else Ok (x / inject_Z y).

(** ** Floats with infinities

    Where overflow and infinite values matter, a Python float is a
    rational, an infinity or NaN. *)
Inductive pyfloat : Type :=
  | Fin (q : Q)
  | PInf
  | NInf
  | NaN.

Definition is_finite (x : pyfloat) : Prop :=
  match x with
  | Fin _ => True
  | _ => False
  end.

(** [x <= y] and [x < y]: every comparison with NaN is false. *)
Definition fle_bool (x y : pyfloat) : bool :=
  match x, y with
  | NaN, _ | _, NaN => false
  | NInf, _ | _, PInf => true
  | Fin a, Fin b => Qle_bool a b
  | _, _ => false
  end.
Definition flt_bool (x y : pyfloat) : bool :=
  match x, y with
  | NaN, _ | _, NaN => false
  | Fin a, Fin b => Qlt_bool a b
  | NInf, NInf | PInf, _ | _, NInf => false
  | _, _ => true
  end.

(** [x + y], [x / 2.0] and [-1 * x] *)
Definition fadd (x y : pyfloat) : pyfloat :=
  match x, y with
  | NaN, _ | _, NaN => NaN
  | PInf, NInf | NInf, PInf => NaN
  | PInf, _ | _, PInf => PInf
  | NInf, _ | _, NInf => NInf
  | Fin a, Fin b => Fin (a + b)
  end.
Definition fhalf (x : pyfloat) : pyfloat :=
  match x with
  | Fin a => Fin (a / 2)
  | other => other
  end.
Definition fneg (x : pyfloat) : pyfloat :=
  match x with
  | Fin a => Fin ((-1 # 1) * a)
  | PInf => NInf
  | NInf => PInf
  | NaN => NaN
  end.

(** Python's [min]/[max] of a list of floats. *)
Definition py_min_list_f (l : list pyfloat) : result pyfloat :=
  match l with
  | [] => Err ValueError
  | x :: t => Ok (foldl (λ m y, if flt_bool y m then y else m) x t)
  end.
Definition py_max_list_f (l : list pyfloat) : result pyfloat :=
  match l with
  | [] => Err ValueError
  | x :: t => Ok (foldl (λ m y, if flt_bool m y then y else m) x t)
  end.

(** ** Data model *)

(** A sequence of scalar observations. *)
Abbreviation Sequence := (list Q) (only parsing).
(** An emission: [(mu, stddev)]. *)
Abbreviation Emission := (Q * Q)%type (only parsing).
(** An HMM triple [(A, B, pi)]. *)
Abbreviation Triple := (list (list Q) * list Emission * list Q)%type
  (only parsing).

Definition EPSILON : Q := 5 # 10.

(** ** Helpers of the repository that [smyth.py] imports *)

(** Modelled from the spec: [cluster_utils.partition] is not under src/.
    It groups the items by their label ("grouping Sequences by label,
    preserving original sequence order within each group"); there is one
    group per label that occurs, so every group is non-empty. The groups are
    listed by ascending label. *)
Definition label_set (labels : list Z) : list Z :=
  merge_sort Z.le (remove_dups labels).
Definition group_of {A} (tagged : list (Z * A)) (c : Z) : list A :=
  (filter (λ p, p.1 = c) tagged).*2.
Definition partition {A} (items : list A) (labels : list Z) : list (list A) :=
  let tagged := zip labels items in
  group_of tagged <$> label_set tagged.*1.

(** Modelled from the spec: [matrix_utils.uniformMatrix] is not under src/.
    [uniformMatrix rows cols v] is the [rows] x [cols] matrix with every
    entry [v] ("a uniform transition matrix (every entry 1/r)"). *)
Definition uniformMatrix (rows cols : nat) (v : Q) : list (list Q) :=
  replicate rows (replicate cols v).

(** ** The observation preparer *)

(** [distinct.add(o)] on a set of floats. *)
Definition set_add (o : Q) (distinct : list Q) : list Q :=
  if existsb (Qeq_bool o) distinct then distinct else distinct ++ [o].

Definition prepareSeqs (Ss : list Sequence) : list (list Q) * list Q :=
  foldl (λ acc s,
           foldl (λ '(merged, distinct) o, (merged ++ [[o]], set_add o distinct))
                 acc s)
        ([], []) Ss.

(** ** The orchestrator's object, the world around it, and its monad *)

(** Per-k mixture components: the dict with the keys ['hmm_triples'],
    ['cluster_sizes'] and ['seq_lens']. *)
Record component : Type := Component {
  comp_hmm_triples : list Triple;
  comp_cluster_sizes : list nat;
  comp_seq_lens : list (list nat)
}.

(** The attributes of an [HMMCluster] object ([self.pool] lives in the
    [world]). [S_] and [n_] are [self.S] and [self.n]. *)
Record HMMCluster : Type := Self {
  S_ : list Sequence;
  n_ : nat;
  target_m : Z;
  min_k : Z;
  max_k : Z;
  dist_func : string;
  hmm_init : string;
  clust_alg : string;
  train_mode : string;
  components : gmap Z component;
  composites : gmap Z Triple;
  dist_matrix : option (list Q);
  partitions : gmap Z (list (list Sequence));
  labelings : gmap Z (list Z);
  k_values : list Z;
  init_hmms : list (option Triple);
  times : gmap string Q
}.

Definition set_components (f : gmap Z component → gmap Z component)
    (o : HMMCluster) : HMMCluster :=
  Self (S_ o) (n_ o) (target_m o) (min_k o) (max_k o) (dist_func o)
       (hmm_init o) (clust_alg o) (train_mode o) (f (components o))
       (composites o) (dist_matrix o) (partitions o) (labelings o)
       (k_values o) (init_hmms o) (times o).
Definition set_composites (f : gmap Z Triple → gmap Z Triple)
    (o : HMMCluster) : HMMCluster :=
  Self (S_ o) (n_ o) (target_m o) (min_k o) (max_k o) (dist_func o)
       (hmm_init o) (clust_alg o) (train_mode o) (components o)
       (f (composites o)) (dist_matrix o) (partitions o) (labelings o)
       (k_values o) (init_hmms o) (times o).
Definition set_dist_matrix (v : option (list Q)) (o : HMMCluster)
  : HMMCluster :=
  Self (S_ o) (n_ o) (target_m o) (min_k o) (max_k o) (dist_func o)
       (hmm_init o) (clust_alg o) (train_mode o) (components o)
       (composites o) v (partitions o) (labelings o)
       (k_values o) (init_hmms o) (times o).
Definition set_partitions
    (f : gmap Z (list (list Sequence)) → gmap Z (list (list Sequence)))
    (o : HMMCluster) : HMMCluster :=
  Self (S_ o) (n_ o) (target_m o) (min_k o) (max_k o) (dist_func o)
       (hmm_init o) (clust_alg o) (train_mode o) (components o)
       (composites o) (dist_matrix o) (f (partitions o)) (labelings o)
       (k_values o) (init_hmms o) (times o).
Definition set_labelings (f : gmap Z (list Z) → gmap Z (list Z))
    (o : HMMCluster) : HMMCluster :=
  Self (S_ o) (n_ o) (target_m o) (min_k o) (max_k o) (dist_func o)
       (hmm_init o) (clust_alg o) (train_mode o) (components o)
       (composites o) (dist_matrix o) (partitions o) (f (labelings o))
       (k_values o) (init_hmms o) (times o).
Definition set_init_hmms (v : list (option Triple)) (o : HMMCluster)
  : HMMCluster :=
  Self (S_ o) (n_ o) (target_m o) (min_k o) (max_k o) (dist_func o)
       (hmm_init o) (clust_alg o) (train_mode o) (components o)
       (composites o) (dist_matrix o) (partitions o) (labelings o)
       (k_values o) v (times o).
Definition set_times (f : gmap string Q → gmap string Q)
    (o : HMMCluster) : HMMCluster :=
  Self (S_ o) (n_ o) (target_m o) (min_k o) (max_k o) (dist_func o)
       (hmm_init o) (clust_alg o) (train_mode o) (components o)
       (composites o) (dist_matrix o) (partitions o) (labelings o)
       (k_values o) (init_hmms o) (f (times o)).

(** What the process does to the world outside the object: operations on
    the worker pool, and the one serial call that builds the clustering
    tree. *)
Inductive event : Type :=
  | PoolCreate (n_jobs : option nat)
  | PoolMap (fn : string) (ntasks : nat)
  | PoolClose
  | TreeCluster.

#[global] Instance event_eq_dec : EqDecision event.
Proof. solve_decision. Defined.

(** [clock_src i] is what the [i]-th call of [time.clock()] returns. *)
Record world : Type := World {
  clock_src : nat → Q;
  ticks : nat;
  trace : list event
}.

Abbreviation state := (HMMCluster * world)%type (only parsing).

(** The monad of the methods: state passing over [(self, world)], with
    exceptions. A raised exception keeps the state reached so far. *)
Definition M (A : Type) : Type := state → result A * state.

#[global] Instance M_ret : MRet M := λ A a s, (Ok a, s).
#[global] Instance M_bind : MBind M := λ A B f m s,
  match m s with
  | (Ok a, s') => f a s'
  | (Err e, s') => (Err e, s')
  end.

Definition get_self : M HMMCluster := λ s, (Ok s.1, s).
Definition modify (f : HMMCluster → HMMCluster) : M unit :=
  λ s, (Ok tt, (f s.1, s.2)).
Definition lift {A} (r : result A) : M A := λ s, (r, s).
Definition raise {A} (e : exn) : M A := λ s, (Err e, s).
Definition emit (evs : list event) (w : world) : world :=
  World (clock_src w) (ticks w) (trace w ++ evs).
Definition tick (w : world) : world :=
  World (clock_src w) (S (ticks w)) (trace w).
Definition log (e : event) : M unit := λ s, (Ok tt, (s.1, emit [e] s.2)).
(** [time.clock()] *)
Definition clock : M Q :=
  λ s, (Ok (clock_src s.2 (ticks s.2)), (s.1, tick s.2)).

(** [self.pool.map(fn, items)]: the results in the order of the items; an
    exception of a task is raised in the caller (the first one, in item
    order). *)
Definition pool_map {A B} (name : string) (fn : A → result B)
    (items : list A) : M (list B) :=
  _ ← log (PoolMap name (length items));
  lift (mapM fn items).

(** A [for] loop over [l] whose body updates the loop-carried locals. *)
Fixpoint for_ {A B} (l : list A) (body : B → A → M B) (acc : B) : M B :=
  match l with
  | [] => mret acc
  | x :: t => acc' ← body acc x; for_ t body acc'
  end.

(** [l[i]] and [d[k]] *)
Definition py_index {A} (l : list A) (i : nat) : result A :=
  from_option Ok (Err IndexError) (l !! i).
Definition dict_get `{Countable K} {V} (d : gmap K V) (k : K) : result V :=
  from_option Ok (Err KeyError) (d !! k).

(** [xrange(a, b)] *)
Definition xrange (a b : Z) : list Z := seqZ a (b - a).

(** [itertools.islice(it, start, stop)] over a generator, given as the
    list of the computations of its yields: the generator is run up to
    [stop] (an exception of a yield is raised), and the values from [start]
    on are passed. *)
Definition islice {A} (it : list (result A)) (start stop : Z)
  : result (list A) :=
  if decide (start < 0 ∨ stop < 0)%Z then Err ValueError
  else
    yielded ← mapM id (take (Z.to_nat stop) it);
    mret (drop (Z.to_nat start) yielded).

(** ** Concrete stand-ins for the third-party capabilities

    Executable instances of the capabilities, used to run the pipeline on
    concrete inputs. *)
Module Ex.

(** Two groups split at 5 when at least two are asked for, else one. *)
Definition k_means (merged : list (list Q)) (m : Z)
  : list (list Q) * list Z * Q :=
  ([], map (λ v, if decide (m ≤ 1)%Z then 0%Z
                 else if Qle_bool (hd 0 v) 5 then 0%Z else 1%Z) merged, 0).

Definition Qsum (l : list Q) : Q := foldr Qplus 0 l.
Definition mean (c : list (list Q)) : Q :=
  Qred (Qsum (concat c) / inject_Z (Z.of_nat (length (concat c)))).
(** Half the range: the standard deviation of a sample that takes at most
    two values, equally often. *)
Definition std (c : list (list Q)) : Q :=
  match concat c with
  | [] => 0
  | x :: t =>
      Qred ((foldl (λ m y, if Qlt_bool m y then y else m) x t
             - foldl (λ m y, if Qlt_bool y m then y else m) x t) / 2)
  end.

(** The model handle is the triple itself. *)
Definition HMM : Type := Triple.
Definition tripleToHMM (t : Triple) : HMM := t.
Definition hmmToTriple (h : HMM) : Triple := h.

(** The index of the state whose mean is nearest to [o]. *)
Definition nearest (B : list Emission) (o : Q) : nat :=
  (foldl (λ '(best, d, i) b,
            let d' := Qabs (o - b.1) in
            if Qlt_bool d' d then (i, d', S i) else (best, d, S i))
         (0%nat, Qabs (o - (hd (0, 0) B).1), 0%nat) B).1.1.
Definition count_occ (l : list nat) (i : nat) : Z :=
  Z.of_nat (length (filter (λ x, x = i) l)).
Definition count_steps (path : list nat) (i j : nat) : Z :=
  Z.of_nat (length (filter (λ p, p = (i, j)) (zip path (tail path)))).
Definition ratio (a b : Z) : Q :=
  if decide (b = 0)%Z then 0 else Qred (inject_Z a / inject_Z b).
(** Training by hard assignment: every observation is assigned to the state
    with the nearest mean, and A, B and pi are re-estimated from the counts
    of the assigned paths. For a one-state model this is the maximum
    likelihood estimate Baum-Welch converges to. *)
Definition baumWelch (h : HMM) (Ss : list Sequence) : HMM :=
  let '(A, B, pi) := h in
  let m := length B in
  let paths := map (map (nearest B)) Ss in
  let states := seq 0 m in
  let A' := map (λ i, map (λ j,
      ratio (foldr Z.add 0%Z (map (λ p, count_steps p i j) paths))
            (foldr Z.add 0%Z (map (λ p, Z.of_nat (length (filter (λ q, q.1 = i)
                                               (zip p (tail p))))) paths)))
      states) states in
  let B' := map (λ i,
      let obs := concat (map (λ s, (filter (λ o, nearest B o = i) s)) Ss) in
      (mean (map (λ o, [o]) obs), std (map (λ o, [o]) obs))) states in
  let pi' := map (λ i,
      ratio (Z.of_nat (length (filter (λ p, hd 0%nat p = i) paths)))
            (Z.of_nat (length paths))) states in
  (A', B', pi').

(** Minus the sum of the squared distances to the first state's mean. *)
Definition loglikelihood (h : HMM) (s : Sequence) : Q :=
  let mu := (hd (0, 0) h.1.2).1 in
  Qred (- Qsum (map (λ o, (o - mu) * (o - mu)) s)).

(** Concatenation of the components' emission lists. *)
Definition compositeTriple (c : component) : Triple :=
  ([], concat (map (λ t : Triple, t.1.2) (comp_hmm_triples c)), []).

(** The Levenshtein distance. *)
Fixpoint lev (a b : Sequence) : nat :=
  match a with
  | [] => length b
  | x :: a' =>
      (fix lev_a (b : Sequence) : nat :=
         match b with
         | [] => length a
         | y :: b' =>
             Nat.min (Nat.min (S (lev a' b)) (S (lev_a b')))
                     ((if Qeq_bool x y then 0 else 1) + lev a' b')
         end) b
  end%nat.
Definition levDistance (p : Sequence * Sequence) : Q :=
  inject_Z (Z.of_nat (lev p.1 p.2)).

(** The number of points of a condensed distance matrix. *)
Definition points (dm : list Q) : nat :=
  length (filter (λ n, n * (n - 1) / 2 < length dm)%nat
                 (seq 0 (S (S (length dm))))).
(** A chain of clusters: point [i] carries the label [min i (k - 1)]. *)
Definition Tree : Type := nat.
Definition treecluster (dm : list Q) : Tree := points dm.
Definition cut (t : Tree) (k : Z) : list Z :=
  map (λ i, Z.min (Z.of_nat i) (k - 1)) (seq 0 t).
(** Medoids [0 .. k-1], every other point with medoid [k-1]. *)
Definition kmedoids (dm : list Q) (k n_passes : Z) : list Z * Q * Z :=
  (cut (points dm) k, 0, 1%Z).

(** The log-likelihood with [-inf] for a sequence the model cannot emit:
    one with an observation farther than 5 from the first state's mean. *)
Definition loglikelihood_inf (h : HMM) (s : Sequence) : pyfloat :=
  let mu := (hd (0, 0) h.1.2).1 in
  if forallb (λ o, Qle_bool (Qabs (o - mu)) 5) s
  then Fin (loglikelihood h s) else NInf.

(** The cast to float32 without its rounding: overflow to an infinity
    from 2^128 on. *)
Definition float32 (x : pyfloat) : pyfloat :=
  match x with
  | Fin q =>
      if Qle_bool (inject_Z (2 ^ 128)) (Qabs q)
      then (if Qle_bool 0 q then PInf else NInf)
      else Fin q
  | other => other
  end.

(** *** Concrete inputs *)

(** Four sequences in two groups, a clock that advances by one at every
    reading, and the objects the constructor builds for them. *)
Definition seqs : list Sequence :=
  [[1; 1; 1]; [1.25; 1.25; 1.25]; [9; 9; 9]; [9.5; 9.5; 9.5]].
Definition world0 : world :=
  World (λ i, inject_Z (100 + Z.of_nat i)) 0 [].
Definition self_hmm : HMMCluster :=
  Self seqs 4 1 1 2 "hmm" "smyth" "hierarchical" "cluster"
       ∅ ∅ None ∅ ∅ (xrange 1 3) [] ∅.
Definition self_edit : HMMCluster :=
  Self seqs 4 1 1 2 "editdistance" "smyth" "hierarchical" "cluster"
       ∅ ∅ None ∅ ∅ (xrange 1 3) [] ∅.
(** One sequence with two plateaus, and one that alternates. *)
Definition plateaus : list Sequence := [[0; 0; 0; 10; 10; 10]].
Definition alternating : list Sequence := [[1; 1.2; 1; 1.2]].
(** The object after a clustering into the two groups. *)
Definition self_clustered : HMMCluster :=
  Self seqs 4 1 1 2 "hmm" "smyth" "hierarchical" "cluster"
       ∅ ∅ None
       (<[1%Z := [seqs]]>
          (<[2%Z := [[[1; 1; 1]; [1.25; 1.25; 1.25]];
                     [[9; 9; 9]; [9.5; 9.5; 9.5]]]]> ∅))
       (<[1%Z := [0; 0; 0; 0]%Z]> (<[2%Z := [0; 0; 1; 1]%Z]> ∅))
       (xrange 1 3) [] ∅.
(** The objects for one sequence alone, for the random initialisation,
    and for k-medoids on the edit distance. *)
Definition self_one : HMMCluster :=
  Self [[1; 1; 1]] 1 1 1 1 "hmm" "smyth" "hierarchical" "cluster"
       ∅ ∅ None ∅ ∅ (xrange 1 2) [] ∅.
Definition self_random : HMMCluster :=
  Self seqs 4 1 1 2 "hmm" "random" "hierarchical" "cluster"
       ∅ ∅ None ∅ ∅ (xrange 1 3) [] ∅.
Definition self_kmedoids : HMMCluster :=
  Self seqs 4 1 1 2 "editdistance" "smyth" "kmedoids" "cluster"
       ∅ ∅ None ∅ ∅ (xrange 1 3) [] ∅.

End Ex.

Section Smyth.

(** *** Third-party capabilities *)

(** [sklearn.cluster.k_means(X, n_clusters, init='k-means++')]:
    [(centroids, labels, inertia)]. *)
Variable k_means : list (list Q) → Z → list (list Q) * list Z * Q.
(** [numpy.mean], [numpy.std] over a list of 1-element vectors. *)
Variable mean : list (list Q) → Q.
Variable std : list (list Q) → Q.
(** The ghmm model handle with [baumWelch] (training, in place) and
    [loglikelihood], and the conversions of [hmm_utils]. *)
Variable HMM : Type.
Variable tripleToHMM : Triple → HMM.
Variable hmmToTriple : HMM → Triple.
Variable baumWelch : HMM → list Sequence → HMM.
Variable loglikelihood : HMM → Sequence → Q.
(** [hmm_utils.compositeTriple]: the block-diagonal triple of a mixture. *)
Variable compositeTriple : component → Triple.
(** [levenshtein.levDistance], applied to a pair of sequences. *)
Variable levDistance : Sequence * Sequence → Q.
(** [Pycluster.treecluster(distancematrix, method='m')] and [tree.cut(k)]. *)
Variable Tree : Type.
Variable treecluster : list Q → Tree.
Variable cut : Tree → Z → list Z.
(** [Pycluster.kmedoids(distance, nclusters, npass)]:
    [(clusterid, error, nfound)]. *)
Variable kmedoids : list Q → Z → Z → list Z * Q * Z.

(** ** Worker functions (module level) *)

Definition smythEmissionDistribution (pair : list Sequence * Z)
  : result (list Emission) :=
  let '(Ss, target_m) := pair in
  let '(merged, distinct) := prepareSeqs Ss in
  let m_prime := Z.min target_m (Z.of_nat (length distinct)) in
  let '(centroids, labels, inertia) := k_means merged m_prime in
  let clusters := partition merged labels in
  mapM (λ cluster,
          _ ← py_assert (bool_decide (0 < length cluster)%nat);
          let mu := mean cluster in
          let stddev := std cluster in
          mret (mu, stddev))
       clusters.

Definition smythDefaultTriple (pair : list Sequence * Z) : result Triple :=
  let '(cluster, target_m) := pair in
  B ← smythEmissionDistribution pair;
  let m_prime := length B in
  v ← py_fdiv 1 (Z.of_nat m_prime);
  let A := uniformMatrix m_prime m_prime v in
  v' ← py_fdiv 1 (Z.of_nat m_prime);
  let pi := replicate m_prime v' in
  let hmm := tripleToHMM (A, B, pi) in
  let hmm := baumWelch hmm cluster in
  let '(A_p, B_p, pi_p) := hmmToTriple hmm in
  let B_p := map (λ b : Emission, (b.1, py_max b.2 EPSILON)) B in
  mret (A_p, B_p, pi_p).

(** [randomDefaultTriple] is [pass]: it returns [None]. *)
Definition randomDefaultTriple (pair : list Sequence * Z)
  : result (option Triple) :=
  mret None.

(** [symDistance] receives what [init_fn] returned: a triple or [None];
    unpacking [None] as a triple is a [TypeError]. *)
Definition symDistance
    (args : (Sequence * option Triple) * (Sequence * option Triple))
  : result Q :=
  let '(pair1, pair2) := args in
  let '(seq1, triple1) := pair1 in
  let '(seq2, triple2) := pair2 in
  hmm1 ← from_option (λ t, Ok (tripleToHMM t)) (Err TypeError) triple1;
  hmm2 ← from_option (λ t, Ok (tripleToHMM t)) (Err TypeError) triple2;
  let s1_m2 := loglikelihood hmm2 seq1 in
  let s2_m1 := loglikelihood hmm1 seq2 in
  _ ← py_assert (Qle_bool s1_m2 0);
  _ ← py_assert (Qle_bool s2_m1 0);
  mret ((s1_m2 + s2_m1) / 2).

Definition reestimated (pair : Triple * list Sequence) : Triple :=
  let '(triple, Ss) := pair in
  let seqSet := Ss in
  let hmm := tripleToHMM triple in
  let hmm := baumWelch hmm seqSet in
  hmmToTriple hmm.

Definition trainHMM (pair : list Sequence * Z) : result Triple :=
  let '(cluster, m) := pair in
  t ← smythDefaultTriple pair;
  mret (reestimated (t, cluster)).

Definition kMedoids (args : list Q * Z * Z) : result (list Z * Q * Z) :=
  let '(dist_matrix, k, n_passes) := args in
  mret (kmedoids dist_matrix k n_passes).

(** ** class HMMCluster *)

Definition _sanityCheck (self : HMMCluster) : result unit :=
  _ ← py_assert (bool_decide (min_k self ≤ max_k self)%Z);
  _ ← py_assert (bool_decide (dist_func self ∈ ["hmm"; "editdistance"]));
  _ ← py_assert (bool_decide (hmm_init self ∈ ["smyth"; "random"]));
  _ ← py_assert (bool_decide (clust_alg self ∈ ["hierarchical"; "kmedoids"]));
  _ ← py_assert (bool_decide (train_mode self ∈ ["blockdiag"; "cluster"]));
  mret tt.

(** The constructor. The attributes assigned after [_sanityCheck()] hold
    their initial values from the start; nothing reads them before. *)
Definition __init__ (Ss : list Sequence) (target_m min_k max_k : Z)
    (dist_func hmm_init clust_alg train_mode : string) (n_jobs : option nat)
    (w : world) : result HMMCluster * world :=
  let self :=
    Self Ss (length Ss) target_m min_k max_k dist_func hmm_init clust_alg
         train_mode ∅ ∅ None ∅ ∅ (xrange min_k (max_k + 1)) [] ∅ in
  match _sanityCheck self with
  | Err e => (Err e, w)
  | Ok _ =>
      (Ok self, emit [PoolCreate n_jobs] w)
  end.

(** A batch item of the HMM distance: two (sequence, default model) pairs. *)
Abbreviation batch_item :=
  ((Sequence * option Triple) * (Sequence * option Triple))%type (only parsing).

(** The generator [_getHMMBatchItems]: the list of the values it yields,
    each one the computation of that [yield]. *)
Definition _getHMMBatchItems (self : HMMCluster) : list (result batch_item) :=
  flat_map (λ i,
    map (λ j,
           s_i ← py_index (S_ self) i;
           h_i ← py_index (init_hmms self) i;
           let pair_1 := (s_i, h_i) in
           s_j ← py_index (S_ self) j;
           h_j ← py_index (init_hmms self) j;
           let pair_2 := (s_j, h_j) in
           mret (pair_1, pair_2))
        (seq (1 + i) (n_ self - (1 + i))))
    (seq 0 (n_ self)).

(** Python 2 [a / b] on ints. *)
Definition py_idiv (a b : Z) : result Z :=
  if decide (b = 0%Z) then Err ZeroDivisionError else Ok (a / b)%Z.

(** The body of the mini-batch loop of [_getHMMDistMatrix]; the loop
    carries the locals [start] and [condensed]. *)
Definition hmm_mini_batch (batch_size n_batchitems : Z)
    (locals : Q * list Q) (i : Z) : M (Q * list Q) :=
  let '(_, condensed) := locals in
  let start := (batch_size * i)%Z in
  let stop := Z.min (batch_size * (i + 1)) n_batchitems in
  self ← get_self;
  let dist_batch := _getHMMBatchItems self in
  mini_batch ← lift (islice dist_batch start stop);
  dists ← pool_map "symDistance" symDistance mini_batch;
  mret (inject_Z start, condensed ++ dists).

(** [_getHMMDistMatrix], with the local constant [batch_size] as a
    parameter. The local [start] first holds a clock reading and is then
    rebound, by the loop, to the first index of the mini batch. *)
Definition _getHMMDistMatrix_with (batch_size : Z) : M (list Q) :=
  self ← get_self;
  let init_fn : option (string * (list Sequence * Z → result (option Triple))) :=
    if decide (hmm_init self = "smyth")
    then Some ("smythDefaultTriple", λ p, Some <$> smythDefaultTriple p)
    else if decide (hmm_init self = "random")
    then Some ("randomDefaultTriple", randomDefaultTriple)
    else None in
  start ← clock;
  init_fn ← lift (from_option Ok (Err UnboundLocalError) init_fn);
  hmms ← pool_map init_fn.1 init_fn.2 ((λ s, ([s], target_m self)) <$> S_ self);
  modify (set_init_hmms hmms);;
  c ← clock;
  modify (set_times <["init_hmms" := c - start]>);;
  let n := Z.of_nat (n_ self) in
  let n_batchitems := (n * (n + 1) / 2 - n)%Z in
  let condensed : list Q := [] in
  start ← clock;
  n_batches ← lift (py_idiv n_batchitems batch_size);
  '(start, condensed) ←
    for_ (xrange 0 (n_batches + 1)) (hmm_mini_batch batch_size n_batchitems)
         (start, condensed);
  c ← clock;
  modify (set_times <["distance_matrix" := c - start]>);;
  let shifted := map (λ l, (-1 # 1) * l) condensed in
  _ ← lift (py_min_list shifted);
  _ ← lift (py_max_list shifted);
  mret shifted.

Definition _getHMMDistMatrix : M (list Q) := _getHMMDistMatrix_with 500000.

Definition _getEditDistMatrix : M (list Q) :=
  self ← get_self;
  dist_batch ← lift (mapM id
    (flat_map (λ i,
       map (λ j,
              s_i ← py_index (S_ self) i;
              s_j ← py_index (S_ self) j;
              mret (s_i, s_j))
           (seq (1 + i) (n_ self - (1 + i))))
       (seq 0 (n_ self))));
  start ← clock;
  condensed ← pool_map "levDistance" (λ p, Ok (levDistance p)) dist_batch;
  c ← clock;
  modify (set_times <["distance_matrix" := c - start]>);;
  mret condensed.

Definition _getDistMatrix : M (list Q) :=
  self ← get_self;
  if decide (dist_func self = "hmm") then _getHMMDistMatrix
  else if decide (dist_func self = "editdistance") then _getEditDistMatrix
  else raise UnboundLocalError.

(** The body of the loop over the k values of [_hierarchical]. *)
Definition hierarchical_k (tree : Tree) (_ : unit) (k : Z) : M unit :=
  let labels := cut tree k in
  modify (set_labelings <[k := labels]>);;
  self ← get_self;
  let clusters := partition (S_ self) labels in
  modify (set_partitions <[k := clusters]>).

Definition _hierarchical : M unit :=
  dm ← _getDistMatrix;
  modify (set_dist_matrix (Some dm));;
  log TreeCluster;;
  let tree := treecluster dm in
  self ← get_self;
  for_ (k_values self) (hierarchical_k tree) tt.

(** The body of the loop over the indices of the k values of
    [_kMedoids]. *)
Definition kMedoids_i (results : list (list Z * Q * Z)) (_ : unit) (i : nat)
  : M unit :=
  self ← get_self;
  k ← lift (py_index (k_values self) i);
  result ← lift (py_index results i);
  let '(labels, error, nfound) := result in
  modify (set_labelings <[k := labels]>);;
  let clusters := partition (S_ self) labels in
  modify (set_partitions <[k := clusters]>).

Definition _kMedoids : M unit :=
  dm ← _getDistMatrix;
  modify (set_dist_matrix (Some dm));;
  self ← get_self;
  let batch_items := (λ k, (dm, k, 10%Z)) <$> k_values self in
  results ← pool_map "kMedoids" kMedoids batch_items;
  for_ (seq 0 (length (k_values self))) (kMedoids_i results) tt.

Definition _cluster : M unit :=
  start ← clock;
  self ← get_self;
  (if decide (clust_alg self = "hierarchical") then _hierarchical
   else if decide (clust_alg self = "kmedoids") then _kMedoids
   else mret tt);;
  c ← clock;
  modify (set_times <["clustering" := c - start]>).

(** [self.components[k][field].append(x)] *)
Definition components_append (k : Z) (upd : component → component)
  : M unit :=
  self ← get_self;
  comp ← lift (dict_get (components self) k);
  modify (set_components <[k := upd comp]>).

(** The bodies of the loops of [_trainModels]. Building the batch: the
    loop over the clusters of one partition, and the loop over the k
    values; the locals carried are [batch_items], [cluster_sizes] and
    [seq_lens]. *)
Definition batch_cluster (target_m : Z)
    (locals : list (list Sequence * Z) * list nat * list (list nat))
    (cluster : list Sequence)
  : M (list (list Sequence * Z) * list nat * list (list nat)) :=
  let '(batch_items, cluster_sizes, seq_lens) := locals in
  mret (batch_items ++ [(cluster, target_m)],
        cluster_sizes ++ [length cluster],
        seq_lens ++ [map length cluster]).
Definition batch_k
    (locals : list (list Sequence * Z) * list nat * list (list nat)) (k : Z)
  : M (list (list Sequence * Z) * list nat * list (list nat)) :=
  self ← get_self;
  part ← lift (dict_get (partitions self) k);
  for_ part (batch_cluster (target_m self)) locals.

(** Reassembling the mixtures: the loop over [xrange(0, k)], and the loop
    over the k values; the local carried is [idx]. *)
Definition reassemble_cluster (cluster_sizes : list nat)
    (seq_lens : list (list nat)) (hmm_triples : list Triple) (k : Z)
    (idx : nat) (i : Z) : M nat :=
  cluster_size ← lift (py_index cluster_sizes idx);
  inclust_seq_lens ← lift (py_index seq_lens idx);
  hmm_triple ← lift (py_index hmm_triples idx);
  components_append k (λ c,
    Component (comp_hmm_triples c ++ [hmm_triple]) (comp_cluster_sizes c)
              (comp_seq_lens c));;
  components_append k (λ c,
    Component (comp_hmm_triples c) (comp_cluster_sizes c ++ [cluster_size])
              (comp_seq_lens c));;
  components_append k (λ c,
    Component (comp_hmm_triples c) (comp_cluster_sizes c)
              (comp_seq_lens c ++ [inclust_seq_lens]));;
  mret (idx + 1)%nat.
Definition reassemble_k (cluster_sizes : list nat)
    (seq_lens : list (list nat)) (hmm_triples : list Triple)
    (idx : nat) (k : Z) : M nat :=
  idx ← for_ (xrange 0 k)
             (reassemble_cluster cluster_sizes seq_lens hmm_triples k) idx;
  self ← get_self;
  comp ← lift (dict_get (components self) k);
  let composite := tripleToHMM (compositeTriple comp) in
  modify (set_composites <[k := hmmToTriple composite]>);;
  mret idx.

Definition _trainModels : M unit :=
  self ← get_self;
  '(batch_items, cluster_sizes, seq_lens) ←
    for_ (k_values self) batch_k ([], [], []);
  for_ (k_values self) (λ _ k,
    modify (set_components <[k := Component [] [] []]>)) tt;;
  start ← clock;
  hmm_triples ← pool_map "trainHMM" trainHMM batch_items;
  c ← clock;
  modify (set_times <["modeling" := c - start]>);;
  let idx := 0%nat in
  _ ← for_ (k_values self) (reassemble_k cluster_sizes seq_lens hmm_triples)
           idx;
  mret tt.

Definition model : M unit :=
  start ← clock;
  _cluster;;
  _trainModels;;
  c ← clock;
  modify (set_times <["total" := c - start]>);;
  log PoolClose.

(** ** The distance stage over floats with infinities

    The log-likelihood that ghmm returns is [-inf] for a sequence the model
    cannot emit, and numpy's cast to float32 overflows to an infinity.
    Where the finiteness of the distances is at stake, the distance stage
    is embedded with them: the same code, with the log-likelihoods and the
    distances as [pyfloat]s and the cast [array(shifted, float32)]. *)
Variable loglikelihood_inf : HMM → Sequence → pyfloat.
(** numpy's cast of a float to float32. *)
Variable float32 : pyfloat → pyfloat.

Definition symDistance_inf
    (args : (Sequence * option Triple) * (Sequence * option Triple))
  : result pyfloat :=
  let '(pair1, pair2) := args in
  let '(seq1, triple1) := pair1 in
  let '(seq2, triple2) := pair2 in
  hmm1 ← from_option (λ t, Ok (tripleToHMM t)) (Err TypeError) triple1;
  hmm2 ← from_option (λ t, Ok (tripleToHMM t)) (Err TypeError) triple2;
  let s1_m2 := loglikelihood_inf hmm2 seq1 in
  let s2_m1 := loglikelihood_inf hmm1 seq2 in
  _ ← py_assert (fle_bool s1_m2 (Fin 0));
  _ ← py_assert (fle_bool s2_m1 (Fin 0));
  mret (fhalf (fadd s1_m2 s2_m1)).

Definition hmm_mini_batch_inf (batch_size n_batchitems : Z)
    (locals : Q * list pyfloat) (i : Z) : M (Q * list pyfloat) :=
  let '(_, condensed) := locals in
  let start := (batch_size * i)%Z in
  let stop := Z.min (batch_size * (i + 1)) n_batchitems in
  self ← get_self;
  let dist_batch := _getHMMBatchItems self in
  mini_batch ← lift (islice dist_batch start stop);
  dists ← pool_map "symDistance" symDistance_inf mini_batch;
  mret (inject_Z start, condensed ++ dists).

Definition _getHMMDistMatrix_inf_with (batch_size : Z) : M (list pyfloat) :=
  self ← get_self;
  let init_fn : option (string * (list Sequence * Z → result (option Triple))) :=
    if decide (hmm_init self = "smyth")
    then Some ("smythDefaultTriple", λ p, Some <$> smythDefaultTriple p)
    else if decide (hmm_init self = "random")
    then Some ("randomDefaultTriple", randomDefaultTriple)
    else None in
  start ← clock;
  init_fn ← lift (from_option Ok (Err UnboundLocalError) init_fn);
  hmms ← pool_map init_fn.1 init_fn.2 ((λ s, ([s], target_m self)) <$> S_ self);
  modify (set_init_hmms hmms);;
  c ← clock;
  modify (set_times <["init_hmms" := c - start]>);;
  let n := Z.of_nat (n_ self) in
  let n_batchitems := (n * (n + 1) / 2 - n)%Z in
  let condensed : list pyfloat := [] in
  start ← clock;
  n_batches ← lift (py_idiv n_batchitems batch_size);
  '(start, condensed) ←
    for_ (xrange 0 (n_batches + 1))
         (hmm_mini_batch_inf batch_size n_batchitems) (start, condensed);
  c ← clock;
  modify (set_times <["distance_matrix" := c - start]>);;
  let shifted := map fneg condensed in
  _ ← lift (py_min_list_f shifted);
  _ ← lift (py_max_list_f shifted);
  mret (map float32 shifted).

Definition _getHMMDistMatrix_inf : M (list pyfloat) :=
  _getHMMDistMatrix_inf_with 500000.

(** [_getDistMatrix]; the edit distances are finite. *)
Definition _getDistMatrix_inf : M (list pyfloat) :=
  self ← get_self;
  if decide (dist_func self = "hmm") then _getHMMDistMatrix_inf
  else if decide (dist_func self = "editdistance")
  then (condensed ← _getEditDistMatrix; mret (map Fin condensed))
  else raise UnboundLocalError.

(** ** Specification-side definitions *)

(** The unchunked HMM distance computation: [_getHMMDistMatrix] with all
    pairs submitted to the pool at once. *)
Definition _getHMMDistMatrix_unchunked : M (list Q) :=
  self ← get_self;
  let init_fn : option (string * (list Sequence * Z → result (option Triple))) :=
    if decide (hmm_init self = "smyth")
    then Some ("smythDefaultTriple", λ p, Some <$> smythDefaultTriple p)
    else if decide (hmm_init self = "random")
    then Some ("randomDefaultTriple", randomDefaultTriple)
    else None in
  start ← clock;
  init_fn ← lift (from_option Ok (Err UnboundLocalError) init_fn);
  hmms ← pool_map init_fn.1 init_fn.2 ((λ s, ([s], target_m self)) <$> S_ self);
  modify (set_init_hmms hmms);;
  c ← clock;
  modify (set_times <["init_hmms" := c - start]>);;
  start ← clock;
  self ← get_self;
  batch ← lift (mapM id (_getHMMBatchItems self));
  condensed ← pool_map "symDistance" symDistance batch;
  c ← clock;
  modify (set_times <["distance_matrix" := c - start]>);;
  let shifted := map (λ l, (-1 # 1) * l) condensed in
  _ ← lift (py_min_list shifted);
  _ ← lift (py_max_list shifted);
  mret shifted.

(** The successful runs: the value of a result, and the value and final
    state of a computation, when no exception is raised. *)
Definition ok {A} (r : result A) : option A :=
  match r with
  | Ok a => Some a
  | Err _ => None
  end.
Definition succ {A} (m : M A) (s : state) : option (A * state) :=
  match m s with
  | (Ok a, s') => Some (a, s')
  | (Err _, _) => None
  end.
Fixpoint for_opt {A B} (l : list A)
    (body : B → A → state → option (B * state)) (acc : B) (s : state)
  : option (B * state) :=
  match l with
  | [] => Some (acc, s)
  | x :: t => p ← body acc x s; for_opt t body p.1 p.2
  end.

(** The unordered pairs [(i, j)], [i < j < n], in row-major order. *)
Definition pair_indices (n : nat) : list (nat * nat) :=
  flat_map (λ i, map (pair i) (seq (1 + i) (n - (1 + i)))) (seq 0 n).

(** A component dict extended by the rows (trained triple, cluster size,
    sequence lengths) of some clusters, and the one built from them. *)
Definition comp_extend (c : component) (rows : list (Triple * nat * list nat))
  : component :=
  Component (comp_hmm_triples c ++ rows.*1.*1)
            (comp_cluster_sizes c ++ rows.*1.*2)
            (comp_seq_lens c ++ rows.*2).
Definition comp_of (rows : list (Triple * nat * list nat)) : component :=
  comp_extend (Component [] [] []) rows.

(** What the reassembly stores for [k] when its clusters have the rows
    [rows]. *)
Definition store_k (o : HMMCluster) (k : Z)
    (rows : list (Triple * nat * list nat)) : HMMCluster :=
  set_composites
    <[k := hmmToTriple (tripleToHMM (compositeTriple (comp_of rows)))]>
    (set_components <[k := comp_of rows]> o).

(** The rows of the clusters of one partition, given their trained
    triples. *)
Definition rows_of (p : list (list Sequence)) (tp : list Triple)
  : list (Triple * nat * list nat) :=
  zip (zip tp (length <$> p)) (map length <$> p).

(** The empty component dicts of the k values. *)
Definition reset_components (ks : list Z) (m : gmap Z component)
  : gmap Z component :=
  foldl (λ m k, <[k := Component [] [] []]> m) m ks.

(** What [_hierarchical] stores for [k]: the cut of the tree at [k] and
    the partition by it. *)
Definition hier_store (tree : Tree) (o : HMMCluster) (k : Z) : HMMCluster :=
  set_partitions <[k := partition (S_ o) (cut tree k)]>
                 (set_labelings <[k := cut tree k]> o).

(** The object without its recorded times. *)
Definition strip (o : HMMCluster) : HMMCluster := set_times (λ _, ∅) o.

(** Two computations are similar when, from two states whose objects
    agree up to the recorded times (the worlds, clocks included, are
    arbitrary), both raise the same exception or both return, with related
    values; in either case the objects of the final states agree up to the
    recorded times. *)
Definition sim {A} (R : A → A → Prop) (m1 m2 : M A) : Prop :=
  ∀ s1 s2 : HMMCluster * world, strip s1.1 = strip s2.1 →
    match m1 s1, m2 s2 with
    | (Ok a1, s1'), (Ok a2, s2') => R a1 a2 ∧ strip s1'.1 = strip s2'.1
    | (Err e1, s1'), (Err e2, s2') => e1 = e2 ∧ strip s1'.1 = strip s2'.1
    | _, _ => False
    end.


(** Row-major order of the pairs. *)
Definition row_major (p q : nat * nat) : Prop :=
  (p.1 < q.1 ∨ (p.1 = q.1 ∧ p.2 < q.2))%nat.

(** The default models of the sequences, as [_getHMMDistMatrix] builds
    them. *)
Definition init_models (self : HMMCluster) : result (list (option Triple)) :=
  if decide (hmm_init self = "smyth")
  then mapM (λ p, Some <$> smythDefaultTriple p)
            ((λ s, ([s], target_m self)) <$> S_ self)
  else if decide (hmm_init self = "random")
  then mapM randomDefaultTriple ((λ s, ([s], target_m self)) <$> S_ self)
  else Err UnboundLocalError.

(** The symmetrized log-likelihoods of a list of yielded batch items. *)
Definition run_items (l : list (result batch_item)) : option (list Q) :=
  mapM (λ r, ok (r ≫= symDistance)) l.

(** The items of mini batch [i]. *)
Definition mini_batch_items {A} (items : list A) (batch_size n_batchitems i : Z)
  : list A :=
  take (Z.to_nat (Z.min (batch_size * (i + 1)) n_batchitems)
        - Z.to_nat (batch_size * i))%nat
       (drop (Z.to_nat (batch_size * i)) items).

(** The name under which the initializer is submitted to the pool. *)
Definition init_fn_name (self : HMMCluster) : string :=
  if decide (hmm_init self = "smyth") then "smythDefaultTriple"
  else "randomDefaultTriple".

(** The pool operations of the mini-batch loop. *)
Definition mini_batch_events (self : HMMCluster) (batch_size : Z)
  : list event :=
  let items := _getHMMBatchItems self in
  let n_batchitems := Z.of_nat (length items) in
  (λ i, PoolMap "symDistance"
          (length (mini_batch_items items batch_size n_batchitems i)))
  <$> seqZ 0 (n_batchitems / batch_size + 1).

(** The matrix the HMM distance strategy returns: the negated symmetrized
    log-likelihoods of all pairs, when every model is built, every
    assertion holds and there is at least one pair. *)
Definition hmm_dist_matrix (self : HMMCluster) : option (list Q) :=
  hmms ← ok (init_models self);
  condensed ← run_items (_getHMMBatchItems (set_init_hmms hmms self));
  let shifted := map (λ l, (-1 # 1) * l) condensed in
  _ ← ok (py_min_list shifted);
  Some shifted.

(** The same over floats with infinities: the symmetrized log-likelihoods
    of the yielded items, and the matrix the HMM strategy returns. *)
Definition run_items_inf (l : list (result batch_item))
  : option (list pyfloat) :=
  mapM (λ r, ok (r ≫= symDistance_inf)) l.
Definition hmm_dist_matrix_inf (self : HMMCluster) : option (list pyfloat) :=
  hmms ← ok (init_models self);
  condensed ← run_items_inf (_getHMMBatchItems (set_init_hmms hmms self));
  let shifted := map fneg condensed in
  _ ← ok (py_min_list_f shifted);
  Some (map float32 shifted).

(** The groups of observations that become the states of the default
    model of [Ss]: the scalar clusterer is asked for
    [m' = min(target_m, number of distinct observation values)] groups, and
    the states are the groups it returned. *)
Definition state_groups (pair : list Sequence * Z) : list (list (list Q)) :=
  let '(Ss, target_m) := pair in
  let '(merged, distinct) := prepareSeqs Ss in
  let m_prime := Z.min target_m (Z.of_nat (length distinct)) in
  partition merged (k_means merged m_prime).1.2.

(** The initial triple of the default method on [r] states with the
    emissions [B]: uniform transitions and a uniform initial distribution. *)
Definition uniform_triple (B : list Emission) : Triple :=
  let r := length B in
  let u := 1 / inject_Z (Z.of_nat r) in
  (uniformMatrix r r u, B, replicate r u).

(** ** Frames of the methods *)

(** The inputs of a run: the sequences, the configuration and the k
    values. *)
Definition inputs (o : HMMCluster) :=
  (S_ o, n_ o, target_m o, (min_k o, max_k o),
   (dist_func o, hmm_init o, clust_alg o, train_mode o), k_values o).

(** The recorded times other than those of the keys [ks]. *)
Definition times_except (ks : list string) (o : HMMCluster) : gmap string Q :=
  foldr delete (times o) ks.

(** What lies outside the distance stage, the clustering stage and the
    training stage: every attribute but the ones the stage assigns. *)
Definition outside_distance (o : HMMCluster) :=
  (inputs o, dist_matrix o, partitions o, labelings o, components o,
   composites o, times_except ["init_hmms"; "distance_matrix"] o).
Definition outside_clustering (o : HMMCluster) :=
  (inputs o, components o, composites o,
   times_except ["init_hmms"; "distance_matrix"; "clustering"] o).
Definition outside_training (o : HMMCluster) :=
  (inputs o, dist_matrix o, partitions o, labelings o, init_hmms o,
   times_except ["modeling"] o).

(** The maps on the pool, and the work of a run: the maps on the pool and
    the building of the clustering tree. *)
Definition is_pool_map (e : event) : Prop :=
  match e with
  | PoolMap _ _ => True
  | _ => False
  end.
Definition is_work (e : event) : Prop :=
  match e with
  | PoolMap _ _ | TreeCluster => True
  | _ => False
  end.

(** A computation stays within a frame when, whether it returns or raises,
    the part [π] of the object is as before, the clock is the same and has
    not been set back, and the trace has grown by events that satisfy
    [P]. *)
Definition within {X A} (π : HMMCluster → X) (P : event → Prop) (m : M A)
  : Prop :=
  ∀ s : HMMCluster * world,
    π (m s).2.1 = π s.1 ∧
    clock_src (m s).2.2 = clock_src s.2 ∧
    (ticks s.2 ≤ ticks (m s).2.2)%nat ∧
    ∃ evs, trace (m s).2.2 = trace s.2 ++ evs ∧ Forall P evs.

(** A computation is quiet when it leaves the world and the recorded times
    alone: no clock reading, no pool operation. *)
Definition quiet {A} (m : M A) : Prop :=
  ∀ s : HMMCluster * world, (m s).2.2 = s.2 ∧ times (m s).2.1 = times s.1.

(** A computation closes the pool on return only: after some work, the
    pool is closed as the last operation when the computation returns,
    and is not closed when it raises. *)
Definition closes_on_return {A} (m : M A) : Prop :=
  ∀ s : HMMCluster * world,
    ∃ evs, Forall is_work evs ∧
      match m s with
      | (Ok _, s') => trace s'.2 = trace s.2 ++ evs ++ [PoolClose]
      | (Err _, s') => trace s'.2 = trace s.2 ++ evs
      end.

(** What [_kMedoids] stores for [k]: the labels [kmedoids] returned for
    [k] in 10 passes, and the partition by them. *)
Definition kmed_store (dm : list Q) (o : HMMCluster) (k : Z) : HMMCluster :=
  let labels := (kmedoids dm k 10).1.1 in
  set_partitions <[k := partition (S_ o) labels]>
                 (set_labelings <[k := labels]> o).

(** * Properties *)

(** ** The error monad *)

Lemma mapM_Ok_map {A B} (f : A → result B) (g : A → B) (l : list A) :
  (∀ x, x ∈ l → f x = Ok (g x)) → mapM f l = Ok (map g l).
Proof.
  induction l as [|x l IH]; intros Hf; [done|].
  cbn. rewrite (Hf x) by left. cbn.
  rewrite IH; [done|]. intros y Hy. apply Hf. by right.
Qed.

Lemma mapM_Ok_length {A B} (f : A → result B) (l : list A) (k : list B) :
  mapM f l = Ok k → length k = length l.
Proof.
  revert k. induction l as [|x l IH]; intros k; cbn.
  - by intros [= <-].
  - destruct (f x) as [y|]; cbn; [|done].
    destruct (mapM f l) as [k'|]; cbn; [|done].
    intros [= <-]. cbn. f_equal. by apply IH.
Qed.

Lemma mapM_Ok_lookup {A B} (f : A → result B) (l : list A) (k : list B) i x :
  mapM f l = Ok k → l !! i = Some x → ∃ y, k !! i = Some y ∧ f x = Ok y.
Proof.
  revert k i. induction l as [|a l IH]; intros k i; cbn; [done|].
  destruct (f a) as [b|] eqn:Hfa; cbn; [|done].
  destruct (mapM f l) as [k'|]; cbn; [|done].
  intros [= <-]. destruct i as [|i]; cbn.
  - intros [= ->]. eauto.
  - intros Hi. by eapply IH.
Qed.

Lemma mapM_Ok_Forall2 {A B} (f : A → result B) (l : list A) (k : list B) :
  mapM f l = Ok k ↔ Forall2 (λ x y, f x = Ok y) l k.
Proof.
  revert k. induction l as [|x l IH]; intros k; cbn.
  - split; [intros [= <-]; constructor|by inversion 1].
  - split.
    + destruct (f x) as [y|] eqn:Hfx; cbn; [|done].
      destruct (mapM f l) as [k'|]; cbn; [|done].
      intros [= <-]. constructor; [done|]. by apply IH.
    + inversion 1 as [|? y ? k' Hfx Hrest]; subst. rewrite Hfx. cbn.
      apply IH in Hrest. by rewrite Hrest.
Qed.

(** ** Numbers *)

Lemma Qlt_bool_iff (x y : Q) : Qlt_bool x y = true ↔ x < y.
Proof.
  unfold Qlt_bool. rewrite negb_true_iff, <- not_true_iff_false, Qle_bool_iff.
  split; [apply Qnot_le_lt | apply Qlt_not_le].
Qed.

Lemma py_max_ge_r (a b : Q) : b <= py_max a b.
Proof.
  unfold py_max. destruct (Qlt_bool a b) eqn:E; [apply Qle_refl|].
  apply Qnot_lt_le. intros H%Qlt_bool_iff. congruence.
Qed.

Lemma py_max_Qmax (a b : Q) : py_max a b == Qmax a b.
Proof.
  unfold py_max. destruct (Qlt_bool a b) eqn:E.
  - apply Qlt_bool_iff in E. symmetry. apply Q.max_r. by apply Qlt_le_weak.
  - symmetry. apply Q.max_l. apply Qnot_lt_le. intros H%Qlt_bool_iff.
    congruence.
Qed.

Lemma neg_half_sum_eq (a b : Q) : (-1 # 1) * ((a + b) / 2) == - ((a + b) / 2).
Proof. field. Qed.

Lemma neg_half_sum_nonneg (a b : Q) :
  a <= 0 → b <= 0 → 0 <= (-1 # 1) * ((a + b) / 2).
Proof.
  intros Ha Hb.
  assert (H : (-1 # 1) * ((a + b) / 2) == (1 # 2) * (- a - b)) by field.
  rewrite H. lra.
Qed.

(** ** [partition] *)

Lemma group_of_nonempty {A} (tagged : list (Z * A)) (c : Z) :
  c ∈ tagged.*1 → (0 < length (group_of tagged c))%nat.
Proof.
  intros ([c' a] & -> & Hin)%list_elem_of_fmap. unfold group_of.
  rewrite length_fmap.
  assert (Hf : (c', a) ∈ filter (λ p : Z * A, p.1 = (c', a).1) tagged)
    by (apply list_elem_of_filter; done).
  destruct (filter _ tagged); [by apply elem_of_nil in Hf | cbn; lia].
Qed.

Lemma elem_of_label_set (labels : list Z) (c : Z) :
  c ∈ label_set labels ↔ c ∈ labels.
Proof.
  unfold label_set. by rewrite merge_sort_Permutation, elem_of_remove_dups.
Qed.

Lemma NoDup_label_set (labels : list Z) : NoDup (label_set labels).
Proof.
  unfold label_set. rewrite merge_sort_Permutation. apply NoDup_remove_dups.
Qed.

Lemma filter_all {A} (P : A → Prop) `{!∀ x, Decision (P x)} (l : list A) :
  Forall P l → filter P l = l.
Proof.
  induction 1 as [|x l Hx _ IH]; [done|].
  by rewrite filter_cons, decide_True, IH.
Qed.

Lemma filter_none {A} (P : A → Prop) `{!∀ x, Decision (P x)} (l : list A) :
  Forall (λ x, ¬ P x) l → filter P l = [].
Proof.
  induction 1 as [|x l Hx _ IH]; [done|].
  by rewrite filter_cons, decide_False, IH.
Qed.

Lemma filter_label_perm {A} (tagged : list (Z * A)) (c : Z) (cs : list Z) :
  c ∉ cs →
  filter (λ p, p.1 = c) tagged ++ filter (λ p, p.1 ∈ cs) tagged
  ≡ₚ filter (λ p, p.1 ∈ c :: cs) tagged.
Proof.
  intros Hc. induction tagged as [|x l IH]; [done|].
  rewrite !filter_cons.
  destruct (decide (x.1 = c)) as [Hx|Hx].
  - rewrite decide_False by congruence.
    rewrite decide_True by (rewrite Hx; left). cbn. by rewrite IH.
  - destruct (decide (x.1 ∈ cs)) as [Hin|Hin].
    + rewrite decide_True by (by right).
      rewrite <- Permutation_middle. by rewrite IH.
    + rewrite decide_False; [done|].
      intros [?|?]%elem_of_cons; done.
Qed.

Lemma concat_groups_perm {A} (tagged : list (Z * A)) (cs : list Z) :
  NoDup cs →
  concat (group_of tagged <$> cs) ≡ₚ (filter (λ p, p.1 ∈ cs) tagged).*2.
Proof.
  induction 1 as [|c cs Hc _ IH]; cbn [fmap list_fmap concat].
  - rewrite filter_none; [done|]. apply Forall_forall.
    intros x _ Hx. by apply elem_of_nil in Hx.
  - rewrite IH. unfold group_of at 1. rewrite <- fmap_app.
    by rewrite filter_label_perm.
Qed.

(** The groups of a partition hold every item once. *)
Lemma partition_perm {A} (items : list A) (labels : list Z) :
  (length items ≤ length labels)%nat →
  concat (partition items labels) ≡ₚ items.
Proof.
  intros Hlen. unfold partition.
  rewrite concat_groups_perm by apply NoDup_label_set.
  rewrite filter_all.
  - by rewrite snd_zip.
  - apply Forall_forall. intros x Hx. apply elem_of_label_set.
    by apply list_elem_of_fmap_2.
Qed.

(** There is one group per label that occurs. *)
Lemma length_partition {A} (items : list A) (labels : list Z) :
  (length labels ≤ length items)%nat →
  length (partition items labels) = length (label_set labels).
Proof.
  intros Hlen. unfold partition. by rewrite length_fmap, fst_zip.
Qed.

Lemma length_label_set (labels : list Z) (k : Z) :
  (0 ≤ k)%Z → (∀ c, c ∈ labels ↔ (0 ≤ c < k)%Z) →
  Z.of_nat (length (label_set labels)) = k.
Proof.
  intros Hk Hc.
  assert (Hp : label_set labels ≡ₚ seqZ 0 k).
  { apply NoDup_Permutation; [apply NoDup_label_set|apply NoDup_seqZ|].
    intros c. rewrite elem_of_label_set, Hc, elem_of_seqZ. lia. }
  rewrite Hp, length_seqZ. lia.
Qed.

(** Partitioning commutes with mapping the items. *)
Lemma partition_fmap {A B} (f : A → B) (items : list A) (labels : list Z) :
  partition (f <$> items) labels
  = (λ g : list A, f <$> g) <$> partition items labels.
Proof.
  unfold partition.
  assert (Hfst : ∀ (l : list Z) (k : list A),
            (zip l (f <$> k)).*1 = (zip l k).*1).
  { induction l as [|x l IH]; intros [|y k]; cbn; [done..|]. by rewrite IH. }
  assert (Hgrp : ∀ c (l : list Z) (k : list A),
            group_of (zip l (f <$> k)) c = f <$> group_of (zip l k) c).
  { intros c. unfold group_of.
    induction l as [|x l IH]; intros [|y k]; cbn [zip zip_with fmap list_fmap];
      [done..|].
    rewrite !filter_cons. cbn [fst].
    destruct (decide (x = c)); cbn [fmap list_fmap snd]; by rewrite IH. }
  rewrite Hfst, <- list_fmap_compose. apply list_fmap_ext.
  intros _ c _. apply Hgrp.
Qed.

Lemma fmap_lookup_total_seq `{!Inhabited A} (l : list A) :
  (λ i, l !!! i) <$> seq 0 (length l) = l.
Proof.
  apply list_eq. intros i. rewrite list_lookup_fmap.
  destruct (decide (i < length l)%nat) as [Hi|Hi].
  - rewrite lookup_seq_lt by done. cbn.
    symmetry. by apply list_lookup_lookup_total_lt.
  - rewrite lookup_seq_ge, lookup_ge_None_2 by lia. done.
Qed.

(** Every group of a partition is non-empty. *)
Lemma partition_nonempty {A} (items : list A) (labels : list Z) g :
  g ∈ partition items labels → (0 < length g)%nat.
Proof.
  unfold partition. intros (c & -> & Hc)%list_elem_of_fmap.
  apply group_of_nonempty. by apply elem_of_label_set.
Qed.

(** ** The observation preparer *)

Lemma prepareSeqs_eq (Ss : list Sequence) :
  prepareSeqs Ss =
  (map (λ o, [o]) (concat Ss), foldl (λ d o, set_add o d) [] (concat Ss)).
Proof.
  unfold prepareSeqs.
  assert (Hin : ∀ (s : Sequence) m d,
    foldl (λ '(merged, distinct) o, (merged ++ [[o]], set_add o distinct))
          (m, d) s
    = (m ++ map (λ o, [o]) s, foldl (λ d o, set_add o d) d s)).
  { induction s as [|o s IH]; intros m d; cbn.
    - by rewrite app_nil_r.
    - rewrite IH. by rewrite <- app_assoc. }
  assert (Hout : ∀ (l : list Sequence) m d,
    foldl (λ acc s,
             foldl (λ '(merged, distinct) o,
                      (merged ++ [[o]], set_add o distinct)) acc s)
          (m, d) l
    = (m ++ map (λ o, [o]) (concat l),
       foldl (λ d o, set_add o d) d (concat l))).
  { induction l as [|s l IH]; intros m d; cbn.
    - by rewrite app_nil_r.
    - rewrite Hin, IH, map_app, foldl_app. by rewrite <- app_assoc. }
  by rewrite Hout.
Qed.

(** [distinct] holds every observation value, once. *)
Lemma set_add_elem (o x : Q) (d : list Q) :
  (∃ y, y ∈ set_add o d ∧ x == y) ↔ x == o ∨ ∃ y, y ∈ d ∧ x == y.
Proof.
  unfold set_add. destruct (existsb (Qeq_bool o) d) eqn:E.
  - apply existsb_exists in E as (z & Hz%list_elem_of_In & Hoz%Qeq_bool_iff).
    split; [eauto|]. intros [Hx|?]; [|done].
    exists z. split; [done|]. by rewrite Hx.
  - split.
    + intros (y & [Hy|Hy%list_elem_of_singleton]%elem_of_app & Hxy);
        [eauto|subst; eauto].
    + intros [Hx|(y & Hy & Hxy)].
      * exists o. split; [|done]. apply elem_of_app. right. by left.
      * exists y. split; [|done]. apply elem_of_app. by left.
Qed.

Lemma prepareSeqs_distinct (Ss : list Sequence) (x : Q) :
  (∃ y, y ∈ (prepareSeqs Ss).2 ∧ x == y) ↔ (∃ y, y ∈ concat Ss ∧ x == y).
Proof.
  rewrite prepareSeqs_eq. cbn.
  assert (H : ∀ (l d : list Q),
    (∃ y, y ∈ foldl (λ d o, set_add o d) d l ∧ x == y) ↔
    (∃ y, y ∈ d ∧ x == y) ∨ (∃ y, y ∈ l ∧ x == y)).
  { induction l as [|o l IH]; intros d; cbn.
    - split; [eauto|]. intros [?|(y & Hy & _)]; [done|].
      by apply elem_of_nil in Hy.
    - rewrite IH, set_add_elem. split.
      + intros [[Hx|?]|(y & Hy & Hxy)]; eauto.
        * right. exists o. split; [left|done].
        * right. exists y. split; [by right|done].
      + intros [?|(y & [->|Hy]%elem_of_cons & Hxy)]; eauto. }
  rewrite H. split; [|eauto]. intros [(y & Hy & _)|?]; [|done].
  by apply elem_of_nil in Hy.
Qed.

(** ** The default model initializer *)

Lemma uniformMatrix_shape (rows cols : nat) (v : Q) :
  length (uniformMatrix rows cols v) = rows ∧
  Forall (λ row, length row = cols ∧ Forall (λ x, x = v) row)
         (uniformMatrix rows cols v).
Proof.
  unfold uniformMatrix. split; [apply length_replicate|].
  apply Forall_replicate. split; [apply length_replicate|].
  by apply Forall_replicate.
Qed.

Lemma smythEmissionDistribution_Ok (pair : list Sequence * Z) :
  smythEmissionDistribution pair
  = Ok (map (λ c, (mean c, std c)) (state_groups pair)).
Proof.
  destruct pair as [Ss tm]. unfold smythEmissionDistribution, state_groups.
  destruct (prepareSeqs Ss) as [merged distinct].
  destruct (k_means _ _) as [[centroids labels] inertia]. cbn.
  apply mapM_Ok_map. intros c Hc%partition_nonempty.
  by rewrite bool_decide_eq_true_2.
Qed.

Lemma smythDefaultTriple_eq (Ss : list Sequence) (target_m : Z) :
  let B := map (λ c, (mean c, std c)) (state_groups (Ss, target_m)) in
  let trained := hmmToTriple (baumWelch (tripleToHMM (uniform_triple B)) Ss) in
  smythDefaultTriple (Ss, target_m) =
  if decide (length B = 0%nat) then Err ZeroDivisionError
  else Ok (trained.1.1, map (λ b : Emission, (b.1, py_max b.2 EPSILON)) B,
           trained.2).
Proof.
  intros B trained. unfold smythDefaultTriple.
  rewrite smythEmissionDistribution_Ok. fold B. subst trained.
  clearbody B. cbn. unfold py_fdiv, uniform_triple.
  repeat case_decide; try lia; [done|].
  cbn. by destruct (hmmToTriple _) as [[A_p B_p] pi_p].
Qed.

(** C3 (amended). With [m' = min(target_m, number of distinct observation
    values)] asked of the scalar clusterer and [r >= 1] groups returned, the
    initializer hands to training the triple with a uniform r x r transition
    matrix and a uniform initial distribution (every entry 1/r) over the
    clustering-derived emissions, and returns the transition matrix and the
    initial distribution that training exports, with the emission list
    taken from the pre-training pairs, each stddev [s] replaced by
    [max(s, 0.5)]. *)
Theorem smythDefaultTriple_spec (Ss : list Sequence) (target_m : Z) :
  let groups := state_groups (Ss, target_m) in
  let r := length groups in
  let u := 1 / inject_Z (Z.of_nat r) in
  let B := map (λ c, (mean c, std c)) groups in
  let initial := (uniformMatrix r r u, B, replicate r u) in
  let trained := hmmToTriple (baumWelch (tripleToHMM initial) Ss) in
  (0 < r)%nat →
  ∃ B_p,
    smythDefaultTriple (Ss, target_m) = Ok (trained.1.1, B_p, trained.2) ∧
    B_p = map (λ b : Emission, (b.1, py_max b.2 EPSILON)) B ∧
    Forall2 (λ b b_p : Emission, b_p.1 = b.1 ∧ b_p.2 == Qmax b.2 (1 # 2))
            B B_p ∧
    length initial.1.1 = r ∧
    Forall (λ row, length row = r ∧ Forall (λ x, x = u) row) initial.1.1 ∧
    length initial.2 = r ∧ Forall (λ x, x = u) initial.2.
Proof.
  intros groups r u B initial trained Hr.
  eexists. split; [|split; [reflexivity|]].
  - rewrite smythDefaultTriple_eq. fold groups. fold B.
    assert (HB : length B = r) by (unfold B; by rewrite length_map).
    case_decide; [lia|]. unfold uniform_triple. rewrite HB. done.
  - split; [|split; [|split; [|split]]].
    + apply Forall2_fmap_r, Forall_Forall2_diag, Forall_forall.
      intros b _. cbn. split; [done|]. rewrite py_max_Qmax.
      apply Q.max_compat; [reflexivity|]. reflexivity.
    + apply uniformMatrix_shape.
    + apply uniformMatrix_shape.
    + apply length_replicate.
    + by apply Forall_replicate.
Qed.

(** The floor on the default triple's emissions. *)
Lemma smythDefaultTriple_floor (pair : list Sequence * Z) (t : Triple) :
  smythDefaultTriple pair = Ok t → Forall (λ e : Emission, EPSILON <= e.2) t.1.2.
Proof.
  destruct pair as [Ss tm]. rewrite smythDefaultTriple_eq.
  case_decide; [done|]. intros [= <-]. cbn.
  apply Forall_fmap, Forall_forall. intros b _. cbn. apply py_max_ge_r.
Qed.

(** C2 (amended). Every emission standard deviation of the default triple,
    the input of the refinement pass, is at least 0.5; what [trainHMM]
    returns is the triple Baum-Welch exports when refining that floored
    triple on the cluster, and [trainHMM] fails exactly when the
    initialization does. *)
Theorem trainHMM_spec (cluster : list Sequence) (m : Z) :
  match smythDefaultTriple (cluster, m) with
  | Ok t =>
      Forall (λ e : Emission, EPSILON <= e.2) t.1.2 ∧
      trainHMM (cluster, m)
      = Ok (hmmToTriple (baumWelch (tripleToHMM t) cluster))
  | Err e => trainHMM (cluster, m) = Err e
  end.
Proof.
  unfold trainHMM.
  destruct (smythDefaultTriple (cluster, m)) as [t|e] eqn:E; [|done].
  split; [by eapply smythDefaultTriple_floor|done].
Qed.

(** ** The constructor *)

Lemma sanityCheck_Ok (self : HMMCluster) :
  (min_k self ≤ max_k self)%Z →
  dist_func self ∈ ["hmm"; "editdistance"] →
  hmm_init self ∈ ["smyth"; "random"] →
  clust_alg self ∈ ["hierarchical"; "kmedoids"] →
  train_mode self ∈ ["blockdiag"; "cluster"] →
  _sanityCheck self = Ok tt.
Proof.
  intros. unfold _sanityCheck. by rewrite !bool_decide_eq_true_2.
Qed.

Lemma sanityCheck_Err (self : HMMCluster) :
  (max_k self < min_k self)%Z ∨
  dist_func self ∉ ["hmm"; "editdistance"] ∨
  hmm_init self ∉ ["smyth"; "random"] ∨
  clust_alg self ∉ ["hierarchical"; "kmedoids"] ∨
  train_mode self ∉ ["blockdiag"; "cluster"] →
  _sanityCheck self = Err AssertionError.
Proof.
  intros H. unfold _sanityCheck.
  repeat case_bool_decide; cbn; try done.
  exfalso. destruct H as [?|[?|[?|[?|?]]]]; [lia|done..].
Qed.

(** C7. A configuration with [min_k > max_k], or with a distance function,
    initialization, clustering algorithm or training mode outside the
    recognized names, makes the constructor fail with the world as it was:
    no pool has been created and no task submitted. *)
Theorem init_invalid_fails_before_pool
    (Ss : list Sequence) (target_m min_k max_k : Z)
    (dist_func hmm_init clust_alg train_mode : string)
    (n_jobs : option nat) (w : world) :
  (max_k < min_k)%Z ∨
  dist_func ∉ ["hmm"; "editdistance"] ∨
  hmm_init ∉ ["smyth"; "random"] ∨
  clust_alg ∉ ["hierarchical"; "kmedoids"] ∨
  train_mode ∉ ["blockdiag"; "cluster"] →
  __init__ Ss target_m min_k max_k dist_func hmm_init clust_alg train_mode
           n_jobs w = (Err AssertionError, w).
Proof.
  intros H. unfold __init__. by rewrite sanityCheck_Err.
Qed.

(** A valid configuration constructs the object, and the pool after the
    check. *)
Lemma init_valid
    (Ss : list Sequence) (target_m min_k max_k : Z)
    (dist_func hmm_init clust_alg train_mode : string)
    (n_jobs : option nat) (w : world) :
  (min_k ≤ max_k)%Z →
  dist_func ∈ ["hmm"; "editdistance"] →
  hmm_init ∈ ["smyth"; "random"] →
  clust_alg ∈ ["hierarchical"; "kmedoids"] →
  train_mode ∈ ["blockdiag"; "cluster"] →
  __init__ Ss target_m min_k max_k dist_func hmm_init clust_alg train_mode
           n_jobs w =
  (Ok (Self Ss (length Ss) target_m min_k max_k dist_func hmm_init clust_alg
            train_mode ∅ ∅ None ∅ ∅ (xrange min_k (max_k + 1)) [] ∅),
   emit [PoolCreate n_jobs] w).
Proof.
  intros. unfold __init__. by rewrite sanityCheck_Ok.
Qed.

(** ** Successful runs of the monad *)

Lemma succ_ret {A} (a : A) s : succ (mret a) s = Some (a, s).
Proof. done. Qed.

Lemma succ_bind {A B} (m : M A) (f : A → M B) s :
  succ (m ≫= f) s = p ← succ m s; succ (f p.1) p.2.
Proof.
  unfold succ, mbind at 1, M_bind. by destruct (m s) as [[a|e] s'].
Qed.

Lemma succ_get_self s : succ get_self s = Some (s.1, s).
Proof. done. Qed.

Lemma succ_modify f s : succ (modify f) s = Some (tt, (f s.1, s.2)).
Proof. done. Qed.

Lemma succ_lift {A} (r : result A) s : succ (lift r) s = a ← ok r; Some (a, s).
Proof. unfold succ, lift. by destruct r. Qed.

Lemma succ_raise {A} e s : succ (@raise A e) s = None.
Proof. done. Qed.

Lemma succ_clock s :
  succ clock s = Some (clock_src s.2 (ticks s.2), (s.1, tick s.2)).
Proof. done. Qed.

Lemma succ_log e s : succ (log e) s = Some (tt, (s.1, emit [e] s.2)).
Proof. done. Qed.

Lemma succ_pool_map {A B} name (fn : A → result B) items s :
  succ (pool_map name fn items) s =
  l ← ok (mapM fn items);
  Some (l, (s.1, emit [PoolMap name (length items)] s.2)).
Proof.
  unfold succ, pool_map, mbind, M_bind, log, lift. cbn.
  by destruct (mapM fn items).
Qed.

Lemma succ_for {A B} (l : list A) (body : B → A → M B) acc s :
  succ (for_ l body acc) s = for_opt l (λ acc x, succ (body acc x)) acc s.
Proof.
  revert acc s. induction l as [|x l IH]; intros acc s; [done|].
  cbn [for_ for_opt]. rewrite succ_bind.
  destruct (succ (body acc x) s) as [[acc' s']|]; [|done]. cbn. apply IH.
Qed.

Lemma ok_bind {A B} (r : result A) (f : A → result B) :
  ok (r ≫= f) = a ← ok r; ok (f a).
Proof. by destruct r. Qed.

Lemma ok_mapM {A B} (f : A → result B) (l : list A) :
  ok (mapM f l) = mapM (λ x, ok (f x)) l.
Proof.
  induction l as [|x l IH]; [done|]. cbn.
  destruct (f x) as [y|]; cbn; [|done]. rewrite <- IH.
  by destruct (mapM f l).
Qed.

Lemma mapM_option_app {A B} (f : A → option B) (l1 l2 : list A) :
  mapM f (l1 ++ l2) = k1 ← mapM f l1; k2 ← mapM f l2; Some (k1 ++ k2).
Proof.
  induction l1 as [|x l1 IH]; cbn.
  - by destruct (mapM f l2).
  - destruct (f x) as [y|]; cbn; [|done]. rewrite IH.
    destruct (mapM f l1) as [k1|]; cbn; [|done]. by destruct (mapM f l2).
Qed.

(** Forcing the yielded items and then mapping [g] over them succeeds
    exactly when [g] succeeds on every yielded item. *)
Lemma ok_force_then_map {A B} (g : A → result B) (l : list (result A)) :
  ok (mapM id l ≫= mapM g) = mapM (λ r, ok (r ≫= g)) l.
Proof.
  induction l as [|x l IH]; [done|]. cbn.
  destruct x as [a|e]; cbn; [|done].
  destruct (mapM id l) as [k|e]; cbn in *.
  - destruct (g a); cbn; [|done]. rewrite <- IH. by destruct (mapM g k).
  - rewrite <- IH. by destruct (g a).
Qed.

(** ** The pairs of the condensed matrix *)

Lemma elem_of_pair_indices (n i j : nat) :
  (i, j) ∈ pair_indices n ↔ (i < j < n)%nat.
Proof.
  unfold pair_indices. rewrite list_elem_of_In, in_flat_map. split.
  - intros (i' & Hi'%list_elem_of_In & Hj%list_elem_of_In).
    apply list_elem_of_fmap in Hj as (j' & [= -> ->] & Hj').
    apply elem_of_seq in Hj'. lia.
  - intros Hij. exists i. split; apply list_elem_of_In.
    + apply elem_of_seq. lia.
    + apply list_elem_of_fmap. exists j. split; [done|].
      apply elem_of_seq. lia.
Qed.

Lemma length_pair_indices_twice (n : nat) :
  (2 * length (pair_indices n) = n * (n - 1))%nat.
Proof.
  unfold pair_indices.
  assert (H : ∀ m, (m ≤ n)%nat →
    (2 * length (flat_map (λ i, map (pair i) (seq (1 + i) (n - (1 + i))))
                          (seq (n - m) m)) = m * (m - 1))%nat).
  { induction m as [|m IH]; intros Hm; [done|].
    cbn [seq flat_map]. rewrite length_app, length_map, length_seq.
    replace (S (n - S m)) with (n - m)%nat by lia.
    specialize (IH ltac:(lia)).
    replace (n - (1 + (n - S m)))%nat with m by lia.
    destruct m as [|m']; [cbn; lia|]. cbn [Nat.sub] in *. nia. }
  specialize (H n ltac:(lia)). by rewrite Nat.sub_diag in H.
Qed.

(** There are n(n-1)/2 pairs. *)
Lemma length_pair_indices (n : nat) :
  length (pair_indices n) = (n * (n - 1) / 2)%nat.
Proof.
  rewrite <- length_pair_indices_twice, Nat.mul_comm. by rewrite Nat.div_mul.
Qed.

(** [n_batchitems] is the number of pairs. *)
Lemma n_batchitems_eq (n : nat) :
  (Z.of_nat n * (Z.of_nat n + 1) / 2 - Z.of_nat n)%Z
  = Z.of_nat (length (pair_indices n)).
Proof.
  pose proof (length_pair_indices_twice n) as H.
  replace (Z.of_nat n * (Z.of_nat n + 1))%Z
    with (Z.of_nat (length (pair_indices n)) * 2 + Z.of_nat n * 2)%Z by nia.
  rewrite Z.div_add by done. rewrite Z.div_mul by done. lia.
Qed.

Lemma seq_sorted (a m : nat) : StronglySorted lt (seq a m).
Proof.
  revert a. induction m as [|m IH]; intros a; cbn; constructor; [done|].
  apply Forall_forall. intros x Hx%elem_of_seq. lia.
Qed.

(** [pair_indices] lists the pairs in row-major order, each once. *)
Lemma pair_indices_sorted (n : nat) : StronglySorted row_major (pair_indices n).
Proof.
  unfold pair_indices.
  set (f := λ i, map (pair i) (seq (1 + i) (n - (1 + i)))).
  enough (H : ∀ m a, StronglySorted row_major (flat_map f (seq a m)))
    by apply H.
  induction m as [|m IH]; intros a; cbn [seq flat_map]; [constructor|].
  apply StronglySorted_app_2; [| |apply IH].
  - intros [i j] [i' j'] (j0 & [= -> ->] & _)%list_elem_of_fmap Hin.
    apply list_elem_of_In, in_flat_map in Hin as (i0 & Hi0 & Hin).
    apply list_elem_of_In, elem_of_seq in Hi0.
    apply list_elem_of_In, list_elem_of_fmap in Hin as (? & [= -> ->] & _).
    left. cbn. lia.
  - eapply StronglySorted_fmap; [|apply seq_sorted].
    intros x y Hxy. right. cbn. lia.
Qed.

Lemma getHMMBatchItems_eq (self : HMMCluster) :
  _getHMMBatchItems self =
  map (λ '(i, j),
         s_i ← py_index (S_ self) i;
         h_i ← py_index (init_hmms self) i;
         s_j ← py_index (S_ self) j;
         h_j ← py_index (init_hmms self) j;
         mret ((s_i, h_i), (s_j, h_j)))
      (pair_indices (n_ self)).
Proof.
  unfold _getHMMBatchItems, pair_indices.
  induction (seq 0 (n_ self)) as [|i l IH]; [done|].
  cbn [flat_map]. rewrite map_app, IH. f_equal.
  by rewrite map_map.
Qed.

Lemma length_getHMMBatchItems (self : HMMCluster) :
  length (_getHMMBatchItems self) = length (pair_indices (n_ self)).
Proof. by rewrite getHMMBatchItems_eq, length_map. Qed.

(** ** The mini-batch loop *)

Lemma emit_emit evs1 evs2 w : emit evs2 (emit evs1 w) = emit (evs1 ++ evs2) w.
Proof. unfold emit. cbn. by rewrite app_assoc. Qed.

Lemma emit_nil w : emit [] w = w.
Proof. destruct w. unfold emit. cbn. by rewrite app_nil_r. Qed.

Lemma mini_batch_items_eq {A} (items : list A) (bs nb i : Z) :
  (0 < bs)%Z → (0 ≤ i)%Z → Z.of_nat (length items) = nb →
  mini_batch_items items bs nb i
  = take (Z.to_nat bs) (drop (Z.to_nat (bs * i)) items).
Proof.
  intros Hbs Hi Hlen. unfold mini_batch_items.
  assert (0 ≤ bs * i)%Z by nia.
  rewrite Z.mul_add_distr_l, Z.mul_1_r.
  destruct (decide (bs * i + bs ≤ nb)%Z) as [Hle|Hgt].
  - f_equal. lia.
  - rewrite !take_ge; [done|rewrite length_drop; lia..].
Qed.

Lemma mapM_app_Ok {A B} (f : A → result B) (l1 l2 : list A) (k1 : list B) :
  mapM f l1 = Ok k1 →
  mapM f (l1 ++ l2) = k2 ← mapM f l2; mret (k1 ++ k2).
Proof.
  revert k1. induction l1 as [|x l1 IH]; intros k1; cbn.
  - intros [= <-]. by destruct (mapM f l2).
  - destruct (f x) as [y|]; cbn; [|done].
    destruct (mapM f l1) as [k|]; cbn; [|done].
    intros [= <-]. rewrite (IH k eq_refl). by destruct (mapM f l2).
Qed.

Lemma Forall_ok_mapM_id {A} (l : list (result A)) :
  Forall (λ r, is_Some (ok r)) l ↔ ∃ k, mapM id l = Ok k.
Proof.
  induction l as [|[a|e] l IH]; cbn.
  - split; [by eexists|constructor].
  - rewrite Forall_cons, IH. split.
    + intros [_ [k ->]]. by eexists.
    + destruct (mapM id l) as [k|]; cbn; [|by intros [? [=]]].
      intros _. split; by eexists.
  - split; [|by intros [? [=]]].
    intros [[? [=]] _]%Forall_cons.
Qed.

Lemma run_items_Some_yields (l : list (result (_ * _))) (d : list Q) :
  run_items l = Some d → Forall (λ r, is_Some (ok r)) l.
Proof.
  unfold run_items. intros H%mapM_Some.
  induction H as [|r y l d' Hr _ IH]; constructor; [|done].
  destruct r; [by eexists|done].
Qed.

(** Mini batch [i], once the pairs before it have been yielded without an
    exception. *)
Lemma succ_hmm_mini_batch (bs nb : Z) (st : Q) (acc : list Q) (i : Z)
    (self : HMMCluster) (w : world) :
  (0 < bs)%Z → (0 ≤ i)%Z → (bs * i ≤ nb)%Z →
  Z.of_nat (length (_getHMMBatchItems self)) = nb →
  Forall (λ r, is_Some (ok r))
         (take (Z.to_nat (bs * i)) (_getHMMBatchItems self)) →
  let items := mini_batch_items (_getHMMBatchItems self) bs nb i in
  succ (hmm_mini_batch bs nb (st, acc) i) (self, w) =
  ds ← run_items items;
  Some ((inject_Z (bs * i), acc ++ ds),
        (self, emit [PoolMap "symDistance" (length items)] w)).
Proof.
  intros Hbs Hi Hle Hlen Hpre items. unfold hmm_mini_batch.
  rewrite succ_bind, succ_get_self. cbn [mbind option_bind fst snd].
  rewrite succ_bind, succ_lift.
  assert (0 ≤ bs * i)%Z by nia.
  assert (0 ≤ bs * (i + 1))%Z by nia.
  unfold islice. rewrite decide_False by lia.
  set (start := Z.to_nat (bs * i)) in *.
  set (stop := Z.to_nat (Z.min (bs * (i + 1)) nb)).
  assert (Hss : (start ≤ stop)%nat) by (subst start stop; nia).
  replace stop with (start + (stop - start))%nat by lia.
  rewrite <- take_take_drop.
  change (take (stop - start) (drop start (_getHMMBatchItems self)))
    with items.
  apply Forall_ok_mapM_id in Hpre as [pre Hpre].
  rewrite (mapM_app_Ok _ _ _ _ Hpre).
  apply mapM_Ok_length in Hpre. rewrite length_take in Hpre.
  unfold run_items. rewrite <- ok_force_then_map.
  destruct (mapM id items) as [mini_batch|e] eqn:Hforce; [|done].
  cbn [ok mbind mret result_bind result_ret option_bind fst snd].
  rewrite drop_app_length' by lia.
  rewrite succ_bind, succ_pool_map.
  apply mapM_Ok_length in Hforce. rewrite Hforce.
  destruct (mapM symDistance mini_batch) as [ds|e]; [|done].
  done.
Qed.

Lemma succ_mini_batch_loop (bs nb : Z) (self : HMMCluster) :
  (0 < bs)%Z → Z.of_nat (length (_getHMMBatchItems self)) = nb →
  ∀ (cnt : nat) (i0 : Z) (st : Q) (acc : list Q) (w : world),
  (0 ≤ i0)%Z → (i0 + Z.of_nat cnt ≤ nb / bs + 1)%Z →
  Forall (λ r, is_Some (ok r))
         (take (Z.to_nat (bs * i0)) (_getHMMBatchItems self)) →
  succ (for_ (seqZ i0 (Z.of_nat cnt)) (hmm_mini_batch bs nb) (st, acc))
       (self, w) =
  ds ← run_items (take (cnt * Z.to_nat bs)
                       (drop (Z.to_nat (bs * i0)) (_getHMMBatchItems self)));
  Some ((match cnt with
         | O => st
         | S _ => inject_Z (bs * (i0 + Z.of_nat cnt - 1))
         end, acc ++ ds),
        (self,
         emit ((λ i, PoolMap "symDistance"
                  (length (mini_batch_items (_getHMMBatchItems self) bs nb i)))
               <$> seqZ i0 (Z.of_nat cnt)) w)).
Proof.
  intros Hbs Hlen.
  induction cnt as [|cnt IH]; intros i0 st acc w Hi0 Hcnt Hpre.
  - change (seqZ i0 (Z.of_nat 0)) with (@nil Z). rewrite take_0. cbn.
    by rewrite app_nil_r, emit_nil.
  - rewrite seqZ_cons by lia. cbn [for_ fmap list_fmap].
    assert (Hq : (bs * (nb / bs) ≤ nb)%Z) by (apply Z.mul_div_le; lia).
    assert (0 ≤ bs * i0)%Z by nia.
    assert (Hi0nb : (bs * i0 ≤ nb)%Z) by nia.
    rewrite succ_bind, succ_hmm_mini_batch by (try done; lia).
    rewrite mini_batch_items_eq by done.
    replace (S cnt * Z.to_nat bs)%nat
      with (Z.to_nat bs + cnt * Z.to_nat bs)%nat by lia.
    rewrite <- take_take_drop, drop_drop.
    unfold run_items at 2. rewrite mapM_option_app.
    fold (run_items (take (Z.to_nat bs)
                          (drop (Z.to_nat (bs * i0)) (_getHMMBatchItems self)))).
    destruct (run_items (take (Z.to_nat bs) _)) as [d1|] eqn:Hd1; [|done].
    cbn [mbind option_bind fst snd].
    replace (Z.pred (Z.of_nat (S cnt))) with (Z.of_nat cnt) by lia.
    replace (bs * Z.succ i0)%Z with (bs * i0 + bs)%Z by ring.
    rewrite IH; [|lia|lia|].
    2:{ replace (Z.to_nat (bs * Z.succ i0))
          with (Z.to_nat (bs * i0) + Z.to_nat bs)%nat by lia.
        rewrite <- take_take_drop. apply Forall_app. split; [done|].
        by eapply run_items_Some_yields. }
    replace (bs * Z.succ i0)%Z with (bs * i0 + bs)%Z by ring.
    replace (Z.to_nat (bs * i0 + bs))
      with (Z.to_nat (bs * i0) + Z.to_nat bs)%nat by lia.
    fold (run_items (take (cnt * Z.to_nat bs)
            (drop (Z.to_nat (bs * i0) + Z.to_nat bs) (_getHMMBatchItems self)))).
    destruct (run_items (take (cnt * Z.to_nat bs) _)) as [d2|]; [|done].
    cbn [mbind option_bind]. rewrite emit_emit, app_assoc.
    rewrite <- (mini_batch_items_eq (_getHMMBatchItems self) bs nb i0) by done.
    do 3 f_equal.
    destruct cnt; f_equal; lia.
Qed.

(** ** The HMM distance matrix *)

Lemma ok_py_max_list (l : list Q) :
  is_Some (ok (py_min_list l)) → is_Some (ok (py_max_list l)).
Proof. destruct l; [by intros [? [=]]|by eexists]. Qed.

Lemma ok_py_min_list_nonempty (l : list Q) :
  is_Some (ok (py_min_list l)) ↔ l ≠ [].
Proof.
  destruct l; split; try done. by intros [? [=]].
Qed.

Lemma succ_getHMMDistMatrix_with (bs : Z) (self : HMMCluster) (w : world) :
  (0 < bs)%Z →
  succ (_getHMMDistMatrix_with bs) (self, w) =
  hmms ← ok (init_models self);
  let self1 :=
    set_times <["init_hmms" := clock_src w (S (ticks w)) - clock_src w (ticks w)]>
              (set_init_hmms hmms self) in
  let n_batchitems := Z.of_nat (length (_getHMMBatchItems self1)) in
  condensed ← run_items (_getHMMBatchItems self1);
  let shifted := map (λ l, (-1 # 1) * l) condensed in
  _ ← ok (py_min_list shifted);
  Some (shifted,
        (set_times <["distance_matrix" :=
                      clock_src w (S (S (S (ticks w))))
                      - inject_Z (bs * (n_batchitems / bs))]> self1,
         emit (PoolMap (init_fn_name self) (length (S_ self))
               :: mini_batch_events self1 bs)
              (tick (tick (tick (tick w)))))).
Proof.
  intros Hbs. unfold _getHMMDistMatrix_with.
  rewrite succ_bind, succ_get_self. cbn [mbind option_bind fst snd].
  rewrite succ_bind, succ_clock. cbn [mbind option_bind fst snd].
  rewrite succ_bind, succ_lift. unfold init_models, init_fn_name.
  destruct (decide (hmm_init self = "smyth")) as [Hi|Hi];
    [|destruct (decide (hmm_init self = "random")) as [Hr|Hr]; [|done]].
  all: cbn [from_option ok mbind option_bind fst snd].
  all: rewrite succ_bind, succ_pool_map; cbn [fst snd].
  all: match goal with |- context [ok (mapM ?f ?l)] =>
         destruct (mapM f l) as [hmms|e]; [|done] end.
  all: cbn [ok mbind option_bind fst snd].
  all: rewrite succ_bind, succ_modify; cbn [mbind option_bind fst snd].
  all: rewrite succ_bind, succ_clock; cbn [mbind option_bind fst snd].
  all: rewrite succ_bind, succ_modify; cbn [mbind option_bind fst snd].
  all: rewrite succ_bind, succ_clock; cbn [mbind option_bind fst snd].
  all: rewrite succ_bind, succ_lift; unfold py_idiv.
  all: rewrite decide_False by lia; cbn [ok mbind option_bind fst snd].
  all: rewrite succ_bind.
  all: cbn [clock_src ticks trace emit tick]; rewrite length_fmap.
  all: set (self1 := set_times _ (set_init_hmms hmms self)).
  all: change (n_ self) with (n_ self1).
  all: rewrite n_batchitems_eq, <- length_getHMMBatchItems.
  all: set (nb := Z.of_nat (length (_getHMMBatchItems self1))).
  all: assert (Hnb : (0 ≤ nb)%Z) by lia.
  all: assert (Hq : (0 ≤ nb / bs)%Z) by (apply Z.div_pos; lia).
  all: assert (Hcover : (nb < bs * (nb / bs + 1))%Z)
         by (pose proof (Z.mul_succ_div_gt nb bs Hbs); lia).
  all: unfold xrange;
       replace (nb / bs + 1 - 0)%Z with (Z.of_nat (Z.to_nat (nb / bs + 1)))
         by lia.
  all: rewrite (succ_mini_batch_loop bs nb self1 Hbs eq_refl);
         [|lia|lia|by rewrite Z.mul_0_r].
  all: rewrite Z.mul_0_r; change (Z.to_nat 0) with 0%nat; rewrite drop_0.
  all: assert (Hlen : (length (_getHMMBatchItems self1)
                       ≤ Z.to_nat (nb / bs + 1) * Z.to_nat bs)%nat)
         by (apply Nat2Z.inj_le; rewrite Nat2Z.inj_mul, !Z2Nat.id by lia;
             fold nb; lia).
  all: rewrite take_ge by done.
  all: destruct (run_items (_getHMMBatchItems self1)) as [condensed|]; [|done].
  all: cbn [mbind option_bind fst snd app].
  all: rewrite succ_bind, succ_clock; cbn [mbind option_bind fst snd].
  all: rewrite succ_bind, succ_modify; cbn [mbind option_bind fst snd].
  all: rewrite succ_bind, succ_lift.
  all: pose proof (ok_py_max_list (map (λ l, (-1 # 1) * l) condensed)) as Hmax.
  all: destruct (ok (py_min_list _)) as [mn|]; [|done].
  all: cbn [mbind option_bind fst snd].
  all: rewrite succ_bind, succ_lift.
  all: destruct Hmax as [mx ->]; [by eexists|].
  all: cbn [mbind option_bind fst snd]; rewrite succ_ret.
  all: unfold mini_batch_events; fold nb.
  all: replace (Z.to_nat (nb / bs + 1)) with (S (Z.to_nat (nb / bs))) by lia.
  all: replace (0 + Z.of_nat (S (Z.to_nat (nb / bs))) - 1)%Z with (nb / bs)%Z
         by lia.
  all: replace (Z.of_nat (S (Z.to_nat (nb / bs)))) with (nb / bs + 1)%Z by lia.
  all: unfold emit, tick; cbn [clock_src ticks trace].
  all: rewrite <- app_assoc; reflexivity.
Qed.

Lemma succ_getHMMDistMatrix_unchunked (self : HMMCluster) (w : world) :
  succ _getHMMDistMatrix_unchunked (self, w) =
  hmms ← ok (init_models self);
  let self1 :=
    set_times <["init_hmms" := clock_src w (S (ticks w)) - clock_src w (ticks w)]>
              (set_init_hmms hmms self) in
  condensed ← run_items (_getHMMBatchItems self1);
  let shifted := map (λ l, (-1 # 1) * l) condensed in
  _ ← ok (py_min_list shifted);
  Some (shifted,
        (set_times <["distance_matrix" :=
                      clock_src w (S (S (S (ticks w))))
                      - clock_src w (S (S (ticks w)))]> self1,
         emit [PoolMap (init_fn_name self) (length (S_ self));
               PoolMap "symDistance" (length condensed)]
              (tick (tick (tick (tick w)))))).
Proof.
  unfold _getHMMDistMatrix_unchunked.
  rewrite succ_bind, succ_get_self. cbn [mbind option_bind fst snd].
  rewrite succ_bind, succ_clock. cbn [mbind option_bind fst snd].
  rewrite succ_bind, succ_lift. unfold init_models, init_fn_name.
  destruct (decide (hmm_init self = "smyth")) as [Hi|Hi];
    [|destruct (decide (hmm_init self = "random")) as [Hr|Hr]; [|done]].
  all: cbn [from_option ok mbind option_bind fst snd].
  all: rewrite succ_bind, succ_pool_map; cbn [fst snd].
  all: match goal with |- context [ok (mapM ?f ?l)] =>
         destruct (mapM f l) as [hmms|e]; [|done] end.
  all: cbn [ok mbind option_bind fst snd].
  all: rewrite succ_bind, succ_modify; cbn [mbind option_bind fst snd].
  all: rewrite succ_bind, succ_clock; cbn [mbind option_bind fst snd].
  all: rewrite succ_bind, succ_modify; cbn [mbind option_bind fst snd].
  all: rewrite succ_bind, succ_clock; cbn [mbind option_bind fst snd].
  all: rewrite succ_bind, succ_get_self; cbn [mbind option_bind fst snd].
  all: cbn [clock_src ticks trace emit tick]; rewrite length_fmap.
  all: set (self1 := set_times _ (set_init_hmms hmms self)).
  all: rewrite succ_bind, succ_lift.
  all: unfold run_items; rewrite <- ok_force_then_map.
  all: destruct (mapM id (_getHMMBatchItems self1)) as [batch|e] eqn:Hforce;
         [|done].
  all: cbn [ok mbind option_bind result_bind fst snd].
  all: rewrite succ_bind, succ_pool_map; cbn [fst snd].
  all: destruct (mapM symDistance batch) as [condensed|e] eqn:Hds; [|done].
  all: apply mapM_Ok_length in Hds.
  all: cbn [ok mbind option_bind fst snd].
  all: rewrite succ_bind, succ_clock; cbn [mbind option_bind fst snd].
  all: rewrite succ_bind, succ_modify; cbn [mbind option_bind fst snd].
  all: rewrite succ_bind, succ_lift.
  all: pose proof (ok_py_max_list (map (λ l, (-1 # 1) * l) condensed)) as Hmax.
  all: destruct (ok (py_min_list _)) as [mn|]; [|done].
  all: cbn [mbind option_bind fst snd].
  all: rewrite succ_bind, succ_lift.
  all: destruct Hmax as [mx ->]; [by eexists|].
  all: cbn [mbind option_bind fst snd]; rewrite succ_ret.
  all: unfold emit, tick; cbn [clock_src ticks trace].
  all: rewrite <- app_assoc, Hds; reflexivity.
Qed.

(** Both computations return the matrix [hmm_dist_matrix], or raise. *)
Lemma getHMMDistMatrix_with_matrix (bs : Z) (s : HMMCluster * world) :
  (0 < bs)%Z →
  fst <$> succ (_getHMMDistMatrix_with bs) s = hmm_dist_matrix s.1.
Proof.
  intros Hbs. destruct s as [self w]. cbn [fst].
  rewrite succ_getHMMDistMatrix_with by done. unfold hmm_dist_matrix.
  destruct (ok (init_models self)) as [hmms|]; [|done].
  cbn [mbind option_bind fmap option_fmap option_map fst].
  change (_getHMMBatchItems (set_times _ (set_init_hmms hmms self)))
    with (_getHMMBatchItems (set_init_hmms hmms self)).
  destruct (run_items _) as [condensed|]; [|done]. cbn [mbind option_bind].
  by destruct (py_min_list _).
Qed.

Lemma getHMMDistMatrix_unchunked_matrix (s : HMMCluster * world) :
  fst <$> succ _getHMMDistMatrix_unchunked s = hmm_dist_matrix s.1.
Proof.
  destruct s as [self w]. cbn [fst].
  rewrite succ_getHMMDistMatrix_unchunked. unfold hmm_dist_matrix.
  destruct (ok (init_models self)) as [hmms|]; [|done].
  cbn [mbind option_bind fmap option_fmap option_map fst].
  change (_getHMMBatchItems (set_times _ (set_init_hmms hmms self)))
    with (_getHMMBatchItems (set_init_hmms hmms self)).
  destruct (run_items _) as [condensed|]; [|done]. cbn [mbind option_bind].
  by destruct (py_min_list _).
Qed.

(** C6. For every state of the orchestrator and every chunk size, the
    chunked HMM distance computation and the unchunked one either both
    raise or both return the same condensed matrix, entry for entry in the
    same order: the matrix [hmm_dist_matrix] over the row-major pairs. *)
Theorem chunked_eq_unchunked (batch_size : Z) (s : HMMCluster * world) :
  (0 < batch_size)%Z →
  fst <$> succ (_getHMMDistMatrix_with batch_size) s
  = fst <$> succ _getHMMDistMatrix_unchunked s
  ∧ fst <$> succ (_getHMMDistMatrix_with batch_size) s = hmm_dist_matrix s.1.
Proof.
  intros Hbs.
  by rewrite getHMMDistMatrix_with_matrix, getHMMDistMatrix_unchunked_matrix.
Qed.

(** What a successful [symDistance] on the item of the pair [(i, j)]
    says about the pair. *)
Lemma symDistance_item (Ss : list Sequence) (hmms : list (option Triple))
    (i j : nat) (d : Q) :
  ok ((s_i ← py_index Ss i;
       h_i ← py_index hmms i;
       s_j ← py_index Ss j;
       h_j ← py_index hmms j;
       mret ((s_i, h_i), (s_j, h_j))) ≫= symDistance) = Some d →
  ∃ s_i s_j t_i t_j,
    Ss !! i = Some s_i ∧ Ss !! j = Some s_j ∧
    hmms !! i = Some (Some t_i) ∧ hmms !! j = Some (Some t_j) ∧
    loglikelihood (tripleToHMM t_j) s_i <= 0 ∧
    loglikelihood (tripleToHMM t_i) s_j <= 0 ∧
    d = (loglikelihood (tripleToHMM t_j) s_i
         + loglikelihood (tripleToHMM t_i) s_j) / 2.
Proof.
  unfold py_index.
  destruct (Ss !! i) as [s_i|]; cbn; [|done].
  destruct (hmms !! i) as [h_i|]; cbn; [|done].
  destruct (Ss !! j) as [s_j|]; cbn; [|done].
  destruct (hmms !! j) as [h_j|]; cbn; [|done].
  destruct h_i as [t_i|]; cbn; [|done].
  destruct h_j as [t_j|]; cbn; [|done].
  unfold py_assert.
  destruct (Qle_bool (loglikelihood (tripleToHMM t_j) s_i) 0) eqn:H1;
    cbn; [|done].
  destruct (Qle_bool (loglikelihood (tripleToHMM t_i) s_j) 0) eqn:H2;
    cbn; [|done].
  intros [= <-]. apply Qle_bool_iff in H1, H2. by exists s_i, s_j, t_i, t_j.
Qed.

(** The models behind a successful HMM distance matrix. *)
Lemma init_models_smyth (self : HMMCluster) (hmms : list (option Triple)) :
  hmm_init self = "smyth" → init_models self = Ok hmms →
  ∃ models : list Triple,
    hmms = Some <$> models ∧
    Forall2 (λ seq t, smythDefaultTriple ([seq], target_m self) = Ok t)
            (S_ self) models.
Proof.
  intros Hi. unfold init_models. rewrite decide_True by done.
  intros H%mapM_Ok_Forall2. apply Forall2_fmap_l in H.
  induction H as [|seq h Ss hmms Hh _ (models & -> & IH)].
  - by exists [].
  - unfold compose in Hh. cbn beta in Hh.
    destruct (smythDefaultTriple ([seq], target_m self)) as [t|] eqn:Ht;
      [|done].
    injection Hh as <-. exists (t :: models). split; [done|].
    by constructor.
Qed.

Lemma init_models_not_smyth (self : HMMCluster) (hmms : list (option Triple)) :
  hmm_init self ≠ "smyth" → init_models self = Ok hmms →
  Forall (λ h, h = None) hmms.
Proof.
  intros Hi. unfold init_models. rewrite decide_False by done.
  case_decide; [|done]. intros HF%mapM_Ok_Forall2.
  apply Forall2_fmap_l in HF.
  induction HF as [|seq h Ss hmms Hh _ IH]; constructor; [|done].
  unfold compose, randomDefaultTriple in Hh. by injection Hh.
Qed.

Lemma hmm_dist_matrix_entries (self : HMMCluster) (m : list Q) :
  hmm_dist_matrix self = Some m →
  ∃ models : list Triple,
    Forall2 (λ seq t, smythDefaultTriple ([seq], target_m self) = Ok t)
            (S_ self) models ∧
    Forall2 (λ '(i, j) d, ∃ s_i s_j t_i t_j,
       S_ self !! i = Some s_i ∧ S_ self !! j = Some s_j ∧
       models !! i = Some t_i ∧ models !! j = Some t_j ∧
       let L_i_mj := loglikelihood (tripleToHMM t_j) s_i in
       let L_j_mi := loglikelihood (tripleToHMM t_i) s_j in
       L_i_mj <= 0 ∧ L_j_mi <= 0 ∧
       d == - ((L_i_mj + L_j_mi) / 2) ∧ 0 <= d)
      (pair_indices (n_ self)) m.
Proof.
  unfold hmm_dist_matrix.
  destruct (init_models self) as [hmms|] eqn:Hinit;
    cbn [ok mbind option_bind]; [|done].
  destruct (run_items _) as [condensed|] eqn:Hrun;
    cbn [ok mbind option_bind]; [|done].
  destruct (py_min_list _) as [mn|] eqn:Hmin;
    cbn [ok mbind option_bind]; [|done].
  intros [= <-].
  unfold run_items in Hrun. rewrite getHMMBatchItems_eq in Hrun.
  apply mapM_Some in Hrun. apply Forall2_fmap_l in Hrun.
  cbn [S_ n_ init_hmms set_init_hmms] in Hrun.
  destruct (decide (hmm_init self = "smyth")) as [Hi|Hi].
  - destruct (init_models_smyth self hmms Hi Hinit) as (models & -> & Hmod).
    exists models. split; [done|].
    apply Forall2_fmap_r. eapply Forall2_impl; [exact Hrun|].
    intros [i j] d Hd. cbn beta iota in Hd.
    apply symDistance_item
      in Hd as (s_i & s_j & t_i & t_j & Hsi & Hsj & Hti & Htj & H1 & H2 & ->).
    rewrite list_lookup_fmap in Hti, Htj.
    destruct (models !! i) as [t_i'|] eqn:Ei; [|done].
    destruct (models !! j) as [t_j'|] eqn:Ej; [|done].
    injection Hti as ->. injection Htj as ->.
    exists s_i, s_j, t_i, t_j.
    split; [done|]. split; [done|]. split; [done|]. split; [done|].
    split; [done|]. split; [done|].
    split; [apply neg_half_sum_eq|by apply neg_half_sum_nonneg].
  - exfalso. pose proof (init_models_not_smyth self hmms Hi Hinit) as Hnone.
    destruct Hrun as [|[i j] d ps ds Hd _].
    + done.
    + cbn beta iota in Hd.
      apply symDistance_item in Hd as (? & ? & t_i & ? & _ & _ & Hti & _).
      rewrite Forall_forall in Hnone.
      by specialize (Hnone (Some t_i) ltac:(by eapply list_elem_of_lookup_2)).
Qed.

(** The HMM strategy returns a matrix when there are at least two
    sequences, the default model of every sequence is built and every
    cross log-likelihood is <= 0. *)
Lemma hmm_dist_matrix_total (s : HMMCluster * world) (models : list Triple) :
  n_ s.1 = length (S_ s.1) → (2 ≤ n_ s.1)%nat →
  hmm_init s.1 = "smyth" →
  Forall2 (λ seq t, smythDefaultTriple ([seq], target_m s.1) = Ok t)
          (S_ s.1) models →
  (∀ i j s_i t_j, i ≠ j → S_ s.1 !! i = Some s_i → models !! j = Some t_j →
                  loglikelihood (tripleToHMM t_j) s_i <= 0) →
  is_Some (succ _getHMMDistMatrix s).
Proof.
  intros Hn Hn2 Hi Hmod Hll.
  apply (fmap_is_Some fst). unfold _getHMMDistMatrix.
  rewrite getHMMDistMatrix_with_matrix by done.
  destruct s as [self w]. cbn [fst] in *. unfold hmm_dist_matrix.
  assert (Hinit : init_models self = Ok (Some <$> models)).
  { unfold init_models. rewrite decide_True by done.
    apply mapM_Ok_Forall2, Forall2_fmap_l, Forall2_fmap_r.
    eapply Forall2_impl; [exact Hmod|]. intros seq t Ht.
    unfold compose. cbn beta. by rewrite Ht. }
  rewrite Hinit. cbn [ok mbind option_bind].
  pose proof (Forall2_length _ _ _ Hmod) as Hlen.
  assert (Hrun : is_Some (run_items (_getHMMBatchItems
                                       (set_init_hmms (Some <$> models) self)))).
  { unfold run_items. rewrite getHMMBatchItems_eq. apply mapM_is_Some.
    apply Forall_fmap, Forall_forall.
    intros [i j] Hij%elem_of_pair_indices.
    cbn [S_ n_ init_hmms set_init_hmms] in *. unfold compose, py_index.
    destruct (lookup_lt_is_Some_2 (S_ self) i ltac:(lia)) as [s_i Hsi].
    destruct (lookup_lt_is_Some_2 (S_ self) j ltac:(lia)) as [s_j Hsj].
    destruct (lookup_lt_is_Some_2 models i ltac:(lia)) as [t_i Hti].
    destruct (lookup_lt_is_Some_2 models j ltac:(lia)) as [t_j Htj].
    rewrite !list_lookup_fmap, Hsi, Hsj, Hti, Htj. cbn.
    assert (H1 : Qle_bool (loglikelihood (tripleToHMM t_j) s_i) 0 = true)
      by (apply Qle_bool_iff, (Hll i j); [lia|done|done]).
    assert (H2 : Qle_bool (loglikelihood (tripleToHMM t_i) s_j) 0 = true)
      by (apply Qle_bool_iff, (Hll j i); [lia|done|done]).
    rewrite H1, H2. by eexists. }
  destruct Hrun as [condensed Hc]. rewrite Hc. cbn [mbind option_bind].
  unfold run_items in Hc. apply length_mapM in Hc.
  rewrite getHMMBatchItems_eq, length_map in Hc.
  cbn [S_ n_ init_hmms set_init_hmms] in Hc.
  destruct condensed as [|d condensed]; [|by eexists].
  assert (Hin : (0%nat, 1%nat) ∈ pair_indices (n_ self))
    by (apply elem_of_pair_indices; lia).
  destruct (pair_indices (n_ self)); [by apply elem_of_nil in Hin|done].
Qed.


(** The time the HMM strategy records for the distance matrix is the
    clock reading at the end of the stage minus the first index of the
    last mini batch: the loop has rebound [start]. *)
Lemma hmm_distance_time_recorded (o o' : HMMCluster) (w w' : world)
    (m : list Q) :
  succ _getHMMDistMatrix (o, w) = Some (m, (o', w')) →
  times o' !! "distance_matrix"
  = Some (clock_src w (3 + ticks w)
          - inject_Z (500000 * (Z.of_nat (length (pair_indices (n_ o)))
                                / 500000))).
Proof.
  unfold _getHMMDistMatrix. rewrite succ_getHMMDistMatrix_with by done.
  destruct (ok (init_models o)) as [hmms|]; cbn [mbind option_bind]; [|done].
  destruct (run_items _) as [condensed|]; cbn [mbind option_bind]; [|done].
  destruct (ok (py_min_list _)) as [mn|]; cbn [mbind option_bind]; [|done].
  intros [= <- <- <-]. cbn [times set_times].
  rewrite lookup_insert_eq. by rewrite length_getHMMBatchItems.
Qed.

(** ** The edit distance matrix, and the choice of the strategy *)

Lemma succ_getEditDistMatrix (self : HMMCluster) (w : world) :
  succ _getEditDistMatrix (self, w) =
  dist_batch ← mapM (λ '(i, j),
                       s_i ← S_ self !! i; s_j ← S_ self !! j; Some (s_i, s_j))
                    (pair_indices (n_ self));
  Some (map levDistance dist_batch,
        (set_times <["distance_matrix" :=
                      clock_src w (S (ticks w)) - clock_src w (ticks w)]> self,
         emit [PoolMap "levDistance" (length dist_batch)] (tick (tick w)))).
Proof.
  unfold _getEditDistMatrix.
  rewrite succ_bind, succ_get_self. cbn [mbind option_bind fst snd].
  rewrite succ_bind, succ_lift.
  replace (flat_map _ (seq 0 (n_ self)))
    with (map (λ '(i, j),
                 s_i ← py_index (S_ self) i;
                 s_j ← py_index (S_ self) j;
                 mret (s_i, s_j)) (pair_indices (n_ self))).
  2:{ unfold pair_indices.
      induction (seq 0 (n_ self)) as [|i l IH]; [done|].
      cbn [flat_map]. rewrite map_app, IH. f_equal. by rewrite map_map. }
  rewrite ok_mapM.
  replace (mapM (λ x : result (list Q * list Q), ok (id x)) _)
    with (mapM (λ '(i, j),
                  s_i ← S_ self !! i; s_j ← S_ self !! j; Some (s_i, s_j))
               (pair_indices (n_ self))).
  2:{ induction (pair_indices (n_ self)) as [|[i j] l IH]; [done|].
      cbn [mapM map]. rewrite IH. f_equal.
      unfold py_index. by destruct (S_ self !! i), (S_ self !! j). }
  destruct (mapM _ (pair_indices (n_ self))) as [dist_batch|]; [|done].
  cbn [mbind option_bind fst snd].
  rewrite succ_bind, succ_clock. cbn [mbind option_bind fst snd].
  rewrite succ_bind, succ_pool_map.
  rewrite (mapM_Ok_map _ levDistance) by done.
  cbn [ok mbind option_bind fst snd].
  rewrite succ_bind, succ_clock. cbn [mbind option_bind fst snd].
  rewrite succ_bind, succ_modify. cbn [mbind option_bind fst snd].
  rewrite succ_ret. unfold emit, tick. cbn [clock_src ticks trace].
  reflexivity.
Qed.

Lemma succ_getDistMatrix (s : HMMCluster * world) :
  succ _getDistMatrix s =
  if decide (dist_func s.1 = "hmm") then succ _getHMMDistMatrix s
  else if decide (dist_func s.1 = "editdistance") then succ _getEditDistMatrix s
  else None.
Proof.
  unfold _getDistMatrix. rewrite succ_bind, succ_get_self.
  cbn [mbind option_bind fst snd]. by repeat case_decide.
Qed.

(** The edit distance strategy always returns a matrix on an object whose
    [n] is the number of its sequences. *)
Lemma edit_dist_matrix_total (s : HMMCluster * world) :
  n_ s.1 = length (S_ s.1) → dist_func s.1 = "editdistance" →
  is_Some (succ _getDistMatrix s).
Proof.
  intros Hn Hd. rewrite succ_getDistMatrix, Hd.
  rewrite decide_False, decide_True by done.
  destruct s as [self w]. rewrite succ_getEditDistMatrix. cbn [fst] in *.
  assert (Hall : is_Some (mapM (λ '(i, j),
      s_i ← S_ self !! i; s_j ← S_ self !! j; Some (s_i, s_j))
      (pair_indices (n_ self)))).
  { apply mapM_is_Some, Forall_forall.
    intros [i j] Hij%elem_of_pair_indices. cbn.
    destruct (lookup_lt_is_Some_2 (S_ self) i ltac:(lia)) as [s_i ->].
    destruct (lookup_lt_is_Some_2 (S_ self) j ltac:(lia)) as [s_j ->].
    by eexists. }
  destruct Hall as [batch ->]. by eexists.
Qed.

(** Over the rationals: under either distance strategy, a matrix the
    distance stage returns for n sequences has exactly n(n-1)/2 entries,
    one per pair (i, j) with i < j < n, the pairs taken in row-major
    order; every entry is >= 0 (for the edit distance: given that the edit
    distance of two sequences is), and under the edit distance strategy
    the entry of (i, j) is the edit distance of sequences i and j. *)
Lemma dist_matrix_shape_rational (s : HMMCluster * world) (m : list Q) :
  (∀ p, 0 <= levDistance p) →
  fst <$> succ _getDistMatrix s = Some m →
  let n := n_ s.1 in
  length m = (n * (n - 1) / 2)%nat ∧
  StronglySorted row_major (pair_indices n) ∧
  (∀ i j, (i, j) ∈ pair_indices n ↔ (i < j < n)%nat) ∧
  Forall2 (λ '(i, j) d,
             0 <= d ∧
             (dist_func s.1 = "editdistance" →
              ∃ s_i s_j, S_ s.1 !! i = Some s_i ∧ S_ s.1 !! j = Some s_j ∧
                         d = levDistance (s_i, s_j)))
          (pair_indices n) m.
Proof.
  intros Hlev Hm n.
  enough (HF : Forall2 (λ '(i, j) d,
             0 <= d ∧
             (dist_func s.1 = "editdistance" →
              ∃ s_i s_j, S_ s.1 !! i = Some s_i ∧ S_ s.1 !! j = Some s_j ∧
                         d = levDistance (s_i, s_j)))
          (pair_indices n) m).
  { split; [|split; [|split]]; [| |apply elem_of_pair_indices|done].
    - by rewrite <- (Forall2_length _ _ _ HF), length_pair_indices.
    - apply pair_indices_sorted. }
  rewrite succ_getDistMatrix in Hm.
  destruct (decide (dist_func s.1 = "hmm")) as [Hh|Hh].
  - unfold _getHMMDistMatrix in Hm.
    rewrite getHMMDistMatrix_with_matrix in Hm by done.
    apply hmm_dist_matrix_entries in Hm as (models & _ & HF).
    eapply Forall2_impl; [exact HF|].
    intros [i j] d (? & ? & ? & ? & _ & _ & _ & _ & _ & _ & _ & Hd).
    split; [done|]. intros He. rewrite He in Hh. done.
  - destruct (decide (dist_func s.1 = "editdistance")) as [He|He]; [|done].
    destruct s as [self w]. rewrite succ_getEditDistMatrix in Hm.
    cbn [fst] in *.
    destruct (mapM _ (pair_indices (n_ self))) as [batch|] eqn:Hb; [|done].
    injection Hm as <-. apply mapM_Some in Hb.
    apply Forall2_fmap_r. eapply Forall2_impl; [exact Hb|].
    intros [i j] [s_i s_j] Hij. cbn in Hij. split; [apply Hlev|].
    intros _. exists s_i, s_j.
    destruct (S_ self !! i) as [a|]; [|done].
    destruct (S_ self !! j) as [b|]; [|done]. by injection Hij as -> ->.
Qed.

(** ** The distance matrix over floats with infinities *)

Lemma run_items_inf_Some_yields (l : list (result (_ * _))) (d : list pyfloat) :
  run_items_inf l = Some d → Forall (λ r, is_Some (ok r)) l.
Proof.
  unfold run_items_inf. intros H%mapM_Some.
  induction H as [|r y l d' Hr _ IH]; constructor; [|done].
  destruct r; [by eexists|done].
Qed.

(** Mini batch [i] over floats with infinities. *)
Lemma succ_hmm_mini_batch_inf (bs nb : Z) (st : Q) (acc : list pyfloat) (i : Z)
    (self : HMMCluster) (w : world) :
  (0 < bs)%Z → (0 ≤ i)%Z → (bs * i ≤ nb)%Z →
  Z.of_nat (length (_getHMMBatchItems self)) = nb →
  Forall (λ r, is_Some (ok r))
         (take (Z.to_nat (bs * i)) (_getHMMBatchItems self)) →
  let items := mini_batch_items (_getHMMBatchItems self) bs nb i in
  succ (hmm_mini_batch_inf bs nb (st, acc) i) (self, w) =
  ds ← run_items_inf items;
  Some ((inject_Z (bs * i), acc ++ ds),
        (self, emit [PoolMap "symDistance" (length items)] w)).
Proof.
  intros Hbs Hi Hle Hlen Hpre items. unfold hmm_mini_batch_inf.
  rewrite succ_bind, succ_get_self. cbn [mbind option_bind fst snd].
  rewrite succ_bind, succ_lift.
  assert (0 ≤ bs * i)%Z by nia.
  assert (0 ≤ bs * (i + 1))%Z by nia.
  unfold islice. rewrite decide_False by lia.
  set (start := Z.to_nat (bs * i)) in *.
  set (stop := Z.to_nat (Z.min (bs * (i + 1)) nb)).
  assert (Hss : (start ≤ stop)%nat) by (subst start stop; nia).
  replace stop with (start + (stop - start))%nat by lia.
  rewrite <- take_take_drop.
  change (take (stop - start) (drop start (_getHMMBatchItems self)))
    with items.
  apply Forall_ok_mapM_id in Hpre as [pre Hpre].
  rewrite (mapM_app_Ok _ _ _ _ Hpre).
  apply mapM_Ok_length in Hpre. rewrite length_take in Hpre.
  unfold run_items_inf. rewrite <- ok_force_then_map.
  destruct (mapM id items) as [mini_batch|e] eqn:Hforce; [|done].
  cbn [ok mbind mret result_bind result_ret option_bind fst snd].
  rewrite drop_app_length' by lia.
  rewrite succ_bind, succ_pool_map.
  apply mapM_Ok_length in Hforce. rewrite Hforce.
  destruct (mapM symDistance_inf mini_batch) as [ds|e]; [|done].
  done.
Qed.

Lemma succ_mini_batch_loop_inf (bs nb : Z) (self : HMMCluster) :
  (0 < bs)%Z → Z.of_nat (length (_getHMMBatchItems self)) = nb →
  ∀ (cnt : nat) (i0 : Z) (st : Q) (acc : list pyfloat) (w : world),
  (0 ≤ i0)%Z → (i0 + Z.of_nat cnt ≤ nb / bs + 1)%Z →
  Forall (λ r, is_Some (ok r))
         (take (Z.to_nat (bs * i0)) (_getHMMBatchItems self)) →
  succ (for_ (seqZ i0 (Z.of_nat cnt)) (hmm_mini_batch_inf bs nb) (st, acc))
       (self, w) =
  ds ← run_items_inf (take (cnt * Z.to_nat bs)
                       (drop (Z.to_nat (bs * i0)) (_getHMMBatchItems self)));
  Some ((match cnt with
         | O => st
         | S _ => inject_Z (bs * (i0 + Z.of_nat cnt - 1))
         end, acc ++ ds),
        (self,
         emit ((λ i, PoolMap "symDistance"
                  (length (mini_batch_items (_getHMMBatchItems self) bs nb i)))
               <$> seqZ i0 (Z.of_nat cnt)) w)).
Proof.
  intros Hbs Hlen.
  induction cnt as [|cnt IH]; intros i0 st acc w Hi0 Hcnt Hpre.
  - change (seqZ i0 (Z.of_nat 0)) with (@nil Z). rewrite take_0. cbn.
    by rewrite app_nil_r, emit_nil.
  - rewrite seqZ_cons by lia. cbn [for_ fmap list_fmap].
    assert (Hq : (bs * (nb / bs) ≤ nb)%Z) by (apply Z.mul_div_le; lia).
    assert (0 ≤ bs * i0)%Z by nia.
    assert (Hi0nb : (bs * i0 ≤ nb)%Z) by nia.
    rewrite succ_bind, succ_hmm_mini_batch_inf by (try done; lia).
    rewrite mini_batch_items_eq by done.
    replace (S cnt * Z.to_nat bs)%nat
      with (Z.to_nat bs + cnt * Z.to_nat bs)%nat by lia.
    rewrite <- take_take_drop, drop_drop.
    unfold run_items_inf at 2. rewrite mapM_option_app.
    fold (run_items_inf (take (Z.to_nat bs)
                          (drop (Z.to_nat (bs * i0)) (_getHMMBatchItems self)))).
    destruct (run_items_inf (take (Z.to_nat bs) _)) as [d1|] eqn:Hd1; [|done].
    cbn [mbind option_bind fst snd].
    replace (Z.pred (Z.of_nat (S cnt))) with (Z.of_nat cnt) by lia.
    replace (bs * Z.succ i0)%Z with (bs * i0 + bs)%Z by ring.
    rewrite IH; [|lia|lia|].
    2:{ replace (Z.to_nat (bs * Z.succ i0))
          with (Z.to_nat (bs * i0) + Z.to_nat bs)%nat by lia.
        rewrite <- take_take_drop. apply Forall_app. split; [done|].
        by eapply run_items_inf_Some_yields. }
    replace (bs * Z.succ i0)%Z with (bs * i0 + bs)%Z by ring.
    replace (Z.to_nat (bs * i0 + bs))
      with (Z.to_nat (bs * i0) + Z.to_nat bs)%nat by lia.
    fold (run_items_inf (take (cnt * Z.to_nat bs)
            (drop (Z.to_nat (bs * i0) + Z.to_nat bs) (_getHMMBatchItems self)))).
    destruct (run_items_inf (take (cnt * Z.to_nat bs) _)) as [d2|]; [|done].
    cbn [mbind option_bind]. rewrite emit_emit, app_assoc.
    rewrite <- (mini_batch_items_eq (_getHMMBatchItems self) bs nb i0) by done.
    do 3 f_equal.
    destruct cnt; f_equal; lia.
Qed.

Lemma ok_py_max_list_f (l : list pyfloat) :
  is_Some (ok (py_min_list_f l)) → is_Some (ok (py_max_list_f l)).
Proof. destruct l; [by intros [? [=]]|by eexists]. Qed.

Lemma succ_getHMMDistMatrix_inf_with (bs : Z) (self : HMMCluster) (w : world) :
  (0 < bs)%Z →
  succ (_getHMMDistMatrix_inf_with bs) (self, w) =
  hmms ← ok (init_models self);
  let self1 :=
    set_times <["init_hmms" := clock_src w (S (ticks w)) - clock_src w (ticks w)]>
              (set_init_hmms hmms self) in
  let n_batchitems := Z.of_nat (length (_getHMMBatchItems self1)) in
  condensed ← run_items_inf (_getHMMBatchItems self1);
  let shifted := map fneg condensed in
  _ ← ok (py_min_list_f shifted);
  Some (map float32 shifted,
        (set_times <["distance_matrix" :=
                      clock_src w (S (S (S (ticks w))))
                      - inject_Z (bs * (n_batchitems / bs))]> self1,
         emit (PoolMap (init_fn_name self) (length (S_ self))
               :: mini_batch_events self1 bs)
              (tick (tick (tick (tick w)))))).
Proof.
  intros Hbs. unfold _getHMMDistMatrix_inf_with.
  rewrite succ_bind, succ_get_self. cbn [mbind option_bind fst snd].
  rewrite succ_bind, succ_clock. cbn [mbind option_bind fst snd].
  rewrite succ_bind, succ_lift. unfold init_models, init_fn_name.
  destruct (decide (hmm_init self = "smyth")) as [Hi|Hi];
    [|destruct (decide (hmm_init self = "random")) as [Hr|Hr]; [|done]].
  all: cbn [from_option ok mbind option_bind fst snd].
  all: rewrite succ_bind, succ_pool_map; cbn [fst snd].
  all: match goal with |- context [ok (mapM ?f ?l)] =>
         destruct (mapM f l) as [hmms|e]; [|done] end.
  all: cbn [ok mbind option_bind fst snd].
  all: rewrite succ_bind, succ_modify; cbn [mbind option_bind fst snd].
  all: rewrite succ_bind, succ_clock; cbn [mbind option_bind fst snd].
  all: rewrite succ_bind, succ_modify; cbn [mbind option_bind fst snd].
  all: rewrite succ_bind, succ_clock; cbn [mbind option_bind fst snd].
  all: rewrite succ_bind, succ_lift; unfold py_idiv.
  all: rewrite decide_False by lia; cbn [ok mbind option_bind fst snd].
  all: rewrite succ_bind.
  all: cbn [clock_src ticks trace emit tick]; rewrite length_fmap.
  all: set (self1 := set_times _ (set_init_hmms hmms self)).
  all: change (n_ self) with (n_ self1).
  all: rewrite n_batchitems_eq, <- length_getHMMBatchItems.
  all: set (nb := Z.of_nat (length (_getHMMBatchItems self1))).
  all: assert (Hnb : (0 ≤ nb)%Z) by lia.
  all: assert (Hq : (0 ≤ nb / bs)%Z) by (apply Z.div_pos; lia).
  all: assert (Hcover : (nb < bs * (nb / bs + 1))%Z)
         by (pose proof (Z.mul_succ_div_gt nb bs Hbs); lia).
  all: unfold xrange;
       replace (nb / bs + 1 - 0)%Z with (Z.of_nat (Z.to_nat (nb / bs + 1)))
         by lia.
  all: rewrite (succ_mini_batch_loop_inf bs nb self1 Hbs eq_refl);
         [|lia|lia|by rewrite Z.mul_0_r].
  all: rewrite Z.mul_0_r; change (Z.to_nat 0) with 0%nat; rewrite drop_0.
  all: assert (Hlen : (length (_getHMMBatchItems self1)
                       ≤ Z.to_nat (nb / bs + 1) * Z.to_nat bs)%nat)
         by (apply Nat2Z.inj_le; rewrite Nat2Z.inj_mul, !Z2Nat.id by lia;
             fold nb; lia).
  all: rewrite take_ge by done.
  all: destruct (run_items_inf (_getHMMBatchItems self1)) as [condensed|]; [|done].
  all: cbn [mbind option_bind fst snd app].
  all: rewrite succ_bind, succ_clock; cbn [mbind option_bind fst snd].
  all: rewrite succ_bind, succ_modify; cbn [mbind option_bind fst snd].
  all: rewrite succ_bind, succ_lift.
  all: pose proof (ok_py_max_list_f (map fneg condensed)) as Hmax.
  all: destruct (ok (py_min_list_f _)) as [mn|]; [|done].
  all: cbn [mbind option_bind fst snd].
  all: rewrite succ_bind, succ_lift.
  all: destruct Hmax as [mx ->]; [by eexists|].
  all: cbn [mbind option_bind fst snd]; rewrite succ_ret.
  all: unfold mini_batch_events; fold nb.
  all: replace (Z.to_nat (nb / bs + 1)) with (S (Z.to_nat (nb / bs))) by lia.
  all: replace (0 + Z.of_nat (S (Z.to_nat (nb / bs))) - 1)%Z with (nb / bs)%Z
         by lia.
  all: replace (Z.of_nat (S (Z.to_nat (nb / bs)))) with (nb / bs + 1)%Z by lia.
  all: unfold emit, tick; cbn [clock_src ticks trace].
  all: rewrite <- app_assoc; reflexivity.
Qed.

Lemma getHMMDistMatrix_inf_with_matrix (bs : Z) (s : HMMCluster * world) :
  (0 < bs)%Z →
  fst <$> succ (_getHMMDistMatrix_inf_with bs) s = hmm_dist_matrix_inf s.1.
Proof.
  intros Hbs. destruct s as [self w]. cbn [fst].
  rewrite succ_getHMMDistMatrix_inf_with by done. unfold hmm_dist_matrix_inf.
  destruct (ok (init_models self)) as [hmms|]; [|done].
  cbn [mbind option_bind fmap option_fmap option_map fst].
  change (_getHMMBatchItems (set_times _ (set_init_hmms hmms self)))
    with (_getHMMBatchItems (set_init_hmms hmms self)).
  destruct (run_items_inf _) as [condensed|]; [|done]. cbn [mbind option_bind].
  by destruct (py_min_list_f _).
Qed.

(** A log-likelihood that passes the assertion is a rational <= 0 or
    [-inf]. *)
Lemma fle_bool_zero (x : pyfloat) :
  fle_bool x (Fin 0) = true ↔ x = NInf ∨ ∃ a, x = Fin a ∧ a <= 0.
Proof.
  destruct x as [a| | |]; cbn; split; try done.
  - intros H%Qle_bool_iff. right. by exists a.
  - intros [[=]|(b & [= <-] & Hb)]. by apply Qle_bool_iff.
  - by intros [[=]|(? & [=] & _)].
  - by left.
  - by intros [[=]|(? & [=] & _)].
Qed.

Lemma neg_half_sum_inf_nonneg (x y : pyfloat) :
  fle_bool x (Fin 0) = true → fle_bool y (Fin 0) = true →
  fle_bool (Fin 0) (fneg (fhalf (fadd x y))) = true.
Proof.
  intros [->|(a & -> & Ha)]%fle_bool_zero [->|(b & -> & Hb)]%fle_bool_zero;
    cbn; try done.
  apply Qle_bool_iff. by apply neg_half_sum_nonneg.
Qed.

Lemma neg_half_sum_inf_infinite (x y : pyfloat) :
  fle_bool x (Fin 0) = true → fle_bool y (Fin 0) = true →
  x = NInf ∨ y = NInf → fneg (fhalf (fadd x y)) = PInf.
Proof.
  intros [->|(a & -> & Ha)]%fle_bool_zero [->|(b & -> & Hb)]%fle_bool_zero;
    cbn; try done.
  by intros [[=]|[=]].
Qed.

Lemma symDistance_inf_item (Ss : list Sequence) (hmms : list (option Triple))
    (i j : nat) (d : pyfloat) :
  ok ((s_i ← py_index Ss i;
       h_i ← py_index hmms i;
       s_j ← py_index Ss j;
       h_j ← py_index hmms j;
       mret ((s_i, h_i), (s_j, h_j))) ≫= symDistance_inf) = Some d →
  ∃ s_i s_j t_i t_j,
    Ss !! i = Some s_i ∧ Ss !! j = Some s_j ∧
    hmms !! i = Some (Some t_i) ∧ hmms !! j = Some (Some t_j) ∧
    fle_bool (loglikelihood_inf (tripleToHMM t_j) s_i) (Fin 0) = true ∧
    fle_bool (loglikelihood_inf (tripleToHMM t_i) s_j) (Fin 0) = true ∧
    d = fhalf (fadd (loglikelihood_inf (tripleToHMM t_j) s_i)
                    (loglikelihood_inf (tripleToHMM t_i) s_j)).
Proof.
  unfold py_index.
  destruct (Ss !! i) as [s_i|]; cbn; [|done].
  destruct (hmms !! i) as [h_i|]; cbn; [|done].
  destruct (Ss !! j) as [s_j|]; cbn; [|done].
  destruct (hmms !! j) as [h_j|]; cbn; [|done].
  destruct h_i as [t_i|]; cbn; [|done].
  destruct h_j as [t_j|]; cbn; [|done].
  unfold py_assert.
  destruct (fle_bool (loglikelihood_inf (tripleToHMM t_j) s_i) (Fin 0)) eqn:H1;
    cbn; [|done].
  destruct (fle_bool (loglikelihood_inf (tripleToHMM t_i) s_j) (Fin 0)) eqn:H2;
    cbn; [|done].
  intros [= <-]. by exists s_i, s_j, t_i, t_j.
Qed.

(** The entries of a matrix the HMM strategy returns, over floats with
    infinities. *)
Lemma hmm_dist_matrix_inf_entries (self : HMMCluster) (m : list pyfloat) :
  hmm_dist_matrix_inf self = Some m →
  Forall2 (λ '(i, j) d, ∃ s_i s_j t_i t_j,
     S_ self !! i = Some s_i ∧ S_ self !! j = Some s_j ∧
     smythDefaultTriple ([s_i], target_m self) = Ok t_i ∧
     smythDefaultTriple ([s_j], target_m self) = Ok t_j ∧
     let L_i_mj := loglikelihood_inf (tripleToHMM t_j) s_i in
     let L_j_mi := loglikelihood_inf (tripleToHMM t_i) s_j in
     fle_bool L_i_mj (Fin 0) = true ∧ fle_bool L_j_mi (Fin 0) = true ∧
     d = float32 (fneg (fhalf (fadd L_i_mj L_j_mi))))
    (pair_indices (n_ self)) m.
Proof.
  unfold hmm_dist_matrix_inf.
  destruct (init_models self) as [hmms|] eqn:Hinit;
    cbn [ok mbind option_bind]; [|done].
  destruct (run_items_inf _) as [condensed|] eqn:Hrun;
    cbn [ok mbind option_bind]; [|done].
  destruct (py_min_list_f _) as [mn|] eqn:Hmin;
    cbn [ok mbind option_bind]; [|done].
  intros [= <-].
  unfold run_items_inf in Hrun. rewrite getHMMBatchItems_eq in Hrun.
  apply mapM_Some in Hrun. apply Forall2_fmap_l in Hrun.
  cbn [S_ n_ init_hmms set_init_hmms] in Hrun.
  destruct (decide (hmm_init self = "smyth")) as [Hi|Hi].
  - destruct (init_models_smyth self hmms Hi Hinit) as (models & -> & Hmod).
    rewrite <- !list_fmap_compose.
    apply Forall2_fmap_r. eapply Forall2_impl; [exact Hrun|].
    intros [i j] d Hd. cbn beta iota in Hd.
    apply symDistance_inf_item
      in Hd as (s_i & s_j & t_i & t_j & Hsi & Hsj & Hti & Htj & H1 & H2 & ->).
    rewrite list_lookup_fmap in Hti, Htj.
    destruct (models !! i) as [t_i'|] eqn:Ei; [|done].
    destruct (models !! j) as [t_j'|] eqn:Ej; [|done].
    injection Hti as ->. injection Htj as ->.
    exists s_i, s_j, t_i, t_j.
    split; [done|]. split; [done|].
    split; [exact (Forall2_lookup_lr _ _ _ _ _ _ Hmod Hsi Ei)|].
    split; [exact (Forall2_lookup_lr _ _ _ _ _ _ Hmod Hsj Ej)|].
    done.
  - exfalso. pose proof (init_models_not_smyth self hmms Hi Hinit) as Hnone.
    destruct Hrun as [|[i j] d ps ds Hd _].
    + done.
    + cbn beta iota in Hd.
      apply symDistance_inf_item in Hd as (? & ? & t_i & ? & _ & _ & Hti & _).
      rewrite Forall_forall in Hnone.
      by specialize (Hnone (Some t_i) ltac:(by eapply list_elem_of_lookup_2)).
Qed.

(** Where every log-likelihood is a rational, the matrix over floats with
    infinities is the cast of the matrix over the rationals. *)
Lemma hmm_dist_matrix_inf_rational (self : HMMCluster) :
  (∀ h seq, loglikelihood_inf h seq = Fin (loglikelihood h seq)) →
  hmm_dist_matrix_inf self
  = map (λ d, float32 (Fin d)) <$> hmm_dist_matrix self.
Proof.
  intros HL. unfold hmm_dist_matrix_inf, hmm_dist_matrix.
  destruct (ok (init_models self)) as [hmms|]; cbn [mbind option_bind fmap
    option_fmap option_map]; [|done].
  assert (Hsym : ∀ r : result batch_item,
            ok (r ≫= symDistance_inf) = Fin <$> ok (r ≫= symDistance)).
  { intros [[[seq1 [t1|]] [seq2 [t2|]]]|e]; cbn; try done.
    rewrite !HL. cbn. unfold py_assert.
    by destruct (Qle_bool (loglikelihood (tripleToHMM t2) seq1) 0),
                (Qle_bool (loglikelihood (tripleToHMM t1) seq2) 0). }
  assert (Hrun : ∀ l, run_items_inf l = map Fin <$> run_items l).
  { unfold run_items_inf, run_items. induction l as [|r l IH]; [done|].
    cbn [mapM]. rewrite Hsym, IH.
    destruct (ok (r ≫= symDistance)) as [d|]; [|done].
    by destruct (mapM (λ r, ok (r ≫= symDistance)) l). }
  rewrite Hrun.
  destruct (run_items _) as [condensed|]; cbn [mbind option_bind fmap
    option_fmap option_map]; [|done].
  destruct condensed as [|d condensed]; [done|]. cbn [map py_min_list_f
    py_min_list ok mbind option_bind fmap option_fmap option_map].
  f_equal. cbn [fneg]. f_equal.
  induction condensed as [|d' condensed IH]; [done|]. cbn. by rewrite IH.
Qed.

Lemma succ_getDistMatrix_inf (s : HMMCluster * world) :
  succ _getDistMatrix_inf s =
  if decide (dist_func s.1 = "hmm") then succ _getHMMDistMatrix_inf s
  else if decide (dist_func s.1 = "editdistance")
  then p ← succ _getEditDistMatrix s; Some (map Fin p.1, p.2)
  else None.
Proof.
  unfold _getDistMatrix_inf. rewrite succ_bind, succ_get_self.
  cbn [mbind option_bind fst snd]. repeat case_decide; [done| |done].
  rewrite succ_bind.
  by destruct (succ _getEditDistMatrix s) as [[condensed s']|].
Qed.

(** C5 (amended). Under either distance strategy, a matrix the distance
    stage returns for n sequences has exactly n(n-1)/2 entries, one per
    pair (i, j) with i < j < n, the pairs taken in row-major order, and
    every entry is >= 0 (for the edit distance: given that the edit
    distance of two sequences is; for the HMM distance: given that the
    cast to float32 keeps a value that is >= 0 so). The entries need not
    be finite. Under the HMM strategy the entry of (i, j) is the float32
    cast of -(L(i under model_j) + L(j under model_i))/2, the two
    log-likelihoods having passed the assertion of being <= 0, which
    [-inf] passes: where one of them is [-inf] the entry is [+inf]. Under
    the edit distance strategy the entry of (i, j) is the edit distance of
    sequences i and j, a finite number. *)
Theorem dist_matrix_shape (s : HMMCluster * world) (m : list pyfloat) :
  (∀ p, 0 <= levDistance p) →
  (∀ x, fle_bool (Fin 0) x = true → fle_bool (Fin 0) (float32 x) = true) →
  float32 PInf = PInf →
  fst <$> succ _getDistMatrix_inf s = Some m →
  let n := n_ s.1 in
  length m = (n * (n - 1) / 2)%nat ∧
  StronglySorted row_major (pair_indices n) ∧
  (∀ i j, (i, j) ∈ pair_indices n ↔ (i < j < n)%nat) ∧
  Forall2 (λ '(i, j) d,
     fle_bool (Fin 0) d = true ∧
     (dist_func s.1 = "editdistance" →
      ∃ s_i s_j, S_ s.1 !! i = Some s_i ∧ S_ s.1 !! j = Some s_j ∧
                 d = Fin (levDistance (s_i, s_j)) ∧ is_finite d) ∧
     (dist_func s.1 = "hmm" →
      ∃ s_i s_j t_i t_j,
        S_ s.1 !! i = Some s_i ∧ S_ s.1 !! j = Some s_j ∧
        smythDefaultTriple ([s_i], target_m s.1) = Ok t_i ∧
        smythDefaultTriple ([s_j], target_m s.1) = Ok t_j ∧
        let L_i_mj := loglikelihood_inf (tripleToHMM t_j) s_i in
        let L_j_mi := loglikelihood_inf (tripleToHMM t_i) s_j in
        fle_bool L_i_mj (Fin 0) = true ∧ fle_bool L_j_mi (Fin 0) = true ∧
        d = float32 (fneg (fhalf (fadd L_i_mj L_j_mi))) ∧
        (L_i_mj = NInf ∨ L_j_mi = NInf → d = PInf)))
    (pair_indices n) m.
Proof.
  intros Hlev Hcast Hinf Hm n.
  match goal with
  | |- _ ∧ _ ∧ _ ∧ Forall2 ?P _ _ =>
      enough (HF : Forall2 P (pair_indices n) m)
  end.
  { split; [|split; [|split]]; [| |apply elem_of_pair_indices|done].
    - by rewrite <- (Forall2_length _ _ _ HF), length_pair_indices.
    - apply pair_indices_sorted. }
  rewrite succ_getDistMatrix_inf in Hm.
  destruct (decide (dist_func s.1 = "hmm")) as [Hh|Hh].
  - unfold _getHMMDistMatrix_inf in Hm.
    rewrite getHMMDistMatrix_inf_with_matrix in Hm by done.
    apply hmm_dist_matrix_inf_entries in Hm.
    eapply Forall2_impl; [exact Hm|].
    intros [i j] d (s_i & s_j & t_i & t_j & Hsi & Hsj & Hti & Htj & H1 & H2 & ->).
    split; [by apply Hcast, neg_half_sum_inf_nonneg|].
    split; [intros He; by rewrite He in Hh|]. intros _.
    exists s_i, s_j, t_i, t_j.
    split; [done|]. split; [done|]. split; [done|]. split; [done|].
    split; [done|]. split; [done|]. split; [done|].
    intros Hn. by rewrite neg_half_sum_inf_infinite.
  - destruct (decide (dist_func s.1 = "editdistance")) as [He|He]; [|done].
    destruct s as [self w]. rewrite succ_getEditDistMatrix in Hm.
    cbn [fst] in *.
    destruct (mapM _ (pair_indices (n_ self))) as [batch|] eqn:Hb; [|done].
    injection Hm as <-. apply mapM_Some in Hb.
    cbn [fst]. change (map Fin (map levDistance batch))
      with (Fin <$> (levDistance <$> batch)).
    rewrite <- list_fmap_compose.
    apply Forall2_fmap_r. eapply Forall2_impl; [exact Hb|].
    intros [i j] [s_i s_j] Hij. cbn in Hij.
    split; [apply Qle_bool_iff, Hlev|].
    split; [|intros Hhmm; by rewrite Hhmm in Hh].
    intros _. exists s_i, s_j.
    destruct (S_ self !! i) as [a|]; [|done].
    destruct (S_ self !! j) as [b|]; [|done]. by injection Hij as -> ->.
Qed.


(** ** Reassembling the trained components *)

Lemma set_components_id (o : HMMCluster) (k : Z) (c : component) :
  components o !! k = Some c → set_components <[k := c]> o = o.
Proof.
  intros H. destruct o. unfold set_components. cbn in *.
  by rewrite insert_id.
Qed.

Lemma comp_extend_nil (c : component) : comp_extend c [] = c.
Proof. destruct c. unfold comp_extend. cbn. by rewrite !app_nil_r. Qed.

Lemma comp_extend_app (c : component) rows1 rows2 :
  comp_extend (comp_extend c rows1) rows2 = comp_extend c (rows1 ++ rows2).
Proof.
  unfold comp_extend. cbn. rewrite !fmap_app. by rewrite !app_assoc.
Qed.

Lemma succ_components_append (k : Z) upd (o : HMMCluster) (w : world) c :
  components o !! k = Some c →
  succ (components_append k upd) (o, w)
  = Some (tt, (set_components <[k := upd c]> o, w)).
Proof.
  intros H. unfold components_append.
  rewrite succ_bind, succ_get_self. cbn [mbind option_bind fst snd].
  rewrite succ_bind, succ_lift. unfold dict_get. rewrite H.
  cbn [from_option ok mbind option_bind fst snd]. by rewrite succ_modify.
Qed.

Lemma succ_reassemble_cluster (rows : list (Triple * nat * list nat))
    (k : Z) (idx : nat) (i : Z) (o : HMMCluster) (w : world) r c :
  rows !! idx = Some r → components o !! k = Some c →
  succ (reassemble_cluster rows.*1.*2 rows.*2 rows.*1.*1 k idx i) (o, w)
  = Some ((idx + 1)%nat, (set_components <[k := comp_extend c [r]]> o, w)).
Proof.
  intros Hr Hc. unfold reassemble_cluster, py_index.
  rewrite !list_lookup_fmap, Hr. cbn [fmap option_fmap option_map from_option].
  rewrite succ_bind, succ_lift. cbn [ok mbind option_bind fst snd].
  rewrite succ_bind, succ_lift. cbn [ok mbind option_bind fst snd].
  rewrite succ_bind, succ_lift. cbn [ok mbind option_bind fst snd].
  rewrite succ_bind, (succ_components_append _ _ _ _ c) by done.
  cbn [mbind option_bind fst snd].
  rewrite succ_bind. erewrite succ_components_append
    by (cbn [components set_components]; apply lookup_insert_eq).
  cbn [mbind option_bind fst snd].
  rewrite succ_bind. erewrite succ_components_append
    by (cbn [components set_components]; apply lookup_insert_eq).
  cbn [mbind option_bind fst snd]. rewrite succ_ret.
  unfold set_components. cbn [S_ n_ target_m min_k max_k dist_func hmm_init
    clust_alg train_mode components composites dist_matrix partitions
    labelings k_values init_hmms times].
  rewrite !insert_insert_eq. reflexivity.
Qed.

Lemma succ_reassemble_clusters (rows : list (Triple * nat * list nat))
    (k : Z) (cnt : nat) :
  ∀ (i0 : Z) (idx : nat) (o : HMMCluster) (w : world) c,
  (idx + cnt ≤ length rows)%nat → components o !! k = Some c →
  succ (for_ (seqZ i0 (Z.of_nat cnt))
             (reassemble_cluster rows.*1.*2 rows.*2 rows.*1.*1 k) idx) (o, w)
  = Some ((idx + cnt)%nat,
          (set_components <[k := comp_extend c (take cnt (drop idx rows))]> o,
           w)).
Proof.
  induction cnt as [|cnt IH]; intros i0 idx o w c Hlen Hc.
  - change (seqZ i0 (Z.of_nat 0)) with (@nil Z). rewrite take_0. cbn [for_].
    rewrite succ_ret, comp_extend_nil, set_components_id by done.
    by rewrite Nat.add_0_r.
  - rewrite seqZ_cons by lia. cbn [for_].
    destruct (lookup_lt_is_Some_2 rows idx ltac:(lia)) as [r Hr].
    rewrite succ_bind, (succ_reassemble_cluster _ _ _ _ _ _ r c) by done.
    cbn [mbind option_bind fst snd].
    replace (Z.pred (Z.of_nat (S cnt))) with (Z.of_nat cnt) by lia.
    erewrite IH;
      [|lia|cbn [components set_components]; apply lookup_insert_eq].
    rewrite comp_extend_app. rewrite (drop_S _ _ _ Hr). cbn [take app].
    replace (idx + 1)%nat with (S idx) by lia.
    unfold set_components. cbn [S_ n_ target_m min_k max_k dist_func hmm_init
      clust_alg train_mode components composites dist_matrix partitions
      labelings k_values init_hmms times].
    rewrite insert_insert_eq. do 2 f_equal. lia.
Qed.

Lemma succ_reassemble_k (rows pre blk post : list (Triple * nat * list nat))
    (k : Z) (o : HMMCluster) (w : world) :
  rows = pre ++ blk ++ post → Z.of_nat (length blk) = k →
  components o !! k = Some (Component [] [] []) →
  succ (reassemble_k rows.*1.*2 rows.*2 rows.*1.*1 (length pre) k) (o, w)
  = Some ((length pre + length blk)%nat, (store_k o k blk, w)).
Proof.
  intros -> <- Hc. unfold reassemble_k, xrange.
  rewrite succ_bind. rewrite Z.sub_0_r.
  rewrite (succ_reassemble_clusters _ _ _ _ _ _ _ (Component [] [] []));
    [|rewrite !length_app; lia|done].
  cbn [mbind option_bind fst snd].
  rewrite succ_bind, succ_get_self. cbn [mbind option_bind fst snd].
  rewrite succ_bind, succ_lift. unfold dict_get.
  cbn [components set_components]. rewrite lookup_insert_eq.
  cbn [from_option ok mbind option_bind fst snd].
  rewrite succ_bind, succ_modify. cbn [mbind option_bind fst snd].
  rewrite succ_ret. rewrite drop_app_length, take_app_length.
  reflexivity.
Qed.

Lemma store_k_components_ne (o : HMMCluster) (k k' : Z) rows :
  k ≠ k' → components (store_k o k rows) !! k' = components o !! k'.
Proof. intros Hne. cbn. by rewrite lookup_insert_ne. Qed.

Lemma store_fold_components_notin (l : list (Z * list (Triple * nat * list nat)))
    (o : HMMCluster) (k : Z) :
  k ∉ l.*1 →
  components (foldl (λ o kb, store_k o kb.1 kb.2) o l) !! k
  = components o !! k.
Proof.
  revert o. induction l as [|[k0 b0] l IH]; intros o Hk; [done|].
  cbn in Hk. apply not_elem_of_cons in Hk as [Hne Hk].
  cbn [foldl fst snd]. rewrite IH by done.
  by apply store_k_components_ne.
Qed.

(** After the reassembly, the component of [k] is built from the rows of
    the clusters of [k]. *)
Lemma store_fold_components (l : list (Z * list (Triple * nat * list nat)))
    (o : HMMCluster) (k : Z) rows :
  NoDup l.*1 → (k, rows) ∈ l →
  components (foldl (λ o kb, store_k o kb.1 kb.2) o l) !! k
  = Some (comp_of rows).
Proof.
  revert o. induction l as [|[k0 b0] l IH]; intros o Hnd Hin.
  - by apply elem_of_nil in Hin.
  - cbn [foldl fst snd]. apply NoDup_cons in Hnd as [Hk0 Hnd].
    apply elem_of_cons in Hin as [[= -> ->]|Hin].
    + rewrite store_fold_components_notin by done. cbn.
      apply lookup_insert_eq.
    + by apply IH.
Qed.

Lemma succ_reassemble_ks (rows : list (Triple * nat * list nat))
    (ks : list Z) (blocks : list (list (Triple * nat * list nat))) :
  Forall2 (λ k blk, Z.of_nat (length blk) = k) ks blocks →
  ∀ (pre : list (Triple * nat * list nat)) (o : HMMCluster) (w : world),
  NoDup ks → rows = pre ++ concat blocks →
  (∀ k, k ∈ ks → components o !! k = Some (Component [] [] [])) →
  succ (for_ ks (reassemble_k rows.*1.*2 rows.*2 rows.*1.*1) (length pre))
       (o, w)
  = Some (length rows,
          (foldl (λ o kb, store_k o kb.1 kb.2) o (zip ks blocks), w)).
Proof.
  induction 1 as [|k blk ks blocks Hk HF IH]; intros pre o w Hnd Hrows Hc.
  - cbn in *. rewrite app_nil_r in Hrows. by subst.
  - cbn [for_ zip zip_with foldl fst snd concat] in *.
    apply NoDup_cons in Hnd as [Hk0 Hnd].
    rewrite succ_bind.
    rewrite (succ_reassemble_k rows pre blk (concat blocks) k o w)
      by (try done; apply Hc; left).
    cbn [mbind option_bind fst snd]. rewrite <- length_app.
    apply IH; [done|by rewrite <- app_assoc|].
    intros k' Hk'. rewrite store_k_components_ne by set_solver.
    apply Hc. by right.
Qed.

Lemma succ_batch_clusters (tm : Z) (part : list (list Sequence)) :
  ∀ b cs sl s,
  succ (for_ part (batch_cluster tm) (b, cs, sl)) s
  = Some ((b ++ map (λ c, (c, tm)) part, cs ++ map length part,
           sl ++ map (map length) part), s).
Proof.
  induction part as [|c part IH]; intros b cs sl s.
  - cbn. by rewrite !app_nil_r.
  - cbn [for_ map]. rewrite succ_bind.
    change (succ (batch_cluster tm (b, cs, sl) c) s)
      with (Some ((b ++ [(c, tm)], cs ++ [length c], sl ++ [map length c]), s)).
    cbn [mbind option_bind fst snd].
    rewrite IH. by rewrite <- !app_assoc.
Qed.

Lemma succ_batch_k (k : Z) b cs sl (o : HMMCluster) (w : world) :
  succ (batch_k (b, cs, sl) k) (o, w)
  = part ← partitions o !! k;
    Some ((b ++ map (λ c, (c, target_m o)) part, cs ++ map length part,
           sl ++ map (map length) part), (o, w)).
Proof.
  unfold batch_k.
  rewrite succ_bind, succ_get_self. cbn [mbind option_bind fst snd].
  rewrite succ_bind, succ_lift. unfold dict_get.
  destruct (partitions o !! k) as [part|];
    cbn [from_option ok mbind option_bind fst snd]; [|done].
  apply succ_batch_clusters.
Qed.

Lemma succ_batch_ks (ks : list Z) :
  ∀ b cs sl (o : HMMCluster) (w : world),
  succ (for_ ks batch_k (b, cs, sl)) (o, w)
  = parts ← mapM (λ k, partitions o !! k) ks;
    Some ((b ++ map (λ c, (c, target_m o)) (concat parts),
           cs ++ map length (concat parts),
           sl ++ map (map length) (concat parts)), (o, w)).
Proof.
  induction ks as [|k ks IH]; intros b cs sl o w.
  - cbn. by rewrite !app_nil_r.
  - cbn [for_ mapM]. rewrite succ_bind, succ_batch_k.
    destruct (partitions o !! k) as [part|];
      cbn [mbind option_bind fst snd]; [|done].
    rewrite IH. destruct (mapM _ ks) as [parts|]; [|done].
    cbn [mbind option_bind mret option_ret concat].
    by rewrite !map_app, <- !app_assoc.
Qed.

Lemma succ_reset_components (ks : list Z) (o : HMMCluster) (w : world) :
  succ (for_ ks (λ _ k, modify (set_components <[k := Component [] [] []]>))
             tt) (o, w)
  = Some (tt, (set_components (reset_components ks) o, w)).
Proof.
  revert o. induction ks as [|k ks IH]; intros o.
  - cbn. by destruct o.
  - cbn [for_]. rewrite succ_bind, succ_modify.
    cbn [mbind option_bind fst snd]. by rewrite IH.
Qed.

Lemma reset_components_lookup (ks : list Z) (m : gmap Z component) (k : Z) :
  k ∈ ks → reset_components ks m !! k = Some (Component [] [] []).
Proof.
  unfold reset_components. revert m.
  induction ks as [|k0 ks IH] using rev_ind; intros m Hk.
  - by apply elem_of_nil in Hk.
  - rewrite foldl_app. cbn. destruct (decide (k0 = k)) as [->|Hne].
    + apply lookup_insert_eq.
    + rewrite lookup_insert_ne by done. apply IH.
      apply elem_of_app in Hk as [Hk|Hk]; [done|].
      apply elem_of_cons in Hk as [->|Hk]; [done|by apply elem_of_nil in Hk].
Qed.

Lemma rows_of_projections (p : list (list Sequence)) (tp : list Triple) :
  length tp = length p →
  (rows_of p tp).*1.*1 = tp ∧ (rows_of p tp).*1.*2 = length <$> p ∧
  (rows_of p tp).*2 = map length <$> p ∧ length (rows_of p tp) = length p.
Proof.
  intros Hlen. unfold rows_of.
  assert (H1 : length (zip tp (length <$> p)) = length p)
    by (rewrite length_zip_with_l_eq; [done|by rewrite length_fmap]).
  rewrite fst_zip by (rewrite length_fmap; lia).
  rewrite fst_zip by (rewrite length_fmap; lia).
  rewrite snd_zip by (rewrite length_fmap; lia).
  rewrite snd_zip by (rewrite length_fmap; lia).
  rewrite length_zip_with_l_eq by (rewrite length_fmap; lia). done.
Qed.

Lemma comp_of_rows_of (p : list (list Sequence)) (tp : list Triple) :
  length tp = length p →
  comp_of (rows_of p tp) = Component tp (length <$> p) (map length <$> p).
Proof.
  intros (H1 & H2 & H3 & _)%rows_of_projections.
  unfold comp_of, comp_extend. cbn. by rewrite H1, H2, H3.
Qed.

Lemma concat_rows_projections (parts : list (list (list Sequence)))
    (tparts : list (list Triple)) :
  Forall2 (λ p tp, length tp = length p) parts tparts →
  let rows := concat (zip_with rows_of parts tparts) in
  rows.*1.*1 = concat tparts ∧ rows.*1.*2 = map length (concat parts) ∧
  rows.*2 = map (map length) (concat parts).
Proof.
  change (map length (concat parts)) with (length <$> concat parts).
  change (map (map length) (concat parts)) with (map length <$> concat parts).
  induction 1 as [|p tp parts tparts Hlen _ (IH1 & IH2 & IH3)]; [done|].
  cbn [zip_with concat]. rewrite !fmap_app, IH1, IH2, IH3.
  by destruct (rows_of_projections p tp Hlen) as (-> & -> & -> & _).
Qed.

Lemma Forall2_concat_inv_l {A B} (P : A → B → Prop) (ls : list (list A))
    (k : list B) :
  Forall2 P (concat ls) k → ∃ ks, k = concat ks ∧ Forall2 (Forall2 P) ls ks.
Proof.
  revert k. induction ls as [|l ls IH]; intros k; cbn.
  - intros ->%Forall2_nil_inv_l. by exists [].
  - intros (k1 & k2 & H1 & H2 & ->)%Forall2_app_inv_l.
    destruct (IH _ H2) as (ks & -> & Hks). exists (k1 :: ks).
    split; [done|by constructor].
Qed.

Lemma Forall2_concat_2 {A B} (P : A → B → Prop) (ls : list (list A))
    (ks : list (list B)) :
  Forall2 (Forall2 P) ls ks → Forall2 P (concat ls) (concat ks).
Proof.
  induction 1 as [|l k ls ks Hl _ IH]; cbn; [constructor|].
  by apply Forall2_app.
Qed.

Lemma succ_trainModels (o : HMMCluster) (w : world)
    (parts : list (list (list Sequence))) :
  mapM (λ k, partitions o !! k) (k_values o) = Some parts →
  succ _trainModels (o, w) =
  triples ← ok (mapM trainHMM (map (λ c, (c, target_m o)) (concat parts)));
  p ← succ (for_ (k_values o)
                 (reassemble_k (map length (concat parts))
                               (map (map length) (concat parts)) triples)
                 0%nat)
           (set_times <["modeling" := clock_src w (S (ticks w))
                                      - clock_src w (ticks w)]>
              (set_components (reset_components (k_values o)) o),
            emit [PoolMap "trainHMM" (length (concat parts))] (tick (tick w)));
  Some (tt, p.2).
Proof.
  intros Hparts. unfold _trainModels.
  rewrite succ_bind, succ_get_self. cbn [mbind option_bind fst snd].
  rewrite succ_bind, succ_batch_ks, Hparts. cbn [mbind option_bind fst snd app].
  rewrite succ_bind, succ_reset_components. cbn [mbind option_bind fst snd].
  rewrite succ_bind, succ_clock. cbn [mbind option_bind fst snd].
  rewrite succ_bind, succ_pool_map.
  destruct (mapM trainHMM _) as [triples|];
    cbn [ok mbind option_bind fst snd]; [|done].
  rewrite succ_bind, succ_clock. cbn [mbind option_bind fst snd].
  rewrite succ_bind, succ_modify. cbn [mbind option_bind fst snd].
  rewrite succ_bind. rewrite length_map.
  unfold emit, tick. cbn [clock_src ticks trace fst snd].
  destruct (succ (for_ _ _ _) _) as [[idx s']|];
    cbn [mbind option_bind fst snd]; [|done].
  by rewrite succ_ret.
Qed.

(** The reassembly when every partition has exactly k clusters. *)
Lemma trainModels_reassembly_exact (s s' : HMMCluster * world) :
  NoDup (k_values s.1) →
  (∀ k, k ∈ k_values s.1 →
        ∃ p, partitions s.1 !! k = Some p ∧ Z.of_nat (length p) = k) →
  succ _trainModels s = Some (tt, s') →
  ∀ k, k ∈ k_values s.1 →
  ∃ (p : list (list Sequence)) (triples : list Triple),
    partitions s.1 !! k = Some p ∧
    Forall2 (λ cluster t, trainHMM (cluster, target_m s.1) = Ok t) p triples ∧
    components s'.1 !! k
    = Some (Component triples (length <$> p) (map length <$> p)).
Proof.
  destruct s as [o w]. cbn [fst]. intros Hnd Hparts Hrun k Hk.
  assert (∃ parts, Forall2 (λ k p, partitions o !! k = Some p
                                   ∧ Z.of_nat (length p) = k)
                           (k_values o) parts) as [parts HF].
  { clear Hrun Hnd Hk. induction (k_values o) as [|k0 ks IH].
    - by exists [].
    - destruct (Hparts k0 ltac:(left)) as (p0 & ? & ?).
      destruct IH as [parts ?]; [intros; apply Hparts; by right|].
      exists (p0 :: parts). by constructor. }
  assert (HmapM : mapM (λ k, partitions o !! k) (k_values o) = Some parts).
  { apply mapM_Some. eapply Forall2_impl; [exact HF|]. by intros ? ? [? ?]. }
  rewrite (succ_trainModels o w parts HmapM) in Hrun.
  destruct (mapM trainHMM _) as [triples|] eqn:Htr;
    cbn [ok mbind option_bind] in Hrun; [|done].
  apply mapM_Ok_Forall2, Forall2_fmap_l, Forall2_concat_inv_l
    in Htr as (tparts & -> & Htparts).
  assert (Hlens : Forall2 (λ p tp, length tp = length p) parts tparts).
  { eapply Forall2_impl; [exact Htparts|].
    intros p tp H. symmetry. by eapply Forall2_length. }
  destruct (concat_rows_projections parts tparts Hlens) as (R1 & R2 & R3).
  set (blocks := zip_with rows_of parts tparts) in *.
  rewrite <- R1, <- R2, <- R3 in Hrun.
  assert (Hblocks : Forall2 (λ k blk, Z.of_nat (length blk) = k)
                            (k_values o) blocks).
  { subst blocks. clear -HF Hlens. revert tparts Hlens.
    induction HF as [|k0 p0 ks parts [_ Hk0] _ IH]; intros tparts Hlens.
    - inversion Hlens. constructor.
    - inversion Hlens as [|? tp0 ? tparts' Hl0 Hl]; subst. cbn.
      constructor; [|by apply IH].
      by destruct (rows_of_projections p0 tp0 Hl0) as (_ & _ & _ & ->). }
  rewrite (succ_reassemble_ks (concat blocks) (k_values o) blocks Hblocks [])
    in Hrun; [|done|done|].
  2:{ intros k' Hk'. cbn. by apply reset_components_lookup. }
  cbn [mbind option_bind fst snd] in Hrun. injection Hrun as <-. cbn [fst].
  apply list_elem_of_lookup in Hk as [j Hj].
  destruct (Forall2_lookup_l _ _ _ _ _ HF Hj) as (p & Hp & Hpk & Hlen).
  destruct (Forall2_lookup_l _ _ _ _ _ Htparts Hp) as (tp & Htp & Htrained).
  exists p, tp. split; [done|]. split; [done|].
  rewrite <- comp_of_rows_of by (symmetry; by eapply Forall2_length).
  apply store_fold_components.
  - rewrite fst_zip; [done|]. by rewrite (Forall2_length _ _ _ Hblocks).
  - apply list_elem_of_lookup. exists j. apply lookup_zip_with_Some.
    exists k, (rows_of p tp). split; [done|]. split; [done|].
    subst blocks. apply lookup_zip_with_Some. by exists p, tp.
Qed.

(** The training stage returns when the k values are distinct, every
    partition has exactly k clusters and every cluster trains. *)
Lemma trainModels_total (s : HMMCluster * world) :
  NoDup (k_values s.1) →
  (∀ k, k ∈ k_values s.1 →
        ∃ p triples,
          partitions s.1 !! k = Some p ∧ Z.of_nat (length p) = k ∧
          Forall2 (λ cluster t, trainHMM (cluster, target_m s.1) = Ok t)
                  p triples) →
  is_Some (succ _trainModels s).
Proof.
  destruct s as [o w]. cbn [fst]. intros Hnd Hparts.
  assert (∃ parts tparts,
            Forall2 (λ k p, partitions o !! k = Some p
                            ∧ Z.of_nat (length p) = k) (k_values o) parts ∧
            Forall2 (Forall2 (λ cluster t,
                                trainHMM (cluster, target_m o) = Ok t))
                    parts tparts)
    as (parts & tparts & HF & Htparts).
  { clear Hnd. induction (k_values o) as [|k0 ks IH].
    - by exists [], [].
    - destruct (Hparts k0 ltac:(left)) as (p0 & tp0 & ? & ? & ?).
      destruct IH as (parts & tparts & ? & ?); [intros; apply Hparts; by right|].
      exists (p0 :: parts), (tp0 :: tparts). split; by constructor. }
  assert (HmapM : mapM (λ k, partitions o !! k) (k_values o) = Some parts).
  { apply mapM_Some. eapply Forall2_impl; [exact HF|]. by intros ? ? [? ?]. }
  rewrite (succ_trainModels o w parts HmapM).
  assert (Htr : mapM trainHMM (map (λ c, (c, target_m o)) (concat parts))
                = Ok (concat tparts)).
  { apply mapM_Ok_Forall2, Forall2_fmap_l. by apply Forall2_concat_2. }
  rewrite Htr. cbn [ok mbind option_bind].
  assert (Hlens : Forall2 (λ p tp, length tp = length p) parts tparts).
  { eapply Forall2_impl; [exact Htparts|].
    intros p tp H. symmetry. by eapply Forall2_length. }
  destruct (concat_rows_projections parts tparts Hlens) as (R1 & R2 & R3).
  set (blocks := zip_with rows_of parts tparts) in *.
  rewrite <- R1, <- R2, <- R3.
  assert (Hblocks : Forall2 (λ k blk, Z.of_nat (length blk) = k)
                            (k_values o) blocks).
  { subst blocks. clear -HF Hlens. revert tparts Hlens.
    induction HF as [|k0 p0 ks parts [_ Hk0] _ IH]; intros tparts Hlens.
    - inversion Hlens. constructor.
    - inversion Hlens as [|? tp0 ? tparts' Hl0 Hl]; subst. cbn.
      constructor; [|by apply IH].
      by destruct (rows_of_projections p0 tp0 Hl0) as (_ & _ & _ & ->). }
  rewrite (succ_reassemble_ks (concat blocks) (k_values o) blocks Hblocks []);
    [|done|done|].
  2:{ intros k' Hk'. cbn. by apply reset_components_lookup. }
  by eexists.
Qed.

(** ** The hierarchical strategy *)

Lemma set_times_compose f g (o : HMMCluster) :
  set_times f (set_times g o) = set_times (λ t, f (g t)) o.
Proof. done. Qed.

(** The distance stage writes only [init_hmms] and [times], and only maps
    on the pool. *)
Lemma getDistMatrix_frame (o o1 : HMMCluster) (w w1 : world) (dm : list Q) :
  succ _getDistMatrix (o, w) = Some (dm, (o1, w1)) →
  (∃ hmms tf, o1 = set_times tf (set_init_hmms hmms o)) ∧
  ∃ evs, trace w1 = trace w ++ evs ∧ TreeCluster ∉ evs.
Proof.
  rewrite succ_getDistMatrix. cbn [fst].
  destruct (decide (dist_func o = "hmm")) as [Hh|Hh].
  - unfold _getHMMDistMatrix. rewrite succ_getHMMDistMatrix_with by done.
    destruct (ok (init_models o)) as [hmms|]; cbn [mbind option_bind]; [|done].
    destruct (run_items _) as [condensed|]; cbn [mbind option_bind]; [|done].
    destruct (ok (py_min_list _)) as [mn|]; cbn [mbind option_bind]; [|done].
    intros [= <- <- <-]. split.
    + rewrite set_times_compose. by eexists hmms, _.
    + eexists. split; [reflexivity|]. unfold mini_batch_events.
      intros [[=]|(i & [=] & _)%list_elem_of_fmap]%elem_of_cons.
  - destruct (decide (dist_func o = "editdistance")) as [He|He]; [|done].
    rewrite succ_getEditDistMatrix.
    destruct (mapM _ _) as [batch|]; cbn [mbind option_bind]; [|done].
    intros [= <- <- <-]. split.
    + exists (init_hmms o). eexists. by destruct o.
    + eexists. split; [reflexivity|].
      intros [[=]|[]%elem_of_nil]%elem_of_cons.
Qed.

Lemma succ_hierarchical_k (tree : Tree) (k : Z) (o : HMMCluster) (w : world) :
  succ (hierarchical_k tree tt k) (o, w) = Some (tt, (hier_store tree o k, w)).
Proof.
  unfold hierarchical_k.
  rewrite succ_bind, succ_modify. cbn [mbind option_bind fst snd].
  rewrite succ_bind, succ_get_self. cbn [mbind option_bind fst snd].
  by rewrite succ_modify.
Qed.

Lemma succ_hierarchical_ks (tree : Tree) (ks : list Z) :
  ∀ (o : HMMCluster) (w : world),
  succ (for_ ks (hierarchical_k tree) tt) (o, w)
  = Some (tt, (foldl (hier_store tree) o ks, w)).
Proof.
  induction ks as [|k ks IH]; intros o w; [done|].
  cbn [for_ foldl]. rewrite succ_bind, succ_hierarchical_k.
  cbn [mbind option_bind fst snd]. apply IH.
Qed.

Lemma hier_store_fold (tree : Tree) (ks : list Z) (o : HMMCluster) :
  let o' := foldl (hier_store tree) o ks in
  S_ o' = S_ o ∧ dist_matrix o' = dist_matrix o ∧
  ∀ k, k ∈ ks →
       labelings o' !! k = Some (cut tree k) ∧
       partitions o' !! k = Some (partition (S_ o) (cut tree k)).
Proof.
  induction ks as [|k0 ks (IH1 & IH2 & IH3)] using rev_ind.
  - cbn. split; [done|]. split; [done|]. intros k Hk.
    by apply elem_of_nil in Hk.
  - rewrite foldl_app. cbn [foldl]. cbn zeta in *.
    split; [done|]. split; [done|]. intros k Hk. cbn.
    destruct (decide (k0 = k)) as [->|Hne].
    + rewrite !lookup_insert_eq. by rewrite IH1.
    + rewrite !lookup_insert_ne by done. apply IH3.
      apply elem_of_app in Hk as [Hk|Hk]; [done|].
      apply elem_of_cons in Hk as [->|Hk]; [done|by apply elem_of_nil in Hk].
Qed.

Lemma succ_hierarchical (s : HMMCluster * world) :
  succ _hierarchical s =
  p ← succ _getDistMatrix s;
  Some (tt, (foldl (hier_store (treecluster p.1))
                   (set_dist_matrix (Some p.1) p.2.1) (k_values p.2.1),
             emit [TreeCluster] p.2.2)).
Proof.
  unfold _hierarchical. rewrite succ_bind.
  destruct (succ _getDistMatrix s) as [[dm [o1 w1]]|];
    cbn [mbind option_bind fst snd]; [|done].
  rewrite succ_bind, succ_modify. cbn [mbind option_bind fst snd].
  rewrite succ_bind, succ_log. cbn [mbind option_bind fst snd].
  rewrite succ_bind, succ_get_self. cbn [mbind option_bind fst snd].
  by rewrite succ_hierarchical_ks.
Qed.

(** C9. The hierarchical strategy builds the tree once, from the full
    distance matrix, and cuts that one tree for every k of the range. Where
    the cut at k labels the n sequences with exactly the k labels
    0 .. k-1, the partition stored for k has exactly k groups, none of
    them empty, and the groups' sequence indices are the indices
    0 .. n-1, each once. *)
Theorem hierarchical_partitions (s s' : HMMCluster * world) :
  n_ s.1 = length (S_ s.1) →
  (∀ dm k, fst <$> succ _getDistMatrix s = Some dm → k ∈ k_values s.1 →
     length (cut (treecluster dm) k) = n_ s.1 ∧ (0 ≤ k)%Z ∧
     ∀ c, c ∈ cut (treecluster dm) k ↔ (0 ≤ c < k)%Z) →
  succ _hierarchical s = Some (tt, s') →
  ∃ dm evs,
    fst <$> succ _getDistMatrix s = Some dm ∧
    dist_matrix s'.1 = Some dm ∧
    trace s'.2 = trace s.2 ++ evs ∧
    filter (λ e, e = TreeCluster) evs = [TreeCluster] ∧
    ∀ k, k ∈ k_values s.1 →
      let labels := cut (treecluster dm) k in
      let index_groups := partition (seq 0 (n_ s.1)) labels in
      labelings s'.1 !! k = Some labels ∧
      partitions s'.1 !! k = Some (partition (S_ s.1) labels) ∧
      partition (S_ s.1) labels
      = (λ g : list nat, (λ i, S_ s.1 !!! i) <$> g) <$> index_groups ∧
      Z.of_nat (length index_groups) = k ∧
      Forall (λ g, g ≠ []) index_groups ∧
      concat index_groups ≡ₚ seq 0 (n_ s.1).
Proof.
  destruct s as [o w]. cbn [fst snd]. intros Hn Hcut. rewrite succ_hierarchical.
  destruct (succ _getDistMatrix (o, w)) as [[dm [o1 w1]]|] eqn:Hdm;
    cbn [mbind option_bind fst snd]; [|done].
  intros [= <-]. cbn [fst snd].
  destruct (getDistMatrix_frame _ _ _ _ _ Hdm)
    as ((hmms & tf & ->) & evs & Hevs & Htree).
  pose proof (hier_store_fold (treecluster dm)
                (k_values (set_times tf (set_init_hmms hmms o)))
                (set_dist_matrix (Some dm) (set_times tf (set_init_hmms hmms o))))
    as (HS & Hmat & Hks).
  exists dm, (evs ++ [TreeCluster]). split; [done|]. split; [by rewrite Hmat|].
  split; [cbn; by rewrite Hevs, app_assoc|]. split.
  { rewrite filter_app, filter_none; [done|].
    apply Forall_forall. by intros e He ->. }
  intros k Hk.
  destruct (Hcut dm k eq_refl Hk) as (Hlen & Hk0 & Hlabels).
  destruct (Hks k Hk) as [Hl Hp]. cbn [S_ set_dist_matrix set_times
    set_init_hmms] in Hp.
  split; [done|]. split; [done|]. split; [|split; [|split]].
  - rewrite <- partition_fmap. by rewrite Hn, fmap_lookup_total_seq.
  - rewrite length_partition by (rewrite length_seq; lia).
    by apply length_label_set.
  - apply Forall_forall. intros g Hg%partition_nonempty ->. cbn in Hg. lia.
  - apply partition_perm. rewrite length_seq. lia.
Qed.

(** *** A returning walk has read exactly k rows for every k *)

Lemma succ_components_append_gen (k : Z) upd (s : HMMCluster * world) :
  succ (components_append k upd) s
  = c ← components s.1 !! k;
    Some (tt, (set_components <[k := upd c]> s.1, s.2)).
Proof.
  unfold components_append.
  rewrite succ_bind, succ_get_self. cbn [mbind option_bind fst snd].
  rewrite succ_bind, succ_lift. unfold dict_get.
  destruct (components s.1 !! k) as [c|];
    cbn [from_option ok mbind option_bind fst snd]; [|done].
  by rewrite succ_modify.
Qed.

Lemma reassemble_cluster_idx cluster_sizes seq_lens hmm_triples (k : Z)
    (idx : nat) (i : Z) (s s' : HMMCluster * world) (idx' : nat) :
  succ (reassemble_cluster cluster_sizes seq_lens hmm_triples k idx i) s
  = Some (idx', s') →
  idx' = (idx + 1)%nat ∧ (idx < length cluster_sizes)%nat.
Proof.
  unfold reassemble_cluster, py_index.
  rewrite succ_bind, succ_lift.
  destruct (cluster_sizes !! idx) as [cs|] eqn:Hcs;
    cbn [from_option ok mbind option_bind fst snd]; [|done].
  apply lookup_lt_Some in Hcs.
  rewrite succ_bind, succ_lift.
  destruct (seq_lens !! idx) as [sl|];
    cbn [from_option ok mbind option_bind fst snd]; [|done].
  rewrite succ_bind, succ_lift.
  destruct (hmm_triples !! idx) as [ht|];
    cbn [from_option ok mbind option_bind fst snd]; [|done].
  rewrite succ_bind, succ_components_append_gen.
  destruct (components s.1 !! k) as [c1|];
    cbn [mbind option_bind fst snd]; [|done].
  rewrite succ_bind, succ_components_append_gen. cbn [fst snd].
  destruct (components _ !! k) as [c2|];
    cbn [mbind option_bind fst snd]; [|done].
  rewrite succ_bind, succ_components_append_gen. cbn [fst snd].
  destruct (components _ !! k) as [c3|];
    cbn [mbind option_bind fst snd]; [|done].
  rewrite succ_ret. by intros [= <- _].
Qed.

Lemma reassemble_clusters_idx cluster_sizes seq_lens hmm_triples (k : Z)
    (l : list Z) :
  ∀ (idx : nat) (s s' : HMMCluster * world) (idx' : nat),
  succ (for_ l (reassemble_cluster cluster_sizes seq_lens hmm_triples k) idx) s
  = Some (idx', s') →
  idx' = (idx + length l)%nat ∧
  ((0 < length l)%nat → (idx' ≤ length cluster_sizes)%nat).
Proof.
  induction l as [|i l IH]; intros idx s s' idx'; cbn [for_ length].
  - rewrite succ_ret. intros [= <- _]. split; lia.
  - rewrite succ_bind.
    destruct (succ (reassemble_cluster _ _ _ _ _ _) s) as [[idx1 s1]|] eqn:H1;
      cbn [mbind option_bind fst snd]; [|done].
    apply reassemble_cluster_idx in H1 as [-> Hlt].
    intros [-> Hle]%IH. split; [lia|]. intros _.
    destruct l; cbn in *; lia.
Qed.

Lemma reassemble_k_idx cluster_sizes seq_lens hmm_triples (idx : nat) (k : Z)
    (s s' : HMMCluster * world) (idx' : nat) :
  succ (reassemble_k cluster_sizes seq_lens hmm_triples idx k) s
  = Some (idx', s') →
  idx' = (idx + Z.to_nat k)%nat ∧
  ((0 < Z.to_nat k)%nat → (idx' ≤ length cluster_sizes)%nat).
Proof.
  unfold reassemble_k. rewrite succ_bind.
  destruct (succ (for_ _ _ _) s) as [[idx1 s1]|] eqn:H1;
    cbn [mbind option_bind fst snd]; [|done].
  apply reassemble_clusters_idx in H1 as [-> Hle].
  unfold xrange in *. rewrite length_seqZ, Z.sub_0_r in *.
  rewrite succ_bind, succ_get_self. cbn [mbind option_bind fst snd].
  rewrite succ_bind, succ_lift.
  destruct (dict_get _ _) as [comp|];
    cbn [ok mbind option_bind fst snd]; [|done].
  rewrite succ_bind, succ_modify. cbn [mbind option_bind fst snd].
  rewrite succ_ret. by intros [= <- _].
Qed.

Lemma reassemble_ks_idx cluster_sizes seq_lens hmm_triples (ks : list Z) :
  ∀ (idx : nat) (s s' : HMMCluster * world) (idx' : nat),
  succ (for_ ks (reassemble_k cluster_sizes seq_lens hmm_triples) idx) s
  = Some (idx', s') →
  (idx ≤ length cluster_sizes)%nat →
  (idx + sum_list_with Z.to_nat ks ≤ length cluster_sizes)%nat.
Proof.
  induction ks as [|k ks IH]; intros idx s s' idx';
    cbn [for_ sum_list_with].
  - intros _ ?. lia.
  - rewrite succ_bind.
    destruct (succ (reassemble_k _ _ _ _ _) s) as [[idx1 s1]|] eqn:H1;
      cbn [mbind option_bind fst snd]; [|done].
    apply reassemble_k_idx in H1 as [-> Hle].
    intros Hrest Hidx. apply IH in Hrest; lia.
Qed.

Lemma length_concat_le_sum {A} (ks : list Z) (parts : list (list A)) :
  Forall2 (λ k p, (Z.of_nat (length p) ≤ k)%Z) ks parts →
  (length (concat parts) ≤ sum_list_with Z.to_nat ks)%nat.
Proof.
  induction 1 as [|k p ks parts Hk _ IH]; cbn; [done|].
  rewrite length_app. lia.
Qed.

(** Partitions of at most k clusters each, with at least as many clusters
    in all as the k values sum to, have exactly k clusters each. *)
Lemma sizes_exact {A} (ks : list Z) (parts : list (list A)) :
  Forall2 (λ k p, (Z.of_nat (length p) ≤ k)%Z) ks parts →
  (sum_list_with Z.to_nat ks ≤ length (concat parts))%nat →
  Forall2 (λ k p, Z.of_nat (length p) = k) ks parts.
Proof.
  induction 1 as [|k p ks parts Hk HF IH]; cbn; [constructor|].
  rewrite length_app. intros Hsum.
  pose proof (length_concat_le_sum ks parts HF).
  constructor; [lia|]. apply IH; lia.
Qed.

(** C4. With the k values distinct and, for every k of the range, a
    partition of at most k clusters (every labeling of the clustering
    strategies has at most k labels): after a training stage that returns,
    every partition had exactly k clusters, the index walk took them in the
    order of the flattening, and the components of every k are the
    training results, the sizes and the sequence-length lists of the
    clusters of k's partition, cluster by cluster in the order of the
    partition. *)
Theorem trainModels_reassembly (s s' : HMMCluster * world) :
  NoDup (k_values s.1) →
  (∀ k, k ∈ k_values s.1 →
        ∃ p, partitions s.1 !! k = Some p ∧ (Z.of_nat (length p) ≤ k)%Z) →
  succ _trainModels s = Some (tt, s') →
  ∀ k, k ∈ k_values s.1 →
  ∃ (p : list (list Sequence)) (triples : list Triple),
    partitions s.1 !! k = Some p ∧ Z.of_nat (length p) = k ∧
    Forall2 (λ cluster t, trainHMM (cluster, target_m s.1) = Ok t) p triples ∧
    components s'.1 !! k
    = Some (Component triples (length <$> p) (map length <$> p)).
Proof.
  intros Hnd Hparts Hrun.
  assert (Hexact : ∀ k, k ∈ k_values s.1 →
            ∃ p, partitions s.1 !! k = Some p ∧ Z.of_nat (length p) = k).
  { destruct s as [o w]. cbn [fst] in *.
    assert (∃ parts, Forall2 (λ k p, partitions o !! k = Some p
                                     ∧ (Z.of_nat (length p) ≤ k)%Z)
                             (k_values o) parts) as [parts HF].
    { clear Hrun Hnd. induction (k_values o) as [|k0 ks IH].
      - by exists [].
      - destruct (Hparts k0 ltac:(left)) as (p0 & ? & ?).
        destruct IH as [parts ?]; [intros; apply Hparts; by right|].
        exists (p0 :: parts). by constructor. }
    assert (HmapM : mapM (λ k, partitions o !! k) (k_values o) = Some parts).
    { apply mapM_Some. eapply Forall2_impl; [exact HF|]. by intros ? ? [? ?]. }
    rewrite (succ_trainModels o w parts HmapM) in Hrun.
    destruct (mapM trainHMM _) as [triples|];
      cbn [ok mbind option_bind] in Hrun; [|done].
    destruct (succ (for_ _ _ _) _) as [[idx s1]|] eqn:Hwalk;
      cbn [mbind option_bind] in Hrun; [|done].
    apply reassemble_ks_idx in Hwalk; [|lia].
    rewrite length_map in Hwalk. cbn in Hwalk.
    assert (Hsizes : Forall2 (λ k p, Z.of_nat (length p) = k)
                             (k_values o) parts).
    { apply sizes_exact; [|done].
      eapply Forall2_impl; [exact HF|]. by intros ? ? [? ?]. }
    intros k Hk. apply list_elem_of_lookup in Hk as [j Hj].
    destruct (Forall2_lookup_l _ _ _ _ _ HF Hj) as (p & Hp & Hpk & _).
    pose proof (Forall2_lookup_lr _ _ _ _ _ _ Hsizes Hj Hp).
    by exists p. }
  intros k Hk.
  destruct (trainModels_reassembly_exact s s' Hnd Hexact Hrun k Hk)
    as (p & triples & Hp & Htr & Hc).
  destruct (Hexact k Hk) as (p' & Hp' & Hlen).
  rewrite Hp in Hp'. injection Hp' as <-.
  by exists p, triples.
Qed.

(** ** Independence of the clock and of the pool *)

Lemma sim_ret {A} (R : A → A → Prop) (a1 a2 : A) :
  R a1 a2 → sim R (mret a1) (mret a2).
Proof. by intros HR s1 s2 Hs. Qed.

Lemma sim_bind {A B} (R : A → A → Prop) (R' : B → B → Prop)
    (m1 m2 : M A) (f1 f2 : A → M B) :
  sim R m1 m2 → (∀ a1 a2, R a1 a2 → sim R' (f1 a1) (f2 a2)) →
  sim R' (m1 ≫= f1) (m2 ≫= f2).
Proof.
  intros Hm Hf s1 s2 Hs. unfold mbind, M_bind. specialize (Hm s1 s2 Hs).
  destruct (m1 s1) as [[a1|e1] s1'], (m2 s2) as [[a2|e2] s2']; try done.
  destruct Hm as [HR Hs']. by apply Hf.
Qed.

Lemma sim_get_self :
  sim (λ o1 o2, strip o1 = strip o2) get_self get_self.
Proof. by intros s1 s2 Hs. Qed.

Lemma sim_modify (f1 f2 : HMMCluster → HMMCluster) :
  (∀ o1 o2, strip o1 = strip o2 → strip (f1 o1) = strip (f2 o2)) →
  sim (λ _ _, True) (modify f1) (modify f2).
Proof. intros Hf s1 s2 Hs. split; [done|]. by apply Hf. Qed.

Lemma sim_lift {A} (r : result A) : sim eq (lift r) (lift r).
Proof. intros s1 s2 Hs. unfold lift. by destruct r. Qed.

Lemma sim_raise {A} (R : A → A → Prop) e : sim R (raise e) (raise e).
Proof. by intros s1 s2 Hs. Qed.

Lemma sim_clock : sim (λ _ _, True) clock clock.
Proof. by intros s1 s2 Hs. Qed.

Lemma sim_log e : sim (λ _ _, True) (log e) (log e).
Proof. by intros s1 s2 Hs. Qed.

Lemma sim_pool_map {A B} name (fn : A → result B) items :
  sim eq (pool_map name fn items) (pool_map name fn items).
Proof.
  intros s1 s2 Hs. unfold pool_map, mbind, M_bind, log, lift. cbn.
  by destruct (mapM fn items).
Qed.

Lemma sim_for {A B} (R : B → B → Prop) (l : list A) (body1 body2 : B → A → M B) :
  (∀ x acc1 acc2, R acc1 acc2 → sim R (body1 acc1 x) (body2 acc2 x)) →
  ∀ acc1 acc2, R acc1 acc2 → sim R (for_ l body1 acc1) (for_ l body2 acc2).
Proof.
  intros Hbody. induction l as [|x l IH]; intros acc1 acc2 HR; cbn [for_].
  - by apply sim_ret.
  - eapply sim_bind; [by apply Hbody|]. apply IH.
Qed.

Lemma sim_weaken {A} (R R' : A → A → Prop) (m1 m2 : M A) :
  (∀ a1 a2, R a1 a2 → R' a1 a2) → sim R m1 m2 → sim R' m1 m2.
Proof.
  intros HR Hm s1 s2 Hs. specialize (Hm s1 s2 Hs).
  destruct (m1 s1) as [[a1|e1] s1'], (m2 s2) as [[a2|e2] s2']; try done.
  destruct Hm. split; [by apply HR|done].
Qed.

Ltac same_fields H :=
  cbv beta in H;
  lazymatch type of H with
  | strip ?o1 = strip ?o2 =>
      destruct o1, o2; unfold strip, set_times in H;
      cbn [S_ n_ target_m min_k max_k dist_func hmm_init clust_alg train_mode
           components composites dist_matrix partitions labelings k_values
           init_hmms times] in H;
      injection H; clear H; intros; subst;
      cbn [S_ n_ target_m min_k max_k dist_func hmm_init clust_alg train_mode
           components composites dist_matrix partitions labelings k_values
           init_hmms times]
  end.

Ltac modify_side :=
  let Hs := fresh in
  intros ? ? Hs;
  lazymatch goal with
  | |- strip (?f _) = strip _ => first [exact Hs | exact (f_equal f Hs)]
  end.

Ltac sim_step :=
  cbv beta iota zeta;
  lazymatch goal with
  | |- sim _ (mret _) (mret _) => apply sim_ret
  | |- sim _ (get_self ≫= _) (get_self ≫= _) =>
      let H := fresh in
      eapply sim_bind; [apply sim_get_self|intros ? ? H; same_fields H]
  | |- sim _ (clock ≫= _) (clock ≫= _) =>
      eapply sim_bind; [apply sim_clock|intros ? ? _]
  | |- sim _ (log _ ≫= _) (log _ ≫= _) =>
      eapply sim_bind; [apply sim_log|intros ? ? _]
  | |- sim _ (lift _ ≫= _) (lift _ ≫= _) =>
      eapply sim_bind; [apply sim_lift|intros ? ? <-]
  | |- sim _ (pool_map _ _ _ ≫= _) (pool_map _ _ _ ≫= _) =>
      eapply sim_bind; [apply sim_pool_map|intros ? ? <-]
  | |- sim _ (modify _ ≫= _) (modify _ ≫= _) =>
      eapply sim_bind; [apply sim_modify; modify_side|intros ? ? _]
  | |- sim _ (modify _) (modify _) =>
      eapply sim_weaken; [|apply sim_modify; modify_side]; by intros [] []
  | |- sim _ (log _) (log _) =>
      eapply sim_weaken; [|apply sim_log]; by intros [] []
  | |- sim _ (raise _) (raise _) => apply sim_raise
  end.

Lemma sim_hmm_mini_batch (bs nb : Z) (acc1 acc2 : Q * list Q) (i : Z) :
  acc1.2 = acc2.2 →
  sim (λ a1 a2, a1.2 = a2.2)
      (hmm_mini_batch bs nb acc1 i) (hmm_mini_batch bs nb acc2 i).
Proof.
  destruct acc1 as [st1 c1], acc2 as [st2 c2]. cbn [snd]. intros ->.
  unfold hmm_mini_batch. sim_step. unfold _getHMMBatchItems.
  cbn [S_ n_ init_hmms]. sim_step. sim_step. by sim_step.
Qed.

Lemma sim_getHMMDistMatrix_with (bs : Z) :
  sim eq (_getHMMDistMatrix_with bs) (_getHMMDistMatrix_with bs).
Proof.
  unfold _getHMMDistMatrix_with. sim_step. sim_step. sim_step. sim_step.
  sim_step. sim_step. sim_step. sim_step. sim_step.
  eapply sim_bind.
  { apply (sim_for (λ a1 a2 : Q * list Q, a1.2 = a2.2)); [|done].
    intros. by apply sim_hmm_mini_batch. }
  intros [st1 c1] [st2 c2] Hc. cbn [snd] in Hc. subst c2.
  sim_step. sim_step. sim_step. sim_step. by sim_step.
Qed.

Lemma sim_getEditDistMatrix : sim eq _getEditDistMatrix _getEditDistMatrix.
Proof.
  unfold _getEditDistMatrix. sim_step. sim_step. sim_step. sim_step.
  sim_step. sim_step. by sim_step.
Qed.

Lemma sim_getDistMatrix : sim eq _getDistMatrix _getDistMatrix.
Proof.
  unfold _getDistMatrix. sim_step.
  repeat case_decide.
  - apply sim_getHMMDistMatrix_with.
  - apply sim_getEditDistMatrix.
  - apply sim_raise.
Qed.









(** * Further properties of the code *)

(** ** Frames *)

Lemma lookup_foldr_delete (ks : list string) (m : gmap string Q) (i : string) :
  foldr delete m ks !! i = if decide (i ∈ ks) then None else m !! i.
Proof.
  induction ks as [|k ks IH]; cbn [foldr].
  - rewrite decide_False; [done|]. by intros ?%elem_of_nil.
  - destruct (decide (k = i)) as [->|Hne].
    + rewrite lookup_delete_eq. rewrite decide_True; [done|]. left.
    + rewrite lookup_delete_ne, IH by done.
      destruct (decide (i ∈ ks)) as [Hi|Hi].
      * rewrite decide_True; [done|]. by right.
      * rewrite decide_False; [done|].
        intros [->|?]%elem_of_cons; done.
Qed.

Lemma foldr_delete_insert (ks : list string) (m : gmap string Q) k v :
  k ∈ ks → foldr delete (<[k := v]> m) ks = foldr delete m ks.
Proof.
  intros Hk. apply map_eq. intros i. rewrite !lookup_foldr_delete.
  case_decide as Hi; [done|]. apply lookup_insert_ne. by intros ->.
Qed.

Lemma times_except_lookup (ks : list string) (o o' : HMMCluster) key :
  times_except ks o' = times_except ks o → key ∉ ks →
  times o' !! key = times o !! key.
Proof.
  unfold times_except. intros H Hkey.
  apply (f_equal (λ m, m !! key)) in H.
  by rewrite !lookup_foldr_delete, !decide_False in H.
Qed.

Lemma within_ret {X A} (π : HMMCluster → X) P (a : A) : within π P (mret a).
Proof.
  intros s. cbn. split; [done|]. split; [done|]. split; [done|].
  exists []. by rewrite app_nil_r.
Qed.

Lemma within_bind {X A B} (π : HMMCluster → X) P (m : M A) (f : A → M B) :
  within π P m → (∀ a, within π P (f a)) → within π P (m ≫= f).
Proof.
  intros Hm Hf s. unfold mbind, M_bind.
  destruct (Hm s) as (H1 & H2 & H3 & evs & H4 & H5).
  destruct (m s) as [[a|e] s1]; cbn [fst snd] in *.
  - destruct (Hf a s1) as (G1 & G2 & G3 & evs' & G4 & G5).
    split; [congruence|]. split; [congruence|]. split; [lia|].
    exists (evs ++ evs'). split; [by rewrite G4, H4, app_assoc|].
    by apply Forall_app.
  - split; [done|]. split; [done|]. split; [done|]. by exists evs.
Qed.

Lemma within_get_self {X} (π : HMMCluster → X) P : within π P get_self.
Proof.
  intros s. cbn. split; [done|]. split; [done|]. split; [done|].
  exists []. by rewrite app_nil_r.
Qed.

Lemma within_lift {X A} (π : HMMCluster → X) P (r : result A) :
  within π P (lift r).
Proof.
  intros s. cbn. split; [done|]. split; [done|]. split; [done|].
  exists []. by rewrite app_nil_r.
Qed.

Lemma within_raise {X A} (π : HMMCluster → X) P e : within π P (@raise A e).
Proof.
  intros s. cbn. split; [done|]. split; [done|]. split; [done|].
  exists []. by rewrite app_nil_r.
Qed.

Lemma within_modify {X} (π : HMMCluster → X) P (f : HMMCluster → HMMCluster) :
  (∀ o, π (f o) = π o) → within π P (modify f).
Proof.
  intros Hf s. cbn. split; [done|]. split; [done|]. split; [done|].
  exists []. by rewrite app_nil_r.
Qed.

Lemma within_clock {X} (π : HMMCluster → X) P : within π P clock.
Proof.
  intros s. cbn. split; [done|]. split; [done|]. split; [lia|].
  exists []. by rewrite app_nil_r.
Qed.

Lemma within_log {X} (π : HMMCluster → X) (P : event → Prop) e :
  P e → within π P (log e).
Proof.
  intros He s. cbn. split; [done|]. split; [done|]. split; [done|].
  exists [e]. split; [done|]. by constructor.
Qed.

Lemma within_pool_map {X A B} (π : HMMCluster → X) (P : event → Prop) name
    (fn : A → result B) items :
  P (PoolMap name (length items)) → within π P (pool_map name fn items).
Proof.
  intros HP. unfold pool_map.
  apply within_bind; [by apply within_log|]. intros _. apply within_lift.
Qed.

Lemma within_for {X A B} (π : HMMCluster → X) P (l : list A)
    (body : B → A → M B) :
  (∀ acc x, within π P (body acc x)) → ∀ acc, within π P (for_ l body acc).
Proof.
  intros Hbody. induction l as [|x l IH]; intros acc; cbn [for_].
  - apply within_ret.
  - apply within_bind; [apply Hbody|]. apply IH.
Qed.

Lemma within_weaken {X Y A} (π : HMMCluster → X) (π' : HMMCluster → Y)
    (P P' : event → Prop) (m : M A) :
  (∀ o o', π o' = π o → π' o' = π' o) → (∀ e, P e → P' e) →
  within π P m → within π' P' m.
Proof.
  intros Hπ HP Hm s. destruct (Hm s) as (H1 & H2 & H3 & evs & H4 & H5).
  split; [by apply Hπ|]. split; [done|]. split; [done|].
  exists evs. split; [done|]. eapply Forall_impl; [exact H5|exact HP].
Qed.

Lemma times_except_mono (ks ks' : list string) (o o' : HMMCluster) :
  (∀ k, k ∈ ks → k ∈ ks') →
  times_except ks o' = times_except ks o →
  times_except ks' o' = times_except ks' o.
Proof.
  intros Hsub H. unfold times_except. apply map_eq. intros i.
  rewrite !lookup_foldr_delete. case_decide as Hi; [done|].
  apply (times_except_lookup ks); [done|]. intros ?. by apply Hi, Hsub.
Qed.

Ltac frame_side :=
  let o := fresh "o" in
  intros o; destruct o;
  unfold outside_distance, outside_clustering, outside_training, inputs,
         times_except, set_components, set_composites, set_dist_matrix,
         set_partitions, set_labelings, set_init_hmms, set_times;
  cbn [S_ n_ target_m min_k max_k dist_func hmm_init clust_alg train_mode
       components composites dist_matrix partitions labelings k_values
       init_hmms times];
  try reflexivity;
  f_equal; apply foldr_delete_insert; repeat first [by left | right].

Ltac within_step :=
  cbv beta iota zeta;
  lazymatch goal with
  | |- within _ _ (mret _) => apply within_ret
  | |- within _ _ (get_self ≫= _) =>
      apply within_bind; [apply within_get_self|intros ?]
  | |- within _ _ (clock ≫= _) =>
      apply within_bind; [apply within_clock|intros ?]
  | |- within _ _ (log _ ≫= _) =>
      apply within_bind; [by apply within_log|intros ?]
  | |- within _ _ (lift _ ≫= _) =>
      apply within_bind; [apply within_lift|intros ?]
  | |- within _ _ (pool_map _ _ _ ≫= _) =>
      apply within_bind; [by apply within_pool_map|intros ?]
  | |- within _ _ (modify _ ≫= _) =>
      apply within_bind; [apply within_modify; frame_side|intros ?]
  | |- within _ _ (modify _) => apply within_modify; frame_side
  | |- within _ _ (log _) => by apply within_log
  | |- within _ _ (lift _) => apply within_lift
  | |- within _ _ (raise _) => apply within_raise
  end.

Lemma within_getHMMDistMatrix_with (bs : Z) :
  within outside_distance is_pool_map (_getHMMDistMatrix_with bs).
Proof.
  unfold _getHMMDistMatrix_with. do 9 within_step.
  apply within_bind.
  { apply within_for. intros [st condensed] i. unfold hmm_mini_batch.
    do 3 within_step. within_step. }
  intros [st condensed]. do 4 within_step. within_step.
Qed.

Lemma within_getEditDistMatrix :
  within outside_distance is_pool_map _getEditDistMatrix.
Proof. unfold _getEditDistMatrix. do 6 within_step. within_step. Qed.

Lemma within_getDistMatrix : within outside_distance is_pool_map _getDistMatrix.
Proof.
  unfold _getDistMatrix. within_step. repeat case_decide.
  - apply within_getHMMDistMatrix_with.
  - apply within_getEditDistMatrix.
  - apply within_raise.
Qed.

Lemma outside_distance_clustering (o o' : HMMCluster) :
  outside_distance o' = outside_distance o →
  outside_clustering o' = outside_clustering o.
Proof.
  unfold outside_distance, outside_clustering. intros H.
  pose proof (f_equal (λ p, p.1.1.1.1.1.1) H) as Hin.
  pose proof (f_equal (λ p, p.1.1.2) H) as Hc1.
  pose proof (f_equal (λ p, p.1.2) H) as Hc2.
  pose proof (f_equal snd H) as Ht. cbn [fst snd] in Hin, Hc1, Hc2, Ht.
  rewrite Hin, Hc1, Hc2. f_equal.
  apply (times_except_mono ["init_hmms"; "distance_matrix"]); [|done].
  intros k Hk. apply elem_of_app with (l1 := ["init_hmms"; "distance_matrix"])
    (l2 := ["clustering"]). by left.
Qed.

Lemma is_pool_map_work (e : event) : is_pool_map e → is_work e.
Proof. by destruct e. Qed.

Lemma within_hierarchical : within outside_clustering is_work _hierarchical.
Proof.
  unfold _hierarchical. apply within_bind.
  { eapply within_weaken; [|exact is_pool_map_work|apply within_getDistMatrix].
    exact outside_distance_clustering. }
  intros dm. do 3 within_step.
  apply within_for. intros [] k. unfold hierarchical_k.
  do 2 within_step. within_step.
Qed.

Lemma within_kMedoids : within outside_clustering is_work _kMedoids.
Proof.
  unfold _kMedoids. apply within_bind.
  { eapply within_weaken; [|exact is_pool_map_work|apply within_getDistMatrix].
    exact outside_distance_clustering. }
  intros dm. do 3 within_step.
  apply within_for. intros [] i. unfold kMedoids_i.
  do 3 within_step.
  match goal with
  | r : (list Z * Q * Z)%type |- _ => destruct r as [[labels error] nfound]
  end.
  within_step. within_step.
Qed.

Lemma within_cluster : within outside_clustering is_work _cluster.
Proof.
  unfold _cluster. do 2 within_step.
  apply within_bind.
  { repeat case_decide;
      [apply within_hierarchical|apply within_kMedoids|apply within_ret]. }
  intros []. within_step. within_step.
Qed.

Lemma within_components_append {X} (π : HMMCluster → X) P (k : Z) upd :
  (∀ f o, π (set_components f o) = π o) →
  within π P (components_append k upd).
Proof.
  intros Hπ. unfold components_append.
  apply within_bind; [apply within_get_self|intros self].
  apply within_bind; [apply within_lift|intros comp].
  apply within_modify. intros o. apply Hπ.
Qed.

Lemma within_reassemble_k {X} (π : HMMCluster → X) P cluster_sizes seq_lens
    hmm_triples (idx : nat) (k : Z) :
  (∀ f o, π (set_components f o) = π o) →
  (∀ f o, π (set_composites f o) = π o) →
  within π P (reassemble_k cluster_sizes seq_lens hmm_triples idx k).
Proof.
  intros Hπ1 Hπ2. unfold reassemble_k. apply within_bind.
  { apply within_for. intros idx1 i. unfold reassemble_cluster.
    do 3 within_step.
    apply within_bind; [by apply within_components_append|intros []].
    apply within_bind; [by apply within_components_append|intros []].
    apply within_bind; [by apply within_components_append|intros []].
    within_step. }
  intros idx'. do 2 within_step.
  apply within_bind; [apply within_modify; intros o; apply Hπ2|intros []].
  within_step.
Qed.

Lemma within_trainModels : within outside_training is_pool_map _trainModels.
Proof.
  unfold _trainModels. within_step.
  apply within_bind.
  { apply within_for. intros acc k. unfold batch_k. do 2 within_step.
    apply within_for. intros [[b cs] sl] cluster. unfold batch_cluster.
    within_step. }
  intros [[batch_items cluster_sizes] seq_lens].
  apply within_bind.
  { apply within_for. intros [] k. within_step. }
  intros []. do 4 within_step.
  apply within_bind.
  { apply within_for. intros idx k.
    apply within_reassemble_k; by intros f []. }
  intros idx. within_step.
Qed.

(** X1. Whether the distance stage returns or raises, it has assigned no
    attribute of the object other than [init_hmms] and the times recorded
    under 'init_hmms' and 'distance_matrix': the inputs, the distance
    matrix, the partitions, the labelings, the components and the
    composites are as before. In the world it has only read the clock and
    mapped on the pool: no tree is built and the pool is not closed. *)
Theorem distance_stage_frame (s : HMMCluster * world) :
  let s' := (_getDistMatrix s).2 in
  inputs s'.1 = inputs s.1 ∧
  dist_matrix s'.1 = dist_matrix s.1 ∧
  partitions s'.1 = partitions s.1 ∧
  labelings s'.1 = labelings s.1 ∧
  components s'.1 = components s.1 ∧
  composites s'.1 = composites s.1 ∧
  (∀ key, key ∉ ["init_hmms"; "distance_matrix"] →
          times s'.1 !! key = times s.1 !! key) ∧
  ∃ evs, trace s'.2 = trace s.2 ++ evs ∧ Forall is_pool_map evs.
Proof.
  destruct (within_getDistMatrix s) as (H & _ & _ & Hevs).
  unfold outside_distance in H. cbn zeta.
  split; [exact (f_equal (λ p, p.1.1.1.1.1.1) H)|].
  split; [exact (f_equal (λ p, p.1.1.1.1.1.2) H)|].
  split; [exact (f_equal (λ p, p.1.1.1.1.2) H)|].
  split; [exact (f_equal (λ p, p.1.1.1.2) H)|].
  split; [exact (f_equal (λ p, p.1.1.2) H)|].
  split; [exact (f_equal (λ p, p.1.2) H)|].
  split; [|exact Hevs].
  intros key Hkey. eapply times_except_lookup; [|exact Hkey].
  exact (f_equal snd H).
Qed.

(** X2. The clustering stage and the training stage do not write each
    other's results, whether they return or raise: [_cluster] leaves the
    inputs, the components and the composites as they were, and
    [_trainModels] leaves the inputs, the distance matrix, the partitions,
    the labelings and the default models as they were and records no time
    but the one of 'modeling'. *)
Theorem clustering_and_training_frames (s : HMMCluster * world) :
  let c := (_cluster s).2.1 in
  let t := (_trainModels s).2.1 in
  (inputs c = inputs s.1 ∧ components c = components s.1 ∧
   composites c = composites s.1) ∧
  (inputs t = inputs s.1 ∧ dist_matrix t = dist_matrix s.1 ∧
   partitions t = partitions s.1 ∧ labelings t = labelings s.1 ∧
   init_hmms t = init_hmms s.1 ∧
   ∀ key, key ≠ "modeling" → times t !! key = times s.1 !! key).
Proof.
  destruct (within_cluster s) as (Hc & _).
  destruct (within_trainModels s) as (Ht & _).
  unfold outside_clustering in Hc. unfold outside_training in Ht. cbn zeta.
  split.
  - split; [exact (f_equal (λ p, p.1.1.1) Hc)|].
    split; [exact (f_equal (λ p, p.1.1.2) Hc)|exact (f_equal (λ p, p.1.2) Hc)].
  - split; [exact (f_equal (λ p, p.1.1.1.1.1) Ht)|].
    split; [exact (f_equal (λ p, p.1.1.1.1.2) Ht)|].
    split; [exact (f_equal (λ p, p.1.1.1.2) Ht)|].
    split; [exact (f_equal (λ p, p.1.1.2) Ht)|].
    split; [exact (f_equal (λ p, p.1.2) Ht)|].
    intros key Hkey. eapply times_except_lookup; [exact (f_equal snd Ht)|].
    by intros ->%list_elem_of_singleton.
Qed.

Lemma within_model : within inputs (λ _, True) model.
Proof.
  unfold model. within_step.
  apply within_bind.
  { eapply within_weaken; [| |apply within_cluster]; [|done].
    intros o o' H. exact (f_equal (λ p, p.1.1.1) H). }
  intros [].
  apply within_bind.
  { eapply within_weaken; [| |apply within_trainModels]; [|done].
    intros o o' H. exact (f_equal (λ p, p.1.1.1.1.1) H). }
  intros []. within_step.
  apply within_bind; [apply within_modify; by intros []|intros []].
  by apply within_log.
Qed.

(** X3. A run of [model], whether it returns or raises, leaves the inputs
    of the object as they were: the sequences and their number, target_m,
    min_k and max_k, the four strategy names and the k values. *)
Theorem model_keeps_inputs (s : HMMCluster * world) :
  let o' := (model s).2.1 in
  S_ o' = S_ s.1 ∧ n_ o' = n_ s.1 ∧ target_m o' = target_m s.1 ∧
  min_k o' = min_k s.1 ∧ max_k o' = max_k s.1 ∧
  dist_func o' = dist_func s.1 ∧ hmm_init o' = hmm_init s.1 ∧
  clust_alg o' = clust_alg s.1 ∧ train_mode o' = train_mode s.1 ∧
  k_values o' = k_values s.1.
Proof.
  destruct (within_model s) as (H & _). unfold inputs in H. cbn zeta.
  injection H as -> -> -> -> -> -> -> -> -> ->. done.
Qed.

Lemma closes_bind {X A B} (π : HMMCluster → X) (m : M A) (f : A → M B) :
  within π is_work m → (∀ a, closes_on_return (f a)) →
  closes_on_return (m ≫= f).
Proof.
  intros Hm Hf s. unfold mbind, M_bind.
  destruct (Hm s) as (_ & _ & _ & evs & H4 & H5).
  destruct (m s) as [[a|e] s1]; cbn [fst snd] in *.
  - destruct (Hf a s1) as (evs' & G1 & G2).
    exists (evs ++ evs'). split; [by apply Forall_app|].
    destruct (f a s1) as [[b|e] s2]; cbn [fst snd] in *.
    + by rewrite G2, H4, <- !app_assoc.
    + by rewrite G2, H4, <- !app_assoc.
  - by exists evs.
Qed.

(** X4. [model] closes the pool on return only. In a run that returns,
    closing the pool is the last operation, after the maps on the pool and
    the building of the tree; in a run that raises, the pool is not
    closed. No run creates a pool. *)
Theorem model_closes_pool_on_return_only (s : HMMCluster * world) :
  ∃ evs, Forall is_work evs ∧
    match model s with
    | (Ok _, s') => trace s'.2 = trace s.2 ++ evs ++ [PoolClose]
    | (Err _, s') => trace s'.2 = trace s.2 ++ evs
    end.
Proof.
  revert s. change (closes_on_return model). unfold model.
  eapply closes_bind; [apply (within_clock inputs)|intros start].
  eapply closes_bind; [apply within_cluster|intros []].
  eapply closes_bind.
  { eapply within_weaken; [|exact is_pool_map_work|apply within_trainModels].
    intros o o' H; exact H. }
  intros [].
  eapply closes_bind; [apply (within_clock inputs)|intros c].
  eapply closes_bind; [apply (within_modify inputs); by intros []|intros []].
  intros s. exists []. split; [constructor|]. done.
Qed.

(** ** The training stage, beyond the reassembly *)

Lemma succ_run {A} (m : M A) (s : HMMCluster * world) a s' :
  succ m s = Some (a, s') ↔ m s = (Ok a, s').
Proof.
  unfold succ. destruct (m s) as [[a1|e] s1]; split; intros [=]; by subst.
Qed.

Lemma quiet_ret {A} (a : A) : quiet (mret a).
Proof. by intros s. Qed.

Lemma quiet_bind {A B} (m : M A) (f : A → M B) :
  quiet m → (∀ a, quiet (f a)) → quiet (m ≫= f).
Proof.
  intros Hm Hf s. unfold mbind, M_bind. destruct (Hm s) as [H1 H2].
  destruct (m s) as [[a|e] s1]; cbn [fst snd] in *; [|done].
  destruct (Hf a s1) as [G1 G2]. split; congruence.
Qed.

Lemma quiet_get_self : quiet get_self.
Proof. by intros s. Qed.

Lemma quiet_lift {A} (r : result A) : quiet (lift r).
Proof. by intros s. Qed.

Lemma quiet_modify (f : HMMCluster → HMMCluster) :
  (∀ o, times (f o) = times o) → quiet (modify f).
Proof. intros Hf s. cbn. by rewrite Hf. Qed.

Lemma quiet_for {A B} (l : list A) (body : B → A → M B) :
  (∀ acc x, quiet (body acc x)) → ∀ acc, quiet (for_ l body acc).
Proof.
  intros Hbody. induction l as [|x l IH]; intros acc; cbn [for_].
  - apply quiet_ret.
  - apply quiet_bind; [apply Hbody|]. apply IH.
Qed.

Lemma quiet_components_append (k : Z) upd : quiet (components_append k upd).
Proof.
  unfold components_append.
  apply quiet_bind; [apply quiet_get_self|intros self].
  apply quiet_bind; [apply quiet_lift|intros comp].
  apply quiet_modify. by intros [].
Qed.

Lemma quiet_reassemble_k cluster_sizes seq_lens hmm_triples (idx : nat)
    (k : Z) :
  quiet (reassemble_k cluster_sizes seq_lens hmm_triples idx k).
Proof.
  unfold reassemble_k. apply quiet_bind.
  { apply quiet_for. intros idx1 i. unfold reassemble_cluster.
    apply quiet_bind; [apply quiet_lift|intros cluster_size].
    apply quiet_bind; [apply quiet_lift|intros inclust_seq_lens].
    apply quiet_bind; [apply quiet_lift|intros hmm_triple].
    apply quiet_bind; [apply quiet_components_append|intros []].
    apply quiet_bind; [apply quiet_components_append|intros []].
    apply quiet_bind; [apply quiet_components_append|intros []].
    apply quiet_ret. }
  intros idx'.
  apply quiet_bind; [apply quiet_get_self|intros self].
  apply quiet_bind; [apply quiet_lift|intros comp].
  apply quiet_bind; [apply quiet_modify; by intros []|intros []].
  apply quiet_ret.
Qed.

(** A training stage that returns found a partition for every k, read the
    clock twice around one map on the pool, and recorded one time. *)
Lemma trainModels_returns (o : HMMCluster) (w : world)
    (s' : HMMCluster * world) :
  succ _trainModels (o, w) = Some (tt, s') →
  ∃ parts,
    mapM (λ k, partitions o !! k) (k_values o) = Some parts ∧
    s'.2 = emit [PoolMap "trainHMM" (length (concat parts))] (tick (tick w)) ∧
    times s'.1
    = <["modeling" := clock_src w (S (ticks w)) - clock_src w (ticks w)]>
        (times o).
Proof.
  destruct (mapM (λ k, partitions o !! k) (k_values o)) as [parts|] eqn:Hp.
  - intros Hrun. exists parts. split; [done|].
    rewrite (succ_trainModels o w parts Hp) in Hrun.
    destruct (mapM trainHMM _) as [triples|];
      cbn [ok mbind option_bind] in Hrun; [|done].
    destruct (succ (for_ _ _ _) _) as [[idx s1]|] eqn:Hwalk;
      cbn [mbind option_bind snd] in Hrun; [|done].
    injection Hrun as <-. apply succ_run in Hwalk.
    match type of Hwalk with
    | for_ ?l0 ?body0 ?acc0 ?st0 = _ =>
        destruct (quiet_for l0 body0
                    (λ i k, quiet_reassemble_k _ _ _ i k) acc0 st0)
          as [Hw Ht]
    end.
    rewrite Hwalk in Hw, Ht. cbn [fst snd] in Hw, Ht.
    by rewrite Hw, Ht.
  - unfold _trainModels.
    rewrite succ_bind, succ_get_self. cbn [mbind option_bind fst snd].
    by rewrite succ_bind, succ_batch_ks, Hp.
Qed.

(** X5. A training stage that returns has found a partition for every k
    value and has submitted the clusters of all of them as one bulk job:
    its only operation on the pool is one map of [trainHMM], with one task
    per cluster of every partition. It has read the clock exactly twice,
    around that map, and has recorded under 'modeling' the second reading
    minus the first. *)
Theorem trainModels_single_bulk_job (s s' : HMMCluster * world) :
  succ _trainModels s = Some (tt, s') →
  ∃ parts,
    Forall2 (λ k p, partitions s.1 !! k = Some p) (k_values s.1) parts ∧
    trace s'.2
    = trace s.2 ++ [PoolMap "trainHMM" (sum_list (length <$> parts))] ∧
    ticks s'.2 = (2 + ticks s.2)%nat ∧
    clock_src s'.2 = clock_src s.2 ∧
    times s'.1 !! "modeling"
    = Some (clock_src s.2 (1 + ticks s.2) - clock_src s.2 (ticks s.2)).
Proof.
  destruct s as [o w]. cbn [fst snd].
  intros (parts & Hp & -> & Ht)%trainModels_returns.
  exists parts. split; [by apply mapM_Some|].
  split; [|split; [done|split; [done|]]].
  - cbn. do 3 f_equal. clear. induction parts as [|p parts IH]; [done|].
    cbn. by rewrite length_app, IH.
  - rewrite Ht. apply lookup_insert_eq.
Qed.

Lemma within_for_in {X A B} (π : HMMCluster → X) P (l : list A)
    (body : B → A → M B) :
  (∀ acc x, x ∈ l → within π P (body acc x)) →
  ∀ acc, within π P (for_ l body acc).
Proof.
  induction l as [|x l IH]; intros Hbody acc; cbn [for_].
  - apply within_ret.
  - apply within_bind; [apply Hbody; left|]. intros acc'. apply IH.
    intros acc1 y Hy. apply Hbody. by right.
Qed.

(** Reassembling the mixture of [k] writes the components and the
    composite of [k] only. *)
Lemma within_reassemble_k_other P cluster_sizes seq_lens hmm_triples
    (idx : nat) (k k0 : Z) :
  k ≠ k0 →
  within (λ o, (composites o !! k0, components o !! k0)) P
         (reassemble_k cluster_sizes seq_lens hmm_triples idx k).
Proof.
  intros Hne.
  assert (Happ : ∀ upd,
    within (λ o, (composites o !! k0, components o !! k0)) P
           (components_append k upd)).
  { intros upd. unfold components_append.
    apply within_bind; [apply within_get_self|intros self].
    apply within_bind; [apply within_lift|intros comp].
    apply within_modify. intros []. cbn. by rewrite lookup_insert_ne. }
  unfold reassemble_k. apply within_bind.
  { apply within_for. intros idx1 i. unfold reassemble_cluster.
    apply within_bind; [apply within_lift|intros cluster_size].
    apply within_bind; [apply within_lift|intros inclust_seq_lens].
    apply within_bind; [apply within_lift|intros hmm_triple].
    apply within_bind; [apply Happ|intros []].
    apply within_bind; [apply Happ|intros []].
    apply within_bind; [apply Happ|intros []].
    apply within_ret. }
  intros idx'.
  apply within_bind; [apply within_get_self|intros self].
  apply within_bind; [apply within_lift|intros comp].
  apply within_bind; [|intros []; apply within_ret].
  apply within_modify. intros []. cbn. by rewrite lookup_insert_ne.
Qed.

Lemma reassemble_k_stores cluster_sizes seq_lens hmm_triples (idx : nat)
    (k : Z) (s s' : HMMCluster * world) (idx' : nat) :
  succ (reassemble_k cluster_sizes seq_lens hmm_triples idx k) s
  = Some (idx', s') →
  ∃ c, components s'.1 !! k = Some c ∧
       composites s'.1 !! k
       = Some (hmmToTriple (tripleToHMM (compositeTriple c))).
Proof.
  unfold reassemble_k. rewrite succ_bind.
  destruct (succ (for_ _ _ _) s) as [[idx1 s1]|];
    cbn [mbind option_bind fst snd]; [|done].
  rewrite succ_bind, succ_get_self. cbn [mbind option_bind fst snd].
  rewrite succ_bind, succ_lift. unfold dict_get.
  destruct (components s1.1 !! k) as [c|] eqn:Hc;
    cbn [from_option ok mbind option_bind fst snd]; [|done].
  rewrite succ_bind, succ_modify. cbn [mbind option_bind fst snd].
  rewrite succ_ret. intros [= <- <-]. exists c. cbn [fst].
  destruct s1 as [[] w1]. cbn in *. split; [done|apply lookup_insert_eq].
Qed.

Lemma reassemble_ks_stores cluster_sizes seq_lens hmm_triples (ks : list Z) :
  ∀ (idx : nat) (s s' : HMMCluster * world) (idx' : nat),
  succ (for_ ks (reassemble_k cluster_sizes seq_lens hmm_triples) idx) s
  = Some (idx', s') →
  ∀ k, k ∈ ks →
    ∃ c, components s'.1 !! k = Some c ∧
         composites s'.1 !! k
         = Some (hmmToTriple (tripleToHMM (compositeTriple c))).
Proof.
  induction ks as [|k0 ks IH]; intros idx s s' idx'; cbn [for_].
  - intros _ k Hk. by apply elem_of_nil in Hk.
  - rewrite succ_bind.
    destruct (succ (reassemble_k _ _ _ _ _) s) as [[idx1 s1]|] eqn:H1;
      cbn [mbind option_bind fst snd]; [|done].
    intros Hrest k Hk.
    destruct (decide (k ∈ ks)) as [Hin|Hnin]; [by eapply IH|].
    apply elem_of_cons in Hk as [->|?]; [|done].
    apply reassemble_k_stores in H1 as (c & Hc1 & Hc2). exists c.
    apply succ_run in Hrest.
    destruct (within_for_in
                (λ o, (composites o !! k0, components o !! k0)) (λ _, True)
                ks (reassemble_k cluster_sizes seq_lens hmm_triples)
                (λ acc x Hx, within_reassemble_k_other _ _ _ _ acc x k0
                               (λ E, Hnin (eq_ind x (λ y, y ∈ ks) Hx k0 E)))
                idx1 s1) as (Hπ & _).
    rewrite Hrest in Hπ. cbn [fst snd] in Hπ.
    injection Hπ as Hπ1 Hπ2. by rewrite Hπ1, Hπ2.
Qed.

(** A training stage that returns ends with the walk over the k values. *)
Lemma trainModels_walk (o : HMMCluster) (w : world)
    (s' : HMMCluster * world) :
  succ _trainModels (o, w) = Some (tt, s') →
  ∃ cluster_sizes seq_lens hmm_triples st idx,
    succ (for_ (k_values o)
               (reassemble_k cluster_sizes seq_lens hmm_triples) 0%nat) st
    = Some (idx, s').
Proof.
  intros Hrun.
  destruct (trainModels_returns o w s' Hrun) as (parts & Hp & _).
  rewrite (succ_trainModels o w parts Hp) in Hrun.
  destruct (mapM trainHMM _) as [triples|];
    cbn [ok mbind option_bind] in Hrun; [|done].
  destruct (succ (for_ _ _ _) _) as [[idx s1]|] eqn:Hwalk;
    cbn [mbind option_bind snd] in Hrun; [|done].
  injection Hrun as <-. by eexists _, _, _, _, _.
Qed.

(** X6. After a training stage that returns, every k value has its
    components and its composite, and the composite is the triple of the
    composite model of those final components:
    [hmmToTriple(tripleToHMM(compositeTriple(components[k])))]. This holds
    whatever the numbers of clusters of the partitions are. *)
Theorem trainModels_composites (s s' : HMMCluster * world) :
  succ _trainModels s = Some (tt, s') →
  ∀ k, k ∈ k_values s.1 →
    ∃ c, components s'.1 !! k = Some c ∧
         composites s'.1 !! k
         = Some (hmmToTriple (tripleToHMM (compositeTriple c))).
Proof.
  destruct s as [o w]. cbn [fst]. intros Hrun k Hk.
  destruct (trainModels_walk o w s' Hrun)
    as (cluster_sizes & seq_lens & hmm_triples & st & idx & Hwalk).
  exact (reassemble_ks_stores _ _ _ _ _ _ _ _ Hwalk k Hk).
Qed.

Lemma batch_clusters_run (tm : Z) (part : list (list Sequence)) :
  ∀ b cs sl (s : HMMCluster * world),
  for_ part (batch_cluster tm) (b, cs, sl) s
  = (Ok (b ++ map (λ c, (c, tm)) part, cs ++ map length part,
         sl ++ map (map length) part), s).
Proof.
  induction part as [|c part IH]; intros b cs sl s.
  - cbn. by rewrite !app_nil_r.
  - cbn [for_ map]. unfold mbind at 1, M_bind.
    change (batch_cluster tm (b, cs, sl) c s)
      with (Ok (b ++ [(c, tm)], cs ++ [length c], sl ++ [map length c]), s).
    cbn beta iota. rewrite IH. by rewrite <- !app_assoc.
Qed.

(** Building the batch does not touch the state; it raises [KeyError] at
    the first k value without a partition. *)
Lemma batch_ks_run (ks : list Z) :
  ∀ b cs sl (o : HMMCluster) (w : world),
  for_ ks batch_k (b, cs, sl) (o, w)
  = match mapM (λ k, partitions o !! k) ks with
    | Some parts =>
        (Ok (b ++ map (λ c, (c, target_m o)) (concat parts),
             cs ++ map length (concat parts),
             sl ++ map (map length) (concat parts)), (o, w))
    | None => (Err KeyError, (o, w))
    end.
Proof.
  induction ks as [|k ks IH]; intros b cs sl o w.
  - cbn. by rewrite !app_nil_r.
  - cbn [for_ mapM]. unfold mbind at 1, M_bind.
    unfold batch_k at 1. unfold mbind at 1, M_bind, get_self.
    cbn [fst snd]. unfold mbind at 1, M_bind, lift, dict_get.
    destruct (partitions o !! k) as [part|];
      cbn [from_option mbind option_bind]; [|done].
    rewrite batch_clusters_run, IH.
    destruct (mapM _ ks) as [parts|]; cbn [mbind option_bind mret option_ret];
      [|done].
    cbn [concat]. by rewrite !map_app, <- !app_assoc.
Qed.

(** X7. Where some k value has no partition (the clustering stage has not
    run, or not for that k), the training stage raises [KeyError] on
    reading [self.partitions[k]], before anything is assigned or
    submitted: the object and the world are as they were. *)
Theorem trainModels_missing_partition (s : HMMCluster * world) (k : Z) :
  k ∈ k_values s.1 → partitions s.1 !! k = None →
  _trainModels s = (Err KeyError, s).
Proof.
  destruct s as [o w]. cbn [fst]. intros Hk Hnone.
  assert (HmapM : mapM (λ k, partitions o !! k) (k_values o) = None).
  { apply mapM_None, Exists_exists. by exists k. }
  unfold _trainModels. unfold mbind at 1, M_bind, get_self. cbn [fst snd].
  unfold mbind at 1, M_bind. by rewrite batch_ks_run, HmapM.
Qed.

(** X20. Training does not accumulate. With the k values distinct and a
    partition of exactly k clusters for every k: after two training stages
    in a row that return, the components of every k hold again k trained
    triples, as many as after the first stage, with the same cluster sizes
    and the same sequence-length lists. Every stage empties the components
    of the k values before reassembling them. (The triples themselves are
    those of the second training.) *)
Theorem trainModels_does_not_accumulate (s s1 s2 : HMMCluster * world) :
  NoDup (k_values s.1) →
  (∀ k, k ∈ k_values s.1 →
        ∃ p, partitions s.1 !! k = Some p ∧ Z.of_nat (length p) = k) →
  succ _trainModels s = Some (tt, s1) →
  succ _trainModels s1 = Some (tt, s2) →
  ∀ k, k ∈ k_values s.1 →
    ∃ c1 c2,
      components s1.1 !! k = Some c1 ∧ components s2.1 !! k = Some c2 ∧
      Z.of_nat (length (comp_hmm_triples c2)) = k ∧
      length (comp_hmm_triples c2) = length (comp_hmm_triples c1) ∧
      comp_cluster_sizes c2 = comp_cluster_sizes c1 ∧
      comp_seq_lens c2 = comp_seq_lens c1.
Proof.
  intros Hnd Hparts Hrun1 Hrun2.
  pose proof (trainModels_reassembly_exact s s1 Hnd Hparts Hrun1) as Hex1.
  assert (Hframe : k_values s1.1 = k_values s.1
                   ∧ partitions s1.1 = partitions s.1).
  { pose proof Hrun1 as Hr. apply succ_run in Hr.
    destruct (within_trainModels s) as (H & _). rewrite Hr in H.
    cbn [fst snd] in H. unfold outside_training in H.
    pose proof (f_equal (λ p, p.1.1.1.1.1) H) as Hin.
    pose proof (f_equal (λ p, p.1.1.1.2) H) as Hp.
    cbn [fst snd] in Hin, Hp. unfold inputs in Hin.
    by injection Hin as _ _ _ _ _ _ _ _ _ ->. }
  destruct Hframe as (Hks & Hpart).
  assert (Hnd1 : NoDup (k_values s1.1)) by (by rewrite Hks).
  assert (Hparts1 : ∀ k, k ∈ k_values s1.1 →
            ∃ p, partitions s1.1 !! k = Some p ∧ Z.of_nat (length p) = k)
    by (by rewrite Hks, Hpart).
  pose proof (trainModels_reassembly_exact s1 s2 Hnd1 Hparts1 Hrun2) as Hex2.
  intros k Hk.
  destruct (Hex1 k Hk) as (p & triples & Hp & Htr & Hc1).
  destruct (Hex2 k ltac:(by rewrite Hks)) as (p2 & triples2 & Hp2 & Htr2 & Hc2).
  rewrite Hpart, Hp in Hp2. injection Hp2 as <-.
  destruct (Hparts k Hk) as (p' & Hp' & Hlen).
  rewrite Hp in Hp'. injection Hp' as <-.
  apply Forall2_length in Htr, Htr2.
  eexists _, _. split; [exact Hc1|]. split; [exact Hc2|].
  cbn [comp_hmm_triples comp_cluster_sizes comp_seq_lens].
  split; [lia|]. split; [lia|done].
Qed.

(** ** The k-medoids strategy *)

Lemma kmed_store_fold (dm : list Q) (ks : list Z) (o : HMMCluster) :
  let o' := foldl (kmed_store dm) o ks in
  S_ o' = S_ o ∧ k_values o' = k_values o ∧ dist_matrix o' = dist_matrix o ∧
  ∀ k, k ∈ ks →
       labelings o' !! k = Some (kmedoids dm k 10).1.1 ∧
       partitions o' !! k = Some (partition (S_ o) (kmedoids dm k 10).1.1).
Proof.
  induction ks as [|k0 ks (IH1 & IH2 & IH3 & IH4)] using rev_ind.
  - cbn. split; [done|]. split; [done|]. split; [done|]. intros k Hk.
    by apply elem_of_nil in Hk.
  - rewrite foldl_app. cbn [foldl]. cbn zeta in *.
    split; [done|]. split; [done|]. split; [done|]. intros k Hk. cbn.
    destruct (decide (k0 = k)) as [->|Hne].
    + rewrite !lookup_insert_eq. by rewrite IH1.
    + rewrite !lookup_insert_ne by done. apply IH4.
      apply elem_of_app in Hk as [Hk|Hk]; [done|].
      apply elem_of_cons in Hk as [->|Hk]; [done|by apply elem_of_nil in Hk].
Qed.

Lemma succ_kMedoids_i (results : list (list Z * Q * Z)) (i : nat) (k : Z)
    (r : list Z * Q * Z) (o : HMMCluster) (w : world) :
  k_values o !! i = Some k → results !! i = Some r →
  succ (kMedoids_i results tt i) (o, w)
  = Some (tt, (set_partitions <[k := partition (S_ o) r.1.1]>
                 (set_labelings <[k := r.1.1]> o), w)).
Proof.
  intros Hk Hr. unfold kMedoids_i.
  rewrite succ_bind, succ_get_self. cbn [mbind option_bind fst snd].
  rewrite succ_bind, succ_lift. unfold py_index. rewrite Hk.
  cbn [from_option ok mbind option_bind fst snd].
  rewrite succ_bind, succ_lift. rewrite Hr.
  cbn [from_option ok mbind option_bind fst snd].
  destruct r as [[labels error] nfound].
  rewrite succ_bind, succ_modify. cbn [mbind option_bind fst snd].
  by rewrite succ_modify.
Qed.

Lemma succ_kMedoids_loop (dm : list Q) (ks2 : list Z) :
  ∀ (ks1 : list Z) (o : HMMCluster) (w : world),
  k_values o = ks1 ++ ks2 →
  succ (for_ (seq (length ks1) (length ks2))
             (kMedoids_i ((λ k, kmedoids dm k 10) <$> ks1 ++ ks2)) tt) (o, w)
  = Some (tt, (foldl (kmed_store dm) o ks2, w)).
Proof.
  induction ks2 as [|k ks2 IH]; intros ks1 o w Hks; [done|].
  cbn [length seq for_ foldl]. rewrite succ_bind.
  rewrite (succ_kMedoids_i _ (length ks1) k (kmedoids dm k 10)).
  2:{ by rewrite Hks, list_lookup_middle. }
  2:{ by rewrite list_lookup_fmap, list_lookup_middle. }
  cbn [mbind option_bind fst snd].
  change (set_partitions _ (set_labelings _ o)) with (kmed_store dm o k).
  specialize (IH (ks1 ++ [k]) (kmed_store dm o k) w).
  rewrite length_app, Nat.add_1_r, <- app_assoc in IH. apply IH.
  by destruct o.
Qed.

Lemma succ_kMedoids (s : HMMCluster * world) :
  succ _kMedoids s =
  p ← succ _getDistMatrix s;
  Some (tt, (foldl (kmed_store p.1) (set_dist_matrix (Some p.1) p.2.1)
                   (k_values p.2.1),
             emit [PoolMap "kMedoids" (length (k_values p.2.1))] p.2.2)).
Proof.
  unfold _kMedoids. rewrite succ_bind.
  destruct (succ _getDistMatrix s) as [[dm [o1 w1]]|];
    cbn [mbind option_bind fst snd]; [|done].
  rewrite succ_bind, succ_modify. cbn [mbind option_bind fst snd].
  rewrite succ_bind, succ_get_self. cbn [mbind option_bind fst snd].
  rewrite succ_bind, succ_pool_map.
  rewrite (mapM_Ok_map _ (λ a : list Q * Z * Z, kmedoids a.1.1 a.1.2 a.2))
    by (by intros [[d k] n] _).
  cbn [ok mbind option_bind fst snd]. rewrite length_fmap.
  change (k_values (set_dist_matrix (Some dm) o1)) with (k_values o1).
  change (map ?f (?g <$> ?l)) with (f <$> (g <$> l)).
  rewrite <- list_fmap_compose. unfold compose. cbn [fst snd].
  apply (succ_kMedoids_loop dm (k_values o1) []). done.
Qed.

(** X8. A k-medoids clustering that returns has stored the distance
    matrix, has submitted, after the maps of the distance stage, one map
    of [kMedoids] with one task per k value, and has stored for every k
    value the labels [kmedoids(dist_matrix, k, 10)] returned and the
    partition of the sequences by those labels. *)
Theorem kMedoids_partitions (s s' : HMMCluster * world) :
  succ _kMedoids s = Some (tt, s') →
  ∃ dm evs,
    fst <$> succ _getDistMatrix s = Some dm ∧
    dist_matrix s'.1 = Some dm ∧
    trace s'.2
    = trace s.2 ++ evs ++ [PoolMap "kMedoids" (length (k_values s.1))] ∧
    Forall is_pool_map evs ∧
    ∀ k, k ∈ k_values s.1 →
      let labels := (kmedoids dm k 10).1.1 in
      labelings s'.1 !! k = Some labels ∧
      partitions s'.1 !! k = Some (partition (S_ s.1) labels).
Proof.
  rewrite succ_kMedoids.
  destruct (succ _getDistMatrix s) as [[dm [o1 w1]]|] eqn:Hdm;
    cbn [mbind option_bind fst snd]; [|done].
  intros [= <-]. cbn [fst snd]. apply succ_run in Hdm.
  destruct (within_getDistMatrix s) as (Hout & _ & _ & evs & Hevs & Hmaps).
  rewrite Hdm in Hout, Hevs. cbn [fst snd] in Hout, Hevs.
  pose proof (f_equal (λ p, p.1.1.1.1.1.1) Hout) as Hin.
  cbn [fst snd] in Hin. unfold inputs in Hin.
  injection Hin as HS _ _ _ _ _ _ _ _ Hks.
  destruct (kmed_store_fold dm (k_values o1) (set_dist_matrix (Some dm) o1))
    as (_ & _ & Hmat & Hstore).
  exists dm, evs. split; [done|]. split; [by rewrite Hmat|].
  split; [cbn; by rewrite Hevs, Hks, app_assoc|]. split; [done|].
  intros k Hk. rewrite <- Hks in Hk. destruct (Hstore k Hk) as [Hl Hp].
  cbn [S_ set_dist_matrix] in Hp. rewrite HS in Hp. done.
Qed.

(** ** The recorded times *)

(** A clustering stage that returns has read the clock first and last,
    and has recorded the difference. *)
Lemma cluster_returns (o : HMMCluster) (w : world) (s' : HMMCluster * world) :
  succ _cluster (o, w) = Some (tt, s') →
  clock_src s'.2 = clock_src w ∧ (2 + ticks w ≤ ticks s'.2)%nat ∧
  times s'.1 !! "clustering"
  = Some (clock_src w (ticks s'.2 - 1) - clock_src w (ticks w)).
Proof.
  unfold _cluster.
  rewrite succ_bind, succ_clock. cbn [mbind option_bind fst snd].
  rewrite succ_bind, succ_get_self. cbn [mbind option_bind fst snd].
  rewrite succ_bind.
  match goal with
  | |- context [succ ?b (o, tick w)] =>
      assert (Hb : within outside_clustering is_work b)
        by (repeat case_decide;
            [apply within_hierarchical|apply within_kMedoids
            |apply within_ret]);
      destruct (succ b (o, tick w)) as [[[] s1]|] eqn:Hrun;
      cbn [mbind option_bind fst snd]; [|done];
      apply succ_run in Hrun;
      destruct (Hb (o, tick w)) as (_ & Hclk & Hticks & _);
      rewrite Hrun in Hclk, Hticks
  end.
  cbn [fst snd tick clock_src ticks] in Hclk, Hticks.
  rewrite succ_bind, succ_clock. cbn [mbind option_bind fst snd].
  rewrite succ_modify. intros [= <-]. cbn [fst snd tick clock_src ticks].
  split; [done|]. split; [lia|].
  destruct s1 as [[] w1]. cbn. rewrite lookup_insert_eq.
  cbn in Hclk. rewrite Hclk. by rewrite Nat.sub_0_r.
Qed.

(** X9. After a run of [model] that returns, with T clock readings taken
    in all up to the end of the run and t0 before it: the time recorded
    under 'total' is the last reading minus the first of the run, the one
    under 'clustering' is the last reading of the clustering stage minus
    its first, and the one under 'modeling' is the reading after the map
    of the training stage minus the reading before it. Each is the
    difference of the readings at the end and at the start of its stage,
    and the stages lie inside the run in this order. *)
Theorem model_times (s s' : HMMCluster * world) :
  succ model s = Some (tt, s') →
  let clk := clock_src s.2 in
  let t0 := ticks s.2 in
  let T := ticks s'.2 in
  (t0 + 6 ≤ T)%nat ∧
  times s'.1 !! "total" = Some (clk (T - 1)%nat - clk t0) ∧
  times s'.1 !! "clustering" = Some (clk (T - 4)%nat - clk (t0 + 1)%nat) ∧
  times s'.1 !! "modeling" = Some (clk (T - 2)%nat - clk (T - 3)%nat).
Proof.
  destruct s as [o w]. unfold model.
  rewrite succ_bind, succ_clock. cbn [mbind option_bind fst snd].
  rewrite succ_bind.
  destruct (succ _cluster (o, tick w)) as [[[] [o2 w2]]|] eqn:Hc;
    cbn [mbind option_bind fst snd]; [|done].
  rewrite succ_bind.
  destruct (succ _trainModels (o2, w2)) as [[[] [o3 w3]]|] eqn:Ht;
    cbn [mbind option_bind fst snd]; [|done].
  rewrite succ_bind, succ_clock. cbn [mbind option_bind fst snd].
  rewrite succ_bind, succ_modify. cbn [mbind option_bind fst snd].
  rewrite succ_log. intros [= <-].
  apply cluster_returns in Hc as (Hc1 & Hc2 & Hc3).
  apply trainModels_returns in Ht as (parts & _ & Hw3 & Ht3).
  cbn [fst snd tick emit clock_src ticks] in *. subst w3.
  cbn [fst snd tick emit clock_src ticks] in *.
  rewrite Hc1 in *.
  replace (S (S (S (ticks w2))) - 1)%nat with (S (S (ticks w2))) by lia.
  replace (S (S (S (ticks w2))) - 2)%nat with (S (ticks w2)) by lia.
  replace (S (S (S (ticks w2))) - 3)%nat with (ticks w2) by lia.
  replace (S (S (S (ticks w2))) - 4)%nat with (ticks w2 - 1)%nat by lia.
  replace (ticks w + 1)%nat with (S (ticks w)) by lia.
  split; [lia|]. destruct o3. cbn [times set_times] in *.
  split; [apply lookup_insert_eq|].
  rewrite !lookup_insert_ne by done. rewrite Ht3. split.
  - by rewrite lookup_insert_ne.
  - apply lookup_insert_eq.
Qed.

(** ** The distance stage at its edges *)

Lemma succ_None_raises {A} (m : M A) (s : HMMCluster * world) :
  succ m s = None ↔ ∃ e, (m s).1 = Err e.
Proof.
  unfold succ. destruct (m s) as [[a|e] s1]; cbn; split; try done.
  - by intros [? [=]].
  - by exists e.
Qed.

(** A matrix of the HMM strategy comes from Smyth's default models, and
    has an entry. *)
Lemma hmm_dist_matrix_smyth (self : HMMCluster) (m : list Q) :
  hmm_dist_matrix self = Some m → hmm_init self = "smyth" ∧ m ≠ [].
Proof.
  unfold hmm_dist_matrix.
  destruct (init_models self) as [hmms|] eqn:Hinit;
    cbn [ok mbind option_bind]; [|done].
  destruct (run_items _) as [condensed|] eqn:Hrun;
    cbn [ok mbind option_bind]; [|done].
  destruct (py_min_list _) as [mn|] eqn:Hmin;
    cbn [ok mbind option_bind]; [|done].
  intros [= <-]. split; [|by destruct condensed].
  destruct (decide (hmm_init self = "smyth")) as [Hi|Hi]; [done|exfalso].
  pose proof (init_models_not_smyth self hmms Hi Hinit) as Hnone.
  unfold run_items in Hrun. rewrite getHMMBatchItems_eq in Hrun.
  apply mapM_Some in Hrun. apply Forall2_fmap_l in Hrun.
  cbn [S_ n_ init_hmms set_init_hmms] in Hrun.
  destruct Hrun as [|[i j] d ps ds Hd _]; [done|].
  cbn beta iota in Hd.
  apply symDistance_item in Hd as (? & ? & t_i & ? & _ & _ & Hti & _).
  rewrite Forall_forall in Hnone.
  by specialize (Hnone (Some t_i) ltac:(by eapply list_elem_of_lookup_2)).
Qed.

Lemma pair_indices_lt2 (n : nat) : (n < 2)%nat → pair_indices n = [].
Proof. intros Hn. by destruct n as [|[|n]]; [| |lia]. Qed.

(** X10. With fewer than two sequences the HMM strategy returns no
    matrix: there is no pair, and the minimum of the empty list of
    distances does not exist. Where Smyth's default models of the
    sequences are built, the exception is the [ValueError] of [min]. *)
Theorem hmm_distance_needs_two_sequences (s : HMMCluster * world) :
  (n_ s.1 < 2)%nat →
  (∃ e, (_getHMMDistMatrix s).1 = Err e) ∧
  ∀ models : list Triple,
    hmm_init s.1 = "smyth" →
    Forall2 (λ seq t, smythDefaultTriple ([seq], target_m s.1) = Ok t)
            (S_ s.1) models →
    (_getHMMDistMatrix s).1 = Err ValueError.
Proof.
  intros Hn. split.
  - apply succ_None_raises.
    destruct (succ _getHMMDistMatrix s) as [[m s']|] eqn:Hrun; [|done].
    exfalso. apply (f_equal (fmap fst)) in Hrun. cbn in Hrun.
    unfold _getHMMDistMatrix in Hrun.
    rewrite getHMMDistMatrix_with_matrix in Hrun by done.
    destruct (hmm_dist_matrix_smyth _ _ Hrun) as [_ Hne].
    apply hmm_dist_matrix_entries in Hrun as (models & _ & HF).
    rewrite pair_indices_lt2 in HF by done. by inversion HF.
  - destruct s as [o w]. cbn [fst] in *. intros models Hi Hmod.
    assert (Hinit : mapM (λ p, Some <$> smythDefaultTriple p)
                         ((λ s, ([s], target_m o)) <$> S_ o)
                    = Ok (Some <$> models)).
    { apply mapM_Ok_Forall2, Forall2_fmap_l, Forall2_fmap_r.
      eapply Forall2_impl; [exact Hmod|]. intros seq t Ht.
      unfold compose. cbn beta. by rewrite Ht. }
    assert (HN : ((Z.of_nat (n_ o) * (Z.of_nat (n_ o) + 1)) `div` 2
                  - Z.of_nat (n_ o))%Z = 0%Z)
      by (by rewrite n_batchitems_eq, pair_indices_lt2).
    assert (Hitems : ∀ tf hmms,
              _getHMMBatchItems (set_times tf (set_init_hmms hmms o)) = []).
    { intros tf hmms. rewrite getHMMBatchItems_eq.
      cbn [n_ set_times set_init_hmms]. by rewrite pair_indices_lt2. }
    unfold _getHMMDistMatrix, _getHMMDistMatrix_with.
    unfold mbind, M_bind, get_self, clock, lift, pool_map, log, modify.
    cbn [fst snd]. rewrite decide_True by done. cbn [from_option fst snd].
    unfold mbind, M_bind, lift. rewrite Hinit, HN. cbn [fst snd].
    change (py_idiv 0 500000) with (@Ok Z 0%Z). cbn beta iota.
    change (xrange 0 (0 + 1)) with [0%Z]. cbn [for_].
    unfold hmm_mini_batch.
    unfold mbind, M_bind, get_self, lift, pool_map, log.
    cbn [fst snd]. rewrite Hitems.
    change (islice [] (500000 * 0) (Z.min (500000 * (0 + 1)) 0))
      with (@Ok (list (Sequence * option Triple * (Sequence * option Triple)))
                []).
    cbn beta iota. unfold mbind, M_bind, lift, mret, M_ret. by cbn.
Qed.

(** X11. The HMM strategy returns a matrix only with Smyth's
    initialisation. With any other [hmm_init], and so with 'random', which
    the constructor accepts, it raises: [randomDefaultTriple] returns
    [None] for every sequence, which [symDistance] cannot take as a
    triple. *)
Theorem hmm_distance_needs_smyth_init (s : HMMCluster * world) :
  hmm_init s.1 ≠ "smyth" → ∃ e, (_getHMMDistMatrix s).1 = Err e.
Proof.
  intros Hi. apply succ_None_raises.
  destruct (succ _getHMMDistMatrix s) as [[m s']|] eqn:Hrun; [|done].
  exfalso. apply (f_equal (fmap fst)) in Hrun. cbn in Hrun.
  unfold _getHMMDistMatrix in Hrun.
  rewrite getHMMDistMatrix_with_matrix in Hrun by done.
  by destruct (hmm_dist_matrix_smyth _ _ Hrun) as [? _].
Qed.

(** X12. After an HMM distance stage that returns, [init_hmms] holds
    Smyth's default model of every sequence, each built from that sequence
    alone with target_m states asked, in the order of the sequences. The
    stage has read the clock four times, and the time recorded under
    'init_hmms' is the second reading minus the first. *)
Theorem hmm_stage_stores_default_models (s s' : HMMCluster * world)
    (m : list Q) :
  succ _getHMMDistMatrix s = Some (m, s') →
  ∃ models : list Triple,
    Forall2 (λ seq t, smythDefaultTriple ([seq], target_m s.1) = Ok t)
            (S_ s.1) models ∧
    init_hmms s'.1 = Some <$> models ∧
    ticks s'.2 = (4 + ticks s.2)%nat ∧
    times s'.1 !! "init_hmms"
    = Some (clock_src s.2 (1 + ticks s.2) - clock_src s.2 (ticks s.2)).
Proof.
  intros Hrun. pose proof (f_equal (fmap fst) Hrun) as Hm. cbn in Hm.
  unfold _getHMMDistMatrix in Hm, Hrun.
  rewrite getHMMDistMatrix_with_matrix in Hm by done.
  destruct (hmm_dist_matrix_smyth _ _ Hm) as [Hi _].
  destruct s as [o w]. cbn [fst snd] in *.
  rewrite succ_getHMMDistMatrix_with in Hrun by done.
  destruct (init_models o) as [hmms|] eqn:Hinit;
    cbn [ok mbind option_bind] in Hrun; [|done].
  destruct (run_items _) as [condensed|];
    cbn [ok mbind option_bind] in Hrun; [|done].
  destruct (ok (py_min_list _)) as [mn|];
    cbn [ok mbind option_bind] in Hrun; [|done].
  injection Hrun as <- <-.
  destruct (init_models_smyth o hmms Hi Hinit) as (models & -> & Hmod).
  exists models. split; [done|]. split; [done|]. split; [done|].
  cbn. rewrite lookup_insert_ne by done. apply lookup_insert_eq.
Qed.

Lemma fmap_const_replicate {A B} (f : A → B) (c : B) (l : list A) :
  (∀ x, x ∈ l → f x = c) → f <$> l = replicate (length l) c.
Proof.
  induction l as [|x l IH]; intros Hf; [done|].
  cbn. rewrite (Hf x) by left. f_equal. apply IH. intros y Hy. apply Hf.
  by right.
Qed.

(** The sizes of the mini batches: full ones, then the remainder. *)
Lemma mini_batch_events_sizes (self : HMMCluster) (bs : Z) :
  (0 < bs)%Z →
  let N := length (pair_indices (n_ self)) in
  let b := Z.to_nat bs in
  mini_batch_events self bs
  = replicate (N / b) (PoolMap "symDistance" b)
    ++ [PoolMap "symDistance" (N mod b)].
Proof.
  intros Hbs N b. unfold mini_batch_events.
  rewrite length_getHMMBatchItems. fold N.
  assert (Hb : (0 < b)%nat) by (subst b; lia).
  assert (Hq : (Z.of_nat N / bs)%Z = Z.of_nat (N / b)).
  { subst b. rewrite Nat2Z.inj_div. by rewrite Z2Nat.id by lia. }
  assert (Hdm : N = (b * (N / b) + N mod b)%nat) by (apply Nat.div_mod; lia).
  assert (Hmod : (N mod b < b)%nat) by (apply Nat.mod_upper_bound; lia).
  assert (HlenN : length (_getHMMBatchItems self) = N)
    by apply length_getHMMBatchItems.
  rewrite Hq. replace (Z.of_nat (N / b) + 1)%Z with (Z.of_nat (S (N / b)))
    by lia.
  rewrite seqZ_S, fmap_app. cbn [fmap list_fmap]. f_equal.
  - rewrite (fmap_const_replicate _ (PoolMap "symDistance" b)).
    { by rewrite length_seqZ, Nat2Z.id. }
    intros i [Hi1 Hi2]%elem_of_seqZ. f_equal.
    rewrite mini_batch_items_eq by lia.
    rewrite length_take, length_drop, HlenN.
    assert (Z.to_nat (bs * i) = b * Z.to_nat i)%nat
      by (subst b; rewrite Z2Nat.inj_mul by lia; done).
    assert (Z.to_nat i < N / b)%nat by lia. nia.
  - f_equal. f_equal. rewrite Z.add_0_l.
    rewrite mini_batch_items_eq by lia.
    rewrite length_take, length_drop, HlenN.
    assert (Z.to_nat (bs * Z.of_nat (N / b)) = b * (N / b))%nat
      by (subst b; rewrite Z2Nat.inj_mul, Nat2Z.id by lia; done).
    lia.
Qed.

(** X13. An HMM distance stage that returns has mapped on the pool as
    follows, for N = n(n-1)/2 pairs and mini batches of b pairs (b is
    500000 in [_getHMMDistMatrix]): first the initialiser over the n
    sequences, then [symDistance] over N div b full mini batches of b
    pairs each, then [symDistance] over a last mini batch of the N mod b
    remaining pairs, which is empty when b divides N. *)
Theorem hmm_stage_pool_maps (bs : Z) (s s' : HMMCluster * world) (m : list Q) :
  (0 < bs)%Z →
  succ (_getHMMDistMatrix_with bs) s = Some (m, s') →
  let N := (n_ s.1 * (n_ s.1 - 1) / 2)%nat in
  let b := Z.to_nat bs in
  trace s'.2
  = trace s.2
    ++ PoolMap "smythDefaultTriple" (length (S_ s.1))
       :: replicate (N / b) (PoolMap "symDistance" b)
    ++ [PoolMap "symDistance" (N mod b)].
Proof.
  intros Hbs Hrun. pose proof (f_equal (fmap fst) Hrun) as Hm. cbn in Hm.
  rewrite getHMMDistMatrix_with_matrix in Hm by done.
  destruct (hmm_dist_matrix_smyth _ _ Hm) as [Hi _].
  destruct s as [o w]. cbn [fst snd] in *.
  rewrite succ_getHMMDistMatrix_with in Hrun by done.
  destruct (ok (init_models o)) as [hmms|];
    cbn [mbind option_bind] in Hrun; [|done].
  destruct (run_items _) as [condensed|];
    cbn [mbind option_bind] in Hrun; [|done].
  destruct (ok (py_min_list _)) as [mn|];
    cbn [mbind option_bind] in Hrun; [|done].
  injection Hrun as <- <-. cbn [snd emit tick trace].
  rewrite mini_batch_events_sizes by done.
  cbn [n_ set_times set_init_hmms]. rewrite length_pair_indices.
  unfold init_fn_name. by rewrite decide_True.
Qed.

(** X14. On an object whose [n] is the number of its sequences, the edit
    distance stage always returns: a matrix of n(n-1)/2 entries (none for
    fewer than two sequences), after one map of [levDistance] over that
    many pairs. It reads the clock twice, around the map, and records
    under 'distance_matrix' the second reading minus the first. *)
Theorem edit_distance_stage (s : HMMCluster * world) :
  n_ s.1 = length (S_ s.1) →
  let N := (n_ s.1 * (n_ s.1 - 1) / 2)%nat in
  ∃ m s',
    _getEditDistMatrix s = (Ok m, s') ∧
    length m = N ∧
    trace s'.2 = trace s.2 ++ [PoolMap "levDistance" N] ∧
    ticks s'.2 = (2 + ticks s.2)%nat ∧
    times s'.1 !! "distance_matrix"
    = Some (clock_src s.2 (1 + ticks s.2) - clock_src s.2 (ticks s.2)).
Proof.
  intros Hn N. destruct s as [self w]. cbn [fst snd] in *.
  assert (Hall : is_Some (mapM (λ '(i, j),
      s_i ← S_ self !! i; s_j ← S_ self !! j; Some (s_i, s_j))
      (pair_indices (n_ self)))).
  { apply mapM_is_Some, Forall_forall.
    intros [i j] Hij%elem_of_pair_indices. cbn.
    destruct (lookup_lt_is_Some_2 (S_ self) i ltac:(lia)) as [s_i ->].
    destruct (lookup_lt_is_Some_2 (S_ self) j ltac:(lia)) as [s_j ->].
    by eexists. }
  destruct Hall as [batch Hbatch].
  pose proof (succ_getEditDistMatrix self w) as Hrun.
  rewrite Hbatch in Hrun. cbn [mbind option_bind] in Hrun.
  apply succ_run in Hrun. eexists _, _. split; [exact Hrun|].
  apply length_mapM in Hbatch. rewrite length_pair_indices in Hbatch.
  cbn [fst snd emit tick trace ticks times set_times].
  split; [by rewrite length_map|]. split; [by rewrite <- Hbatch|].
  split; [done|]. apply lookup_insert_eq.
Qed.

(** ** The worker functions and the constructor *)

Lemma set_add_distinct (o : Q) (d : list Q) :
  (∀ i j x y, d !! i = Some x → d !! j = Some y → x == y → i = j) →
  ∀ i j x y, set_add o d !! i = Some x → set_add o d !! j = Some y →
             x == y → i = j.
Proof.
  intros Hd. unfold set_add. destruct (existsb (Qeq_bool o) d) eqn:E; [done|].
  assert (Hnew : ∀ i z, d !! i = Some z → ¬ o == z).
  { intros i z Hz Hoz.
    assert (existsb (Qeq_bool o) d = true); [|congruence].
    apply existsb_exists. exists z. split; [|by apply Qeq_bool_iff].
    apply list_elem_of_In. by eapply list_elem_of_lookup_2. }
  intros i j x y Hi Hj Hxy.
  apply lookup_app_Some in Hi as [Hi|[Hi1 Hi2]];
    apply lookup_app_Some in Hj as [Hj|[Hj1 Hj2]].
  - by eapply Hd.
  - apply list_lookup_singleton_Some in Hj2 as [_ <-].
    exfalso. apply (Hnew i x Hi). by symmetry.
  - apply list_lookup_singleton_Some in Hi2 as [_ <-].
    exfalso. by apply (Hnew j y Hj).
  - apply list_lookup_singleton_Some in Hi2 as [? _].
    apply list_lookup_singleton_Some in Hj2 as [? _]. lia.
Qed.

Lemma length_set_add (o : Q) (d : list Q) :
  (length (set_add o d) ≤ S (length d))%nat.
Proof.
  unfold set_add. destruct (existsb _ _); [lia|].
  rewrite length_app. cbn. lia.
Qed.

(** X15. [prepareSeqs] returns the observations of all sequences, in
    order, each as a one-element vector, and their distinct values: a
    value is among the distinct ones exactly when it equals some
    observation, no two of the distinct values are equal, and there are at
    most as many of them as observations. *)
Theorem prepareSeqs_merged_distinct (Ss : list Sequence) :
  let merged := (prepareSeqs Ss).1 in
  let distinct := (prepareSeqs Ss).2 in
  merged = (λ o, [o]) <$> concat Ss ∧
  (∀ x, (∃ y, y ∈ distinct ∧ x == y) ↔ (∃ y, y ∈ concat Ss ∧ x == y)) ∧
  (∀ i j x y, distinct !! i = Some x → distinct !! j = Some y →
              x == y → i = j) ∧
  (length distinct ≤ length merged)%nat.
Proof.
  cbn zeta. split; [by rewrite prepareSeqs_eq|].
  split; [apply prepareSeqs_distinct|].
  rewrite prepareSeqs_eq. cbn [fst snd]. rewrite length_map.
  assert (H : ∀ (l d : list Q),
    (∀ i j x y, d !! i = Some x → d !! j = Some y → x == y → i = j) →
    (∀ i j x y, foldl (λ d o, set_add o d) d l !! i = Some x →
                foldl (λ d o, set_add o d) d l !! j = Some y →
                x == y → i = j) ∧
    (length (foldl (λ d o, set_add o d) d l) ≤ length d + length l)%nat).
  { induction l as [|o l IH]; intros d Hd; cbn [foldl length].
    - split; [done|lia].
    - destruct (IH (set_add o d) (set_add_distinct o d Hd)) as [H1 H2].
      split; [done|]. pose proof (length_set_add o d). lia. }
  destruct (H (concat Ss) []) as [H1 H2]; [by intros i j x y [=]|].
  split; [done|]. cbn in H2. lia.
Qed.

(** X16. Rabiner's symmetrized distance is symmetric: on the two
    (sequence, model) pairs in either order, [symDistance] raises the
    same exception or returns equal values. *)
Theorem symDistance_symmetric
    (pair1 pair2 : Sequence * option Triple) :
  match symDistance (pair1, pair2), symDistance (pair2, pair1) with
  | Ok d1, Ok d2 => d1 == d2
  | Err e1, Err e2 => e1 = e2
  | _, _ => False
  end.
Proof.
  destruct pair1 as [seq1 [t1|]], pair2 as [seq2 [t2|]]; cbn; try done.
  unfold py_assert.
  destruct (Qle_bool (loglikelihood (tripleToHMM t2) seq1) 0),
           (Qle_bool (loglikelihood (tripleToHMM t1) seq2) 0); cbn; try done.
  by rewrite Qplus_comm.
Qed.

(** X17. With a valid configuration and a number of processes that
    [Pool] accepts (None, for one per CPU, or at least one: [Pool(0)]
    raises), the constructor returns the object after creating the pool,
    once: [n] is the number of sequences, the k values are the integers
    from min_k to max_k, each once and in ascending order (so there are
    max_k - min_k + 1 of them), and the distance matrix, the default
    models and every result dict are empty. *)
Theorem init_valid_object
    (Ss : list Sequence) (target_m min_k max_k : Z)
    (dist_func hmm_init clust_alg train_mode : string)
    (n_jobs : option nat) (w : world) :
  n_jobs ≠ Some 0%nat →
  (min_k ≤ max_k)%Z →
  dist_func ∈ ["hmm"; "editdistance"] →
  hmm_init ∈ ["smyth"; "random"] →
  clust_alg ∈ ["hierarchical"; "kmedoids"] →
  train_mode ∈ ["blockdiag"; "cluster"] →
  ∃ o,
    __init__ Ss target_m min_k max_k dist_func hmm_init clust_alg train_mode
             n_jobs w = (Ok o, emit [PoolCreate n_jobs] w) ∧
    S_ o = Ss ∧ n_ o = length Ss ∧
    (∀ k, k ∈ k_values o ↔ (min_k ≤ k ≤ max_k)%Z) ∧
    NoDup (k_values o) ∧ StronglySorted Z.lt (k_values o) ∧
    Z.of_nat (length (k_values o)) = (max_k - min_k + 1)%Z ∧
    dist_matrix o = None ∧ init_hmms o = [] ∧
    components o = ∅ ∧ composites o = ∅ ∧ partitions o = ∅ ∧
    labelings o = ∅ ∧ times o = ∅.
Proof.
  intros _ Hk Hd Hh Hc Ht. eexists. split; [by apply init_valid|].
  cbn [S_ n_ k_values dist_matrix init_hmms components composites partitions
       labelings times]. unfold xrange.
  split; [done|]. split; [done|]. split.
  { intros k. rewrite elem_of_seqZ. lia. }
  split; [apply NoDup_seqZ|]. split.
  { replace (max_k + 1 - min_k)%Z with (Z.of_nat (Z.to_nat (max_k + 1 - min_k)))
      by lia.
    generalize (Z.to_nat (max_k + 1 - min_k)). clear. intros n. revert min_k.
    induction n as [|n IH]; intros m; [constructor|].
    rewrite seqZ_cons by lia. constructor.
    - replace (Z.pred (Z.of_nat (S n))) with (Z.of_nat n) by lia. apply IH.
    - apply Forall_forall. intros k Hk%elem_of_seqZ. lia. }
  split; [rewrite length_seqZ; lia|done].
Qed.

(** ** The run as a whole *)

(** X18. After a run of [model] that returns, every k value has a
    partition, the components of a mixture and its composite, and the
    composite is the triple of the composite model of the components. *)
Theorem model_populates (s s' : HMMCluster * world) :
  succ model s = Some (tt, s') →
  ∀ k, k ∈ k_values s.1 →
    ∃ p c,
      partitions s'.1 !! k = Some p ∧
      components s'.1 !! k = Some c ∧
      composites s'.1 !! k
      = Some (hmmToTriple (tripleToHMM (compositeTriple c))).
Proof.
  destruct s as [o w]. unfold model.
  rewrite succ_bind, succ_clock. cbn [mbind option_bind fst snd].
  rewrite succ_bind.
  destruct (succ _cluster (o, tick w)) as [[[] [o2 w2]]|] eqn:Hc;
    cbn [mbind option_bind fst snd]; [|done].
  rewrite succ_bind.
  destruct (succ _trainModels (o2, w2)) as [[[] [o3 w3]]|] eqn:Ht;
    cbn [mbind option_bind fst snd]; [|done].
  rewrite succ_bind, succ_clock. cbn [mbind option_bind fst snd].
  rewrite succ_bind, succ_modify. cbn [mbind option_bind fst snd].
  rewrite succ_log. intros [= <-]. cbn [fst snd].
  intros k Hk.
  assert (Hks : k_values o2 = k_values o).
  { apply succ_run in Hc.
    destruct (within_cluster (o, tick w)) as (H & _). rewrite Hc in H.
    exact (f_equal (λ p, p.1.1.1.2) H). }
  rewrite <- Hks in Hk.
  destruct (trainModels_walk o2 w2 _ Ht) as (cs & sl & ht & st & idx & Hwalk).
  destruct (reassemble_ks_stores _ _ _ _ _ _ _ _ Hwalk k Hk)
    as (c & Hc1 & Hc2).
  destruct (trainModels_returns o2 w2 _ Ht) as (parts & Hparts & _).
  apply mapM_Some in Hparts.
  apply list_elem_of_lookup in Hk as [j Hj].
  destruct (Forall2_lookup_l _ _ _ _ _ Hparts Hj) as (p & _ & Hp).
  assert (Hpart : partitions o3 = partitions o2).
  { apply succ_run in Ht.
    destruct (within_trainModels (o2, w2)) as (H & _). rewrite Ht in H.
    exact (f_equal (λ p, p.1.1.1.2) H). }
  exists p, c. cbn [fst] in Hc1, Hc2. destruct o3. cbn in *.
  by rewrite Hpart.
Qed.

(** X19. Where the clustering algorithm is one of the two the constructor
    accepts and the distance stage raises, [model] raises the same
    exception and nothing is clustered or trained: the distance matrix,
    the partitions, the labelings, the components and the composites are
    as they were, and no time is recorded but those of the distance
    stage. *)
Theorem model_aborts_when_distance_stage_raises (s : HMMCluster * world)
    (e : exn) :
  clust_alg s.1 ∈ ["hierarchical"; "kmedoids"] →
  (_getDistMatrix s).1 = Err e →
  (model s).1 = Err e ∧
  let o' := (model s).2.1 in
  dist_matrix o' = dist_matrix s.1 ∧ partitions o' = partitions s.1 ∧
  labelings o' = labelings s.1 ∧ components o' = components s.1 ∧
  composites o' = composites s.1 ∧
  ∀ key, key ∉ ["init_hmms"; "distance_matrix"] →
         times o' !! key = times s.1 !! key.
Proof.
  destruct s as [o w]. cbn [fst]. intros Halg Hd.
  pose proof (sim_getDistMatrix (o, w) (o, tick (tick w)) eq_refl) as Hsim.
  destruct (_getDistMatrix (o, w)) as [[?|e1] ?]; cbn in Hd; [done|].
  injection Hd as ->.
  destruct (_getDistMatrix (o, tick (tick w))) as [[dm|e2] [o1 w1]] eqn:Hrun;
    [done|].
  destruct Hsim as [<- _].
  destruct (within_getDistMatrix (o, tick (tick w))) as (Hout & _).
  rewrite Hrun in Hout. cbn [fst snd] in Hout. unfold outside_distance in Hout.
  assert (Hmodel : model (o, w) = (Err e, (o1, w1))).
  { unfold model. unfold mbind at 1, M_bind, clock. cbn [fst snd].
    unfold mbind at 1, M_bind.
    unfold _cluster. unfold mbind at 1, M_bind, clock. cbn [fst snd].
    unfold mbind at 1, M_bind, get_self. cbn [fst snd].
    unfold mbind at 1, M_bind.
    apply elem_of_cons in Halg as [Ha|Halg].
    - rewrite decide_True by done. unfold _hierarchical.
      unfold mbind at 1, M_bind. by rewrite Hrun.
    - apply list_elem_of_singleton in Halg.
      rewrite decide_False, decide_True by (by rewrite ?Halg).
      unfold _kMedoids. unfold mbind at 1, M_bind. by rewrite Hrun. }
  rewrite Hmodel. cbn [fst snd]. split; [done|].
  split; [exact (f_equal (λ p, p.1.1.1.1.1.2) Hout)|].
  split; [exact (f_equal (λ p, p.1.1.1.1.2) Hout)|].
  split; [exact (f_equal (λ p, p.1.1.1.2) Hout)|].
  split; [exact (f_equal (λ p, p.1.1.2) Hout)|].
  split; [exact (f_equal (λ p, p.1.2) Hout)|].
  intros key Hkey. eapply times_except_lookup; [|exact Hkey].
  exact (f_equal snd Hout).
Qed.

End Smyth.

(** * The pipeline on concrete inputs *)

Abbreviation ex_smythDefaultTriple :=
  (smythDefaultTriple Ex.k_means Ex.mean Ex.std Ex.HMM Ex.tripleToHMM
     Ex.hmmToTriple Ex.baumWelch).
Abbreviation ex_trainHMM :=
  (trainHMM Ex.k_means Ex.mean Ex.std Ex.HMM Ex.tripleToHMM Ex.hmmToTriple
     Ex.baumWelch).
Abbreviation ex_getHMMDistMatrix_with :=
  (_getHMMDistMatrix_with Ex.k_means Ex.mean Ex.std Ex.HMM Ex.tripleToHMM
     Ex.hmmToTriple Ex.baumWelch Ex.loglikelihood).
Abbreviation ex_getHMMDistMatrix :=
  (_getHMMDistMatrix Ex.k_means Ex.mean Ex.std Ex.HMM Ex.tripleToHMM
     Ex.hmmToTriple Ex.baumWelch Ex.loglikelihood).
Abbreviation ex_getDistMatrix :=
  (_getDistMatrix Ex.k_means Ex.mean Ex.std Ex.HMM Ex.tripleToHMM
     Ex.hmmToTriple Ex.baumWelch Ex.loglikelihood Ex.levDistance).
Abbreviation ex_hierarchical :=
  (_hierarchical Ex.k_means Ex.mean Ex.std Ex.HMM Ex.tripleToHMM
     Ex.hmmToTriple Ex.baumWelch Ex.loglikelihood Ex.levDistance Ex.Tree
     Ex.treecluster Ex.cut).
Abbreviation ex_trainModels :=
  (_trainModels Ex.k_means Ex.mean Ex.std Ex.HMM Ex.tripleToHMM
     Ex.hmmToTriple Ex.baumWelch Ex.compositeTriple).
Abbreviation ex_model :=
  (model Ex.k_means Ex.mean Ex.std Ex.HMM Ex.tripleToHMM Ex.hmmToTriple
     Ex.baumWelch Ex.loglikelihood Ex.compositeTriple Ex.levDistance Ex.Tree
     Ex.treecluster Ex.cut Ex.kmedoids).

(** The default model of one sequence with two plateaus: training moves
    the transition matrix and the initial distribution away from the
    uniform ones the initializer built. *)
Example default_triple_two_plateaus :
  ex_smythDefaultTriple (Ex.plateaus, 2%Z)
  = Ok ([[2 # 3; 1 # 3]; [0; 1]], [(0, 0.5); (10, 0.5)], [1; 0]).
Proof. vm_compute. reflexivity. Qed.

(** C3, as stated, fails: for a non-empty sequence set and target_m >= 1
    the returned triple has two states, and its transition matrix is not
    the uniform one with every entry 1/2, nor is its initial distribution
    uniform. *)
Lemma returned_triple_not_uniform :
  ∃ A B pi,
    ex_smythDefaultTriple (Ex.plateaus, 2%Z) = Ok (A, B, pi) ∧
    length B = 2%nat ∧
    ¬ Forall (Forall (λ x, x == 1 # 2)) A ∧ ¬ Forall (λ x, x == 1 # 2) pi.
Proof.
  eexists _, _, _. split; [apply default_triple_two_plateaus|].
  split; [reflexivity|]. split.
  - intros H. apply Forall_cons_1 in H as [H _].
    apply Forall_cons_1 in H as [H _]. vm_compute in H. discriminate.
  - intros H. apply Forall_cons_1 in H as [H _]. vm_compute in H.
    discriminate.
Qed.

Lemma smythDefaultTriple_spec_witness :
  (0 < length (state_groups Ex.k_means (Ex.plateaus, 2%Z)))%nat ∧
  ∃ B_p,
    ex_smythDefaultTriple (Ex.plateaus, 2%Z)
    = Ok ([[2 # 3; 1 # 3]; [0; 1]], B_p, [1; 0]) ∧
    B_p = [(0, 0.5); (10, 0.5)].
Proof.
  split; [vm_compute; lia|].
  destruct (smythDefaultTriple_spec Ex.k_means Ex.mean Ex.std Ex.HMM
              Ex.tripleToHMM Ex.hmmToTriple Ex.baumWelch
              Ex.plateaus 2%Z)
    as (B_p & Hrun & HB & _); [vm_compute; lia|].
  exists B_p. split.
  - rewrite Hrun. vm_compute. reflexivity.
  - rewrite HB. vm_compute. reflexivity.
Defined.

(** C2, as stated, fails: the triple [trainHMM] returns for one sequence
    that alternates between 1 and 1.2 has the emission standard deviation
    0.1. *)
Lemma trained_stddev_below_floor :
  ∃ A B pi,
    ex_trainHMM (Ex.alternating, 1%Z) = Ok (A, B, pi) ∧
    ¬ Forall (λ e : Q * Q, EPSILON <= e.2) B.
Proof.
  exists [[1]], [(1.1, 0.1)], [1]. split; [vm_compute; reflexivity|].
  intros H. apply Forall_cons_1 in H as [H _]. vm_compute in H. by apply H.
Qed.


Lemma Ex_levDistance_nonneg (p : list Q * list Q) : 0 <= Ex.levDistance p.
Proof. unfold Ex.levDistance, Qle. cbn. lia. Qed.

Lemma dist_matrix_shape_rational_witness :
  (∀ p, 0 <= Ex.levDistance p) ∧
  fst <$> succ ex_getDistMatrix (Ex.self_edit, Ex.world0)
  = Some [3; 3; 3; 3; 3; 3] ∧
  length [3; 3; 3; 3; 3; 3] = (4 * (4 - 1) / 2)%nat ∧
  StronglySorted row_major (pair_indices 4) ∧
  (∀ i j, (i, j) ∈ pair_indices 4 ↔ (i < j < 4)%nat) ∧
  Forall2 (λ '(i, j) d,
             0 <= d ∧
             ("editdistance" = "editdistance" →
              ∃ s_i s_j, Ex.seqs !! i = Some s_i ∧ Ex.seqs !! j = Some s_j ∧
                         d = Ex.levDistance (s_i, s_j)))
          (pair_indices 4) [3; 3; 3; 3; 3; 3].
Proof.
  split; [apply Ex_levDistance_nonneg|].
  split; [vm_compute; reflexivity|].
  apply (dist_matrix_shape_rational Ex.k_means Ex.mean Ex.std Ex.HMM Ex.tripleToHMM
           Ex.hmmToTriple Ex.baumWelch Ex.loglikelihood Ex.levDistance
           (Ex.self_edit, Ex.world0));
    [apply Ex_levDistance_nonneg|vm_compute; reflexivity].
Defined.

Abbreviation ex_getDistMatrix_inf :=
  (_getDistMatrix_inf Ex.k_means Ex.mean Ex.std Ex.HMM Ex.tripleToHMM
     Ex.hmmToTriple Ex.baumWelch Ex.levDistance Ex.loglikelihood_inf
     Ex.float32).

Lemma Ex_float32_nonneg (x : pyfloat) :
  fle_bool (Fin 0) x = true → fle_bool (Fin 0) (Ex.float32 x) = true.
Proof.
  destruct x as [q| | |]; cbn; try done.
  intros Hq. destruct (Qle_bool (inject_Z (2 ^ 128)) (Qabs q)); [|done].
  by rewrite Hq.
Qed.

(** C5, as stated, fails: for four sequences in two groups far apart, where
    the log-likelihood of a sequence under the model of a sequence of the
    other group is [-inf], the HMM strategy returns a matrix of
    4(4-1)/2 = 6 entries of which four are [+inf], not finite. *)
Lemma dist_matrix_entry_infinite :
  fst <$> succ ex_getDistMatrix_inf (Ex.self_hmm, Ex.world0)
  = Some [Fin (96 # 512); PInf; PInf; PInf; PInf; Fin (24 # 32)] ∧
  ¬ Forall is_finite [Fin (96 # 512); PInf; PInf; PInf; PInf; Fin (24 # 32)].
Proof.
  split; [vm_compute; reflexivity|].
  intros H. apply Forall_cons in H as [_ H]. by apply Forall_cons in H as [H _].
Qed.

Lemma dist_matrix_shape_witness :
  (∀ p, 0 <= Ex.levDistance p) ∧
  (∀ x, fle_bool (Fin 0) x = true → fle_bool (Fin 0) (Ex.float32 x) = true) ∧
  Ex.float32 PInf = PInf ∧
  fst <$> succ ex_getDistMatrix_inf (Ex.self_hmm, Ex.world0)
  = Some [Fin (96 # 512); PInf; PInf; PInf; PInf; Fin (24 # 32)] ∧
  length [Fin (96 # 512); PInf; PInf; PInf; PInf; Fin (24 # 32)]
  = (4 * (4 - 1) / 2)%nat ∧
  StronglySorted row_major (pair_indices 4) ∧
  (∀ i j, (i, j) ∈ pair_indices 4 ↔ (i < j < 4)%nat) ∧
  Forall2 (λ '(i, j) d,
     fle_bool (Fin 0) d = true ∧
     ("hmm" = "editdistance" →
      ∃ s_i s_j, Ex.seqs !! i = Some s_i ∧ Ex.seqs !! j = Some s_j ∧
                 d = Fin (Ex.levDistance (s_i, s_j)) ∧ is_finite d) ∧
     ("hmm" = "hmm" →
      ∃ s_i s_j t_i t_j,
        Ex.seqs !! i = Some s_i ∧ Ex.seqs !! j = Some s_j ∧
        ex_smythDefaultTriple ([s_i], 1%Z) = Ok t_i ∧
        ex_smythDefaultTriple ([s_j], 1%Z) = Ok t_j ∧
        let L_i_mj := Ex.loglikelihood_inf (Ex.tripleToHMM t_j) s_i in
        let L_j_mi := Ex.loglikelihood_inf (Ex.tripleToHMM t_i) s_j in
        fle_bool L_i_mj (Fin 0) = true ∧ fle_bool L_j_mi (Fin 0) = true ∧
        d = Ex.float32 (fneg (fhalf (fadd L_i_mj L_j_mi))) ∧
        (L_i_mj = NInf ∨ L_j_mi = NInf → d = PInf)))
    (pair_indices 4)
    [Fin (96 # 512); PInf; PInf; PInf; PInf; Fin (24 # 32)].
Proof.
  assert (Hcast : Ex.float32 PInf = PInf) by reflexivity.
  assert (Hrun : fst <$> succ ex_getDistMatrix_inf (Ex.self_hmm, Ex.world0)
                 = Some [Fin (96 # 512); PInf; PInf; PInf; PInf;
                         Fin (24 # 32)]) by (vm_compute; reflexivity).
  split; [exact Ex_levDistance_nonneg|].
  split; [exact Ex_float32_nonneg|]. split; [exact Hcast|].
  split; [exact Hrun|].
  exact (dist_matrix_shape Ex.k_means Ex.mean Ex.std Ex.HMM Ex.tripleToHMM
           Ex.hmmToTriple Ex.baumWelch Ex.levDistance Ex.loglikelihood_inf
           Ex.float32 (Ex.self_hmm, Ex.world0) _ Ex_levDistance_nonneg
           Ex_float32_nonneg Hcast Hrun).
Defined.

Lemma chunked_eq_unchunked_witness :
  (0 < 4)%Z ∧
  fst <$> succ (ex_getHMMDistMatrix_with 4) (Ex.self_hmm, Ex.world0)
  = fst <$> succ (_getHMMDistMatrix_unchunked Ex.k_means Ex.mean Ex.std
                    Ex.HMM Ex.tripleToHMM Ex.hmmToTriple Ex.baumWelch
                    Ex.loglikelihood) (Ex.self_hmm, Ex.world0) ∧
  fst <$> succ (ex_getHMMDistMatrix_with 4) (Ex.self_hmm, Ex.world0)
  = hmm_dist_matrix Ex.k_means Ex.mean Ex.std Ex.HMM Ex.tripleToHMM
      Ex.hmmToTriple Ex.baumWelch Ex.loglikelihood Ex.self_hmm.
Proof.
  split; [lia|].
  apply (chunked_eq_unchunked Ex.k_means Ex.mean Ex.std Ex.HMM Ex.tripleToHMM
           Ex.hmmToTriple Ex.baumWelch Ex.loglikelihood 4
           (Ex.self_hmm, Ex.world0)).
  lia.
Defined.

Lemma init_invalid_fails_before_pool_witness :
  ((2 < 3)%Z ∨
   "hmm" ∉ ["hmm"; "editdistance"] ∨ "smyth" ∉ ["smyth"; "random"] ∨
   "hierarchical" ∉ ["hierarchical"; "kmedoids"] ∨
   "cluster" ∉ ["blockdiag"; "cluster"]) ∧
  __init__ Ex.seqs 1 3 2 "hmm" "smyth" "hierarchical" "cluster" None Ex.world0
  = (Err AssertionError, Ex.world0).
Proof.
  split; [left; lia|].
  apply (init_invalid_fails_before_pool Ex.seqs 1 3 2 "hmm" "smyth"
           "hierarchical" "cluster" None Ex.world0).
  left. lia.
Defined.

Lemma trainModels_reassembly_witness :
  NoDup (k_values Ex.self_clustered) ∧
  (∀ k, k ∈ k_values Ex.self_clustered →
        ∃ p, partitions Ex.self_clustered !! k = Some p
             ∧ (Z.of_nat (length p) ≤ k)%Z) ∧
  succ ex_trainModels (Ex.self_clustered, Ex.world0)
  = Some (tt, (ex_trainModels (Ex.self_clustered, Ex.world0)).2) ∧
  ∀ k, k ∈ k_values Ex.self_clustered →
  ∃ (p : list (list (list Q)))
    (triples : list (list (list Q) * list (Q * Q) * list Q)),
    partitions Ex.self_clustered !! k = Some p ∧ Z.of_nat (length p) = k ∧
    Forall2 (λ cluster t, ex_trainHMM (cluster, 1%Z) = Ok t) p triples ∧
    components (ex_trainModels (Ex.self_clustered, Ex.world0)).2.1 !! k
    = Some (Component triples (length <$> p) (map length <$> p)).
Proof.
  assert (Hnd : NoDup (k_values Ex.self_clustered)).
  { apply (bool_decide_unpack _). vm_compute. exact I. }
  assert (Hparts : ∀ k, k ∈ k_values Ex.self_clustered →
            ∃ p, partitions Ex.self_clustered !! k = Some p
                 ∧ (Z.of_nat (length p) ≤ k)%Z).
  { intros k Hk. change (k ∈ [1; 2]%Z) in Hk.
    apply elem_of_cons in Hk as [->|Hk];
      [|apply elem_of_cons in Hk as [->|Hk]; [|by apply elem_of_nil in Hk]].
    - eexists. split; [vm_compute; reflexivity|cbn; lia].
    - eexists. split; [vm_compute; reflexivity|cbn; lia]. }
  assert (Hrun : succ ex_trainModels (Ex.self_clustered, Ex.world0)
                 = Some (tt, (ex_trainModels (Ex.self_clustered, Ex.world0)).2)).
  { vm_compute. reflexivity. }
  split; [exact Hnd|]. split; [exact Hparts|]. split; [exact Hrun|].
  exact (trainModels_reassembly Ex.k_means Ex.mean Ex.std Ex.HMM
           Ex.tripleToHMM Ex.hmmToTriple Ex.baumWelch Ex.compositeTriple
           (Ex.self_clustered, Ex.world0) _ Hnd Hparts Hrun).
Defined.

Lemma hierarchical_partitions_witness :
  n_ Ex.self_hmm = length (S_ Ex.self_hmm) ∧
  (∀ dm k, fst <$> succ ex_getDistMatrix (Ex.self_hmm, Ex.world0) = Some dm →
     k ∈ k_values Ex.self_hmm →
     length (Ex.cut (Ex.treecluster dm) k) = n_ Ex.self_hmm ∧ (0 ≤ k)%Z ∧
     ∀ c, c ∈ Ex.cut (Ex.treecluster dm) k ↔ (0 ≤ c < k)%Z) ∧
  succ ex_hierarchical (Ex.self_hmm, Ex.world0)
  = Some (tt, (ex_hierarchical (Ex.self_hmm, Ex.world0)).2) ∧
  ∃ dm evs,
    dist_matrix (ex_hierarchical (Ex.self_hmm, Ex.world0)).2.1 = Some dm ∧
    trace (ex_hierarchical (Ex.self_hmm, Ex.world0)).2.2 = [] ++ evs ∧
    filter (λ e, e = TreeCluster) evs = [TreeCluster] ∧
    ∀ k, k ∈ k_values Ex.self_hmm →
      partitions (ex_hierarchical (Ex.self_hmm, Ex.world0)).2.1 !! k
      = Some (partition Ex.seqs (Ex.cut (Ex.treecluster dm) k)) ∧
      Z.of_nat (length (partition (seq 0 4) (Ex.cut (Ex.treecluster dm) k))) = k ∧
      Forall (λ g, g ≠ []) (partition (seq 0 4) (Ex.cut (Ex.treecluster dm) k)) ∧
      concat (partition (seq 0 4) (Ex.cut (Ex.treecluster dm) k)) ≡ₚ seq 0 4.
Proof.
  assert (Hn : n_ Ex.self_hmm = length (S_ Ex.self_hmm)) by reflexivity.
  assert (Hcut : ∀ dm k,
     fst <$> succ ex_getDistMatrix (Ex.self_hmm, Ex.world0) = Some dm →
     k ∈ k_values Ex.self_hmm →
     length (Ex.cut (Ex.treecluster dm) k) = n_ Ex.self_hmm ∧ (0 ≤ k)%Z ∧
     ∀ c, c ∈ Ex.cut (Ex.treecluster dm) k ↔ (0 ≤ c < k)%Z).
  { intros dm k Hdm Hk. vm_compute in Hdm. injection Hdm as <-.
    change (k ∈ [1; 2]%Z) in Hk.
    apply elem_of_cons in Hk as [->|Hk];
      [|apply elem_of_cons in Hk as [->|Hk]; [|by apply elem_of_nil in Hk]].
    - split; [reflexivity|]. split; [lia|]. intros c.
      change (c ∈ [0; 0; 0; 0]%Z ↔ (0 ≤ c < 1)%Z).
      rewrite !elem_of_cons, elem_of_nil. lia.
    - split; [reflexivity|]. split; [lia|]. intros c.
      change (c ∈ [0; 1; 1; 1]%Z ↔ (0 ≤ c < 2)%Z).
      rewrite !elem_of_cons, elem_of_nil. lia. }
  assert (Hrun : succ ex_hierarchical (Ex.self_hmm, Ex.world0)
                 = Some (tt, (ex_hierarchical (Ex.self_hmm, Ex.world0)).2)).
  { vm_compute. reflexivity. }
  split; [exact Hn|]. split; [exact Hcut|]. split; [exact Hrun|].
  destruct (hierarchical_partitions Ex.k_means Ex.mean Ex.std Ex.HMM
              Ex.tripleToHMM Ex.hmmToTriple Ex.baumWelch Ex.loglikelihood
              Ex.levDistance Ex.Tree Ex.treecluster Ex.cut
              (Ex.self_hmm, Ex.world0) _ Hn Hcut Hrun)
    as (dm & evs & _ & Hdm & Htrace & Htree & Hks).
  exists dm, evs. split; [exact Hdm|]. split; [exact Htrace|].
  split; [exact Htree|]. intros k Hk.
  destruct (Hks k Hk) as (_ & Hp & _ & Hlen & Hne & Hperm).
  split; [exact Hp|]. split; [exact Hlen|]. split; [exact Hne|exact Hperm].
Defined.

(** C10 fails on the code. With a clock that reads 100, 101, 102, ... the
    run of the pipeline under the HMM strategy reads 104 at the start of
    the distance-matrix stage and 105 at its end, and records 105 as the
    time of the stage: the reading at the end minus the first index, 0, of
    the last mini batch. *)
Lemma distance_matrix_time_is_clock_reading :
  times (ex_model (Ex.self_hmm, emit [PoolCreate None] Ex.world0)).2.1
    !! "distance_matrix"
  = Some (clock_src Ex.world0 5 - inject_Z 0) ∧
  ¬ (clock_src Ex.world0 5 - inject_Z 0
     == clock_src Ex.world0 5 - clock_src Ex.world0 4).
Proof.
  split; [vm_compute; reflexivity|]. vm_compute. discriminate.
Qed.

(** * The further properties on concrete inputs *)

Abbreviation ex_kMedoids :=
  (_kMedoids Ex.k_means Ex.mean Ex.std Ex.HMM Ex.tripleToHMM Ex.hmmToTriple
     Ex.baumWelch Ex.loglikelihood Ex.levDistance Ex.kmedoids).
Abbreviation ex_trained :=
  (ex_trainModels (Ex.self_clustered, Ex.world0)).2.
Abbreviation ex_modelled := (ex_model (Ex.self_hmm, Ex.world0)).2.
Abbreviation ex_hmm_matrix :=
  [96 # 512; 384 # 2; 6936 # 32; 92256 # 512; 104544 # 512; 24 # 32]
  (only parsing).

Lemma trainModels_single_bulk_job_witness :
  succ ex_trainModels (Ex.self_clustered, Ex.world0) = Some (tt, ex_trained) ∧
  ∃ parts,
    Forall2 (λ k p, partitions Ex.self_clustered !! k = Some p)
            (k_values Ex.self_clustered) parts ∧
    trace ex_trained.2
    = trace Ex.world0 ++ [PoolMap "trainHMM" (sum_list (length <$> parts))] ∧
    ticks ex_trained.2 = (2 + ticks Ex.world0)%nat ∧
    clock_src ex_trained.2 = clock_src Ex.world0 ∧
    times ex_trained.1 !! "modeling"
    = Some (clock_src Ex.world0 (1 + ticks Ex.world0)
            - clock_src Ex.world0 (ticks Ex.world0)).
Proof.
  assert (Hrun : succ ex_trainModels (Ex.self_clustered, Ex.world0)
                 = Some (tt, ex_trained)) by (vm_compute; reflexivity).
  split; [exact Hrun|].
  exact (trainModels_single_bulk_job Ex.k_means Ex.mean Ex.std Ex.HMM
           Ex.tripleToHMM Ex.hmmToTriple Ex.baumWelch Ex.compositeTriple
           (Ex.self_clustered, Ex.world0) _ Hrun).
Defined.

Lemma trainModels_composites_witness :
  succ ex_trainModels (Ex.self_clustered, Ex.world0) = Some (tt, ex_trained) ∧
  ∀ k, k ∈ k_values Ex.self_clustered →
    ∃ c, components ex_trained.1 !! k = Some c ∧
         composites ex_trained.1 !! k
         = Some (Ex.hmmToTriple (Ex.tripleToHMM (Ex.compositeTriple c))).
Proof.
  assert (Hrun : succ ex_trainModels (Ex.self_clustered, Ex.world0)
                 = Some (tt, ex_trained)) by (vm_compute; reflexivity).
  split; [exact Hrun|].
  exact (trainModels_composites Ex.k_means Ex.mean Ex.std Ex.HMM
           Ex.tripleToHMM Ex.hmmToTriple Ex.baumWelch Ex.compositeTriple
           (Ex.self_clustered, Ex.world0) _ Hrun).
Defined.

Lemma trainModels_missing_partition_witness :
  1%Z ∈ k_values Ex.self_hmm ∧ partitions Ex.self_hmm !! 1%Z = None ∧
  ex_trainModels (Ex.self_hmm, Ex.world0)
  = (Err KeyError, (Ex.self_hmm, Ex.world0)).
Proof.
  assert (H1 : 1%Z ∈ k_values Ex.self_hmm) by (vm_compute; left).
  assert (H2 : partitions Ex.self_hmm !! 1%Z = None) by reflexivity.
  split; [exact H1|]. split; [exact H2|].
  exact (trainModels_missing_partition Ex.k_means Ex.mean Ex.std Ex.HMM
           Ex.tripleToHMM Ex.hmmToTriple Ex.baumWelch Ex.compositeTriple
           (Ex.self_hmm, Ex.world0) 1%Z H1 H2).
Defined.

Lemma kMedoids_partitions_witness :
  succ ex_kMedoids (Ex.self_kmedoids, Ex.world0)
  = Some (tt, (ex_kMedoids (Ex.self_kmedoids, Ex.world0)).2) ∧
  ∃ dm evs,
    fst <$> succ ex_getDistMatrix (Ex.self_kmedoids, Ex.world0) = Some dm ∧
    dist_matrix (ex_kMedoids (Ex.self_kmedoids, Ex.world0)).2.1 = Some dm ∧
    trace (ex_kMedoids (Ex.self_kmedoids, Ex.world0)).2.2
    = trace Ex.world0 ++ evs
      ++ [PoolMap "kMedoids" (length (k_values Ex.self_kmedoids))] ∧
    Forall is_pool_map evs ∧
    ∀ k, k ∈ k_values Ex.self_kmedoids →
      let labels := (Ex.kmedoids dm k 10).1.1 in
      labelings (ex_kMedoids (Ex.self_kmedoids, Ex.world0)).2.1 !! k
      = Some labels ∧
      partitions (ex_kMedoids (Ex.self_kmedoids, Ex.world0)).2.1 !! k
      = Some (partition (S_ Ex.self_kmedoids) labels).
Proof.
  assert (Hrun : succ ex_kMedoids (Ex.self_kmedoids, Ex.world0)
                 = Some (tt, (ex_kMedoids (Ex.self_kmedoids, Ex.world0)).2))
    by (vm_compute; reflexivity).
  split; [exact Hrun|].
  exact (kMedoids_partitions Ex.k_means Ex.mean Ex.std Ex.HMM Ex.tripleToHMM
           Ex.hmmToTriple Ex.baumWelch Ex.loglikelihood Ex.levDistance
           Ex.kmedoids (Ex.self_kmedoids, Ex.world0) _ Hrun).
Defined.

Lemma model_times_witness :
  succ ex_model (Ex.self_hmm, Ex.world0) = Some (tt, ex_modelled) ∧
  (ticks Ex.world0 + 6 ≤ ticks ex_modelled.2)%nat ∧
  times ex_modelled.1 !! "total"
  = Some (clock_src Ex.world0 (ticks ex_modelled.2 - 1)%nat
          - clock_src Ex.world0 (ticks Ex.world0)) ∧
  times ex_modelled.1 !! "clustering"
  = Some (clock_src Ex.world0 (ticks ex_modelled.2 - 4)%nat
          - clock_src Ex.world0 (ticks Ex.world0 + 1)%nat) ∧
  times ex_modelled.1 !! "modeling"
  = Some (clock_src Ex.world0 (ticks ex_modelled.2 - 2)%nat
          - clock_src Ex.world0 (ticks ex_modelled.2 - 3)%nat).
Proof.
  assert (Hrun : succ ex_model (Ex.self_hmm, Ex.world0)
                 = Some (tt, ex_modelled)) by (vm_compute; reflexivity).
  split; [exact Hrun|].
  exact (model_times Ex.k_means Ex.mean Ex.std Ex.HMM Ex.tripleToHMM
           Ex.hmmToTriple Ex.baumWelch Ex.loglikelihood Ex.compositeTriple
           Ex.levDistance Ex.Tree Ex.treecluster Ex.cut Ex.kmedoids
           (Ex.self_hmm, Ex.world0) _ Hrun).
Defined.

Lemma hmm_distance_needs_two_sequences_witness :
  (n_ Ex.self_one < 2)%nat ∧
  (∃ e, (ex_getHMMDistMatrix (Ex.self_one, Ex.world0)).1 = Err e) ∧
  ∀ models : list (list (list Q) * list (Q * Q) * list Q),
    hmm_init Ex.self_one = "smyth" →
    Forall2 (λ seq t,
               ex_smythDefaultTriple ([seq], target_m Ex.self_one) = Ok t)
            (S_ Ex.self_one) models →
    (ex_getHMMDistMatrix (Ex.self_one, Ex.world0)).1 = Err ValueError.
Proof.
  assert (Hn : (n_ Ex.self_one < 2)%nat) by (simpl; lia).
  split; [exact Hn|].
  exact (hmm_distance_needs_two_sequences Ex.k_means Ex.mean Ex.std Ex.HMM
           Ex.tripleToHMM Ex.hmmToTriple Ex.baumWelch Ex.loglikelihood
           (Ex.self_one, Ex.world0) Hn).
Defined.

Lemma hmm_distance_needs_smyth_init_witness :
  hmm_init Ex.self_random ≠ "smyth" ∧
  ∃ e, (ex_getHMMDistMatrix (Ex.self_random, Ex.world0)).1 = Err e.
Proof.
  assert (Hi : hmm_init Ex.self_random ≠ "smyth") by (simpl; discriminate).
  split; [exact Hi|].
  exact (hmm_distance_needs_smyth_init Ex.k_means Ex.mean Ex.std Ex.HMM
           Ex.tripleToHMM Ex.hmmToTriple Ex.baumWelch Ex.loglikelihood
           (Ex.self_random, Ex.world0) Hi).
Defined.

Lemma hmm_stage_stores_default_models_witness :
  succ ex_getHMMDistMatrix (Ex.self_hmm, Ex.world0)
  = Some (ex_hmm_matrix, (ex_getHMMDistMatrix (Ex.self_hmm, Ex.world0)).2) ∧
  ∃ models : list (list (list Q) * list (Q * Q) * list Q),
    Forall2 (λ seq t,
               ex_smythDefaultTriple ([seq], target_m Ex.self_hmm) = Ok t)
            (S_ Ex.self_hmm) models ∧
    init_hmms (ex_getHMMDistMatrix (Ex.self_hmm, Ex.world0)).2.1
    = Some <$> models ∧
    ticks (ex_getHMMDistMatrix (Ex.self_hmm, Ex.world0)).2.2
    = (4 + ticks Ex.world0)%nat ∧
    times (ex_getHMMDistMatrix (Ex.self_hmm, Ex.world0)).2.1 !! "init_hmms"
    = Some (clock_src Ex.world0 (1 + ticks Ex.world0)
            - clock_src Ex.world0 (ticks Ex.world0)).
Proof.
  assert (Hrun : succ ex_getHMMDistMatrix (Ex.self_hmm, Ex.world0)
                 = Some (ex_hmm_matrix,
                         (ex_getHMMDistMatrix (Ex.self_hmm, Ex.world0)).2))
    by (vm_compute; reflexivity).
  split; [exact Hrun|].
  exact (hmm_stage_stores_default_models Ex.k_means Ex.mean Ex.std Ex.HMM
           Ex.tripleToHMM Ex.hmmToTriple Ex.baumWelch Ex.loglikelihood
           (Ex.self_hmm, Ex.world0) _ _ Hrun).
Defined.

Lemma hmm_stage_pool_maps_witness :
  (0 < 3)%Z ∧
  succ (ex_getHMMDistMatrix_with 3) (Ex.self_hmm, Ex.world0)
  = Some (ex_hmm_matrix,
          (ex_getHMMDistMatrix_with 3 (Ex.self_hmm, Ex.world0)).2) ∧
  trace (ex_getHMMDistMatrix_with 3 (Ex.self_hmm, Ex.world0)).2.2
  = trace Ex.world0
    ++ PoolMap "smythDefaultTriple" (length (S_ Ex.self_hmm))
       :: replicate ((n_ Ex.self_hmm * (n_ Ex.self_hmm - 1) / 2) / Z.to_nat 3)
                    (PoolMap "symDistance" (Z.to_nat 3))
    ++ [PoolMap "symDistance"
          ((n_ Ex.self_hmm * (n_ Ex.self_hmm - 1) / 2) mod Z.to_nat 3)].
Proof.
  assert (Hbs : (0 < 3)%Z) by lia.
  assert (Hrun : succ (ex_getHMMDistMatrix_with 3) (Ex.self_hmm, Ex.world0)
                 = Some (ex_hmm_matrix,
                         (ex_getHMMDistMatrix_with 3
                            (Ex.self_hmm, Ex.world0)).2))
    by (vm_compute; reflexivity).
  split; [exact Hbs|]. split; [exact Hrun|].
  exact (hmm_stage_pool_maps Ex.k_means Ex.mean Ex.std Ex.HMM Ex.tripleToHMM
           Ex.hmmToTriple Ex.baumWelch Ex.loglikelihood 3
           (Ex.self_hmm, Ex.world0) _ _ Hbs Hrun).
Defined.

(** With four sequences and mini batches of three pairs, three is a
    divisor of the six pairs: two full mini batches and an empty one. *)
Example hmm_stage_pool_maps_empty_batch :
  trace (ex_getHMMDistMatrix_with 3 (Ex.self_hmm, Ex.world0)).2.2
  = [PoolMap "smythDefaultTriple" 4; PoolMap "symDistance" 3;
     PoolMap "symDistance" 3; PoolMap "symDistance" 0].
Proof. vm_compute. reflexivity. Qed.

Lemma edit_distance_stage_witness :
  n_ Ex.self_edit = length (S_ Ex.self_edit) ∧
  ∃ m s',
    _getEditDistMatrix Ex.levDistance (Ex.self_edit, Ex.world0) = (Ok m, s') ∧
    length m = (n_ Ex.self_edit * (n_ Ex.self_edit - 1) / 2)%nat ∧
    trace s'.2
    = trace Ex.world0
      ++ [PoolMap "levDistance"
            (n_ Ex.self_edit * (n_ Ex.self_edit - 1) / 2)] ∧
    ticks s'.2 = (2 + ticks Ex.world0)%nat ∧
    times s'.1 !! "distance_matrix"
    = Some (clock_src Ex.world0 (1 + ticks Ex.world0)
            - clock_src Ex.world0 (ticks Ex.world0)).
Proof.
  assert (Hn : n_ Ex.self_edit = length (S_ Ex.self_edit)) by reflexivity.
  split; [exact Hn|].
  exact (edit_distance_stage Ex.levDistance (Ex.self_edit, Ex.world0) Hn).
Defined.

Lemma init_valid_object_witness :
  @None nat ≠ Some 0%nat ∧
  (1 ≤ 2)%Z ∧ "hmm" ∈ ["hmm"; "editdistance"] ∧
  "smyth" ∈ ["smyth"; "random"] ∧
  "hierarchical" ∈ ["hierarchical"; "kmedoids"] ∧
  "cluster" ∈ ["blockdiag"; "cluster"] ∧
  ∃ o,
    __init__ Ex.seqs 1 1 2 "hmm" "smyth" "hierarchical" "cluster" None
             Ex.world0 = (Ok o, emit [PoolCreate None] Ex.world0) ∧
    S_ o = Ex.seqs ∧ n_ o = length Ex.seqs ∧
    (∀ k, k ∈ k_values o ↔ (1 ≤ k ≤ 2)%Z) ∧
    NoDup (k_values o) ∧ StronglySorted Z.lt (k_values o) ∧
    Z.of_nat (length (k_values o)) = (2 - 1 + 1)%Z ∧
    dist_matrix o = None ∧ init_hmms o = [] ∧
    components o = ∅ ∧ composites o = ∅ ∧ partitions o = ∅ ∧
    labelings o = ∅ ∧ times o = ∅.
Proof.
  assert (H0 : @None nat ≠ Some 0%nat) by discriminate.
  assert (H1 : (1 ≤ 2)%Z) by lia.
  assert (H2 : "hmm" ∈ ["hmm"; "editdistance"]) by left.
  assert (H3 : "smyth" ∈ ["smyth"; "random"]) by left.
  assert (H4 : "hierarchical" ∈ ["hierarchical"; "kmedoids"]) by left.
  assert (H5 : "cluster" ∈ ["blockdiag"; "cluster"]) by (right; left).
  split; [exact H0|].
  split; [exact H1|]. split; [exact H2|]. split; [exact H3|].
  split; [exact H4|]. split; [exact H5|].
  exact (init_valid_object Ex.seqs 1 1 2 "hmm" "smyth" "hierarchical"
           "cluster" None Ex.world0 H0 H1 H2 H3 H4 H5).
Defined.

Lemma model_populates_witness :
  succ ex_model (Ex.self_hmm, Ex.world0) = Some (tt, ex_modelled) ∧
  ∀ k, k ∈ k_values Ex.self_hmm →
    ∃ p c,
      partitions ex_modelled.1 !! k = Some p ∧
      components ex_modelled.1 !! k = Some c ∧
      composites ex_modelled.1 !! k
      = Some (Ex.hmmToTriple (Ex.tripleToHMM (Ex.compositeTriple c))).
Proof.
  assert (Hrun : succ ex_model (Ex.self_hmm, Ex.world0)
                 = Some (tt, ex_modelled)) by (vm_compute; reflexivity).
  split; [exact Hrun|].
  exact (model_populates Ex.k_means Ex.mean Ex.std Ex.HMM Ex.tripleToHMM
           Ex.hmmToTriple Ex.baumWelch Ex.loglikelihood Ex.compositeTriple
           Ex.levDistance Ex.Tree Ex.treecluster Ex.cut Ex.kmedoids
           (Ex.self_hmm, Ex.world0) _ Hrun).
Defined.

Lemma model_aborts_when_distance_stage_raises_witness :
  clust_alg Ex.self_one ∈ ["hierarchical"; "kmedoids"] ∧
  (ex_getDistMatrix (Ex.self_one, Ex.world0)).1 = Err ValueError ∧
  (ex_model (Ex.self_one, Ex.world0)).1 = Err ValueError ∧
  dist_matrix (ex_model (Ex.self_one, Ex.world0)).2.1
  = dist_matrix Ex.self_one ∧
  partitions (ex_model (Ex.self_one, Ex.world0)).2.1
  = partitions Ex.self_one ∧
  labelings (ex_model (Ex.self_one, Ex.world0)).2.1
  = labelings Ex.self_one ∧
  components (ex_model (Ex.self_one, Ex.world0)).2.1
  = components Ex.self_one ∧
  composites (ex_model (Ex.self_one, Ex.world0)).2.1
  = composites Ex.self_one ∧
  ∀ key, key ∉ ["init_hmms"; "distance_matrix"] →
         times (ex_model (Ex.self_one, Ex.world0)).2.1 !! key
         = times Ex.self_one !! key.
Proof.
  assert (Ha : clust_alg Ex.self_one ∈ ["hierarchical"; "kmedoids"])
    by (simpl; left).
  assert (Hd : (ex_getDistMatrix (Ex.self_one, Ex.world0)).1 = Err ValueError)
    by (vm_compute; reflexivity).
  split; [exact Ha|]. split; [exact Hd|].
  exact (model_aborts_when_distance_stage_raises Ex.k_means Ex.mean Ex.std
           Ex.HMM Ex.tripleToHMM Ex.hmmToTriple Ex.baumWelch Ex.loglikelihood
           Ex.compositeTriple Ex.levDistance Ex.Tree Ex.treecluster Ex.cut
           Ex.kmedoids (Ex.self_one, Ex.world0) ValueError Ha Hd).
Defined.

Lemma trainModels_does_not_accumulate_witness :
  NoDup (k_values Ex.self_clustered) ∧
  (∀ k, k ∈ k_values Ex.self_clustered →
        ∃ p, partitions Ex.self_clustered !! k = Some p
             ∧ Z.of_nat (length p) = k) ∧
  succ ex_trainModels (Ex.self_clustered, Ex.world0) = Some (tt, ex_trained) ∧
  succ ex_trainModels ex_trained
  = Some (tt, (ex_trainModels ex_trained).2) ∧
  ∀ k, k ∈ k_values Ex.self_clustered →
    ∃ c1 c2,
      components ex_trained.1 !! k = Some c1 ∧
      components (ex_trainModels ex_trained).2.1 !! k = Some c2 ∧
      Z.of_nat (length (comp_hmm_triples c2)) = k ∧
      length (comp_hmm_triples c2) = length (comp_hmm_triples c1) ∧
      comp_cluster_sizes c2 = comp_cluster_sizes c1 ∧
      comp_seq_lens c2 = comp_seq_lens c1.
Proof.
  assert (Hnd : NoDup (k_values Ex.self_clustered)).
  { apply (bool_decide_unpack _). vm_compute. exact I. }
  assert (Hparts : ∀ k, k ∈ k_values Ex.self_clustered →
            ∃ p, partitions Ex.self_clustered !! k = Some p
                 ∧ Z.of_nat (length p) = k).
  { intros k Hk. change (k ∈ [1; 2]%Z) in Hk.
    apply elem_of_cons in Hk as [->|Hk];
      [|apply elem_of_cons in Hk as [->|Hk]; [|by apply elem_of_nil in Hk]].
    - eexists. split; [vm_compute; reflexivity|reflexivity].
    - eexists. split; [vm_compute; reflexivity|reflexivity]. }
  assert (Hrun1 : succ ex_trainModels (Ex.self_clustered, Ex.world0)
                  = Some (tt, ex_trained)) by (vm_compute; reflexivity).
  assert (Hrun2 : succ ex_trainModels ex_trained
                  = Some (tt, (ex_trainModels ex_trained).2))
    by (vm_compute; reflexivity).
  split; [exact Hnd|]. split; [exact Hparts|]. split; [exact Hrun1|].
  split; [exact Hrun2|].
  exact (trainModels_does_not_accumulate Ex.k_means Ex.mean Ex.std Ex.HMM
           Ex.tripleToHMM Ex.hmmToTriple Ex.baumWelch Ex.compositeTriple
           (Ex.self_clustered, Ex.world0) _ _ Hnd Hparts Hrun1 Hrun2).
Defined.
